(** * EasyDeL Mistral (Flax): a shallow embedding of
      [lib/python/EasyDel/modules/mistral/modelling_mistral_flax.py]

    The development follows the Python module top to bottom:
    the partition rules of [MistralConfig], [repeat_kv],
    [precompute_freq_cis], [apply_rotary_emb], the key/value cache of
    [FlaxMistralAttention.concatenate_to_cache_], the mask and bias
    computation of [FlaxMistralAttention.__call__], the decoder layer and
    the layer collection, the two top modules, [init_cache] and the
    generation helpers of [FlaxMistralForCausalLM].

    Conventions.
    - A Python call that may raise returns a [result]; the constructor
      [Raise] carries the exception class.
    - A [jax.Array] is an [ndarray]: a shape and an index function.  Only
      the values at in-bounds indices are meaningful.
    - Floating point numbers are idealised: a [fval] is a real number or
      the single non-finite value [NaN]; every rounding step ([astype])
      is the identity.
    - Flax variables of the ["cache"] collection are threaded explicitly
      as an [option kv_cache] ([None]: the variable does not exist). *)

From Stdlib Require Import String Ascii.
From Stdlib Require Import List Bool Arith ZArith Lia.
From Stdlib Require Import Reals Lra.
Import ListNotations.

Set Implicit Arguments.
Set Warnings "-register-all".

(* ================================================================== *)
(** * Python results *)

Inductive pyerr : Type :=
| ValueError | TypeError | AssertionError | AttributeError
| KeyError | IndexError | ZeroDivisionError.

Inductive result (A : Type) : Type :=
| Ok (a : A)
| Raise (e : pyerr).

Arguments Ok {A} a.
Arguments Raise {A} e.

Definition bind {A B : Type} (m : result A) (k : A -> result B) : result B :=
  match m with
  | Ok a => k a
  | Raise e => Raise e
  end.

Notation "x <- m ;; k" := (bind m (fun x => k))
  (at level 61, m at next level, right associativity).
Notation "' p <- m ;; k" := (bind m (fun x => let p := x in k))
  (at level 61, p pattern, m at next level, right associativity).

Definition raises {A : Type} (m : result A) : Prop :=
  exists e, m = Raise e.

Definition returns {A : Type} (m : result A) : Prop :=
  exists a, m = Ok a.

(* ================================================================== *)
(** * MistralConfig.get_partition_rules *)

(** The fragment of Python's [re] syntax that the rule patterns use. *)
Inductive regex : Type :=
| Void                       (* matches nothing *)
| Eps                        (* the empty pattern *)
| Chr (c : ascii)            (* a literal character *)
| Dot                        (* [.]: any character but a newline *)
| Cat (r1 r2 : regex)
| Alt (r1 r2 : regex)        (* [r1|r2] *)
| Star (r : regex).          (* [r*] *)

Fixpoint nullable (r : regex) : bool :=
  match r with
  | Void => false
  | Eps => true
  | Chr _ => false
  | Dot => false
  | Cat r1 r2 => nullable r1 && nullable r2
  | Alt r1 r2 => nullable r1 || nullable r2
  | Star _ => true
  end.

Definition newline : ascii := "010"%char.

Fixpoint deriv (c : ascii) (r : regex) : regex :=
  match r with
  | Void => Void
  | Eps => Void
  | Chr c' => if Ascii.eqb c c' then Eps else Void
  | Dot => if Ascii.eqb c newline then Void else Eps
  | Cat r1 r2 =>
      if nullable r1
      then Alt (Cat (deriv c r1) r2) (deriv c r2)
      else Cat (deriv c r1) r2
  | Alt r1 r2 => Alt (deriv c r1) (deriv c r2)
  | Star r1 => Cat (deriv c r1) (Star r1)
  end.

(** [re.match]: some prefix of [s] is matched by [r]. *)
Fixpoint re_match (r : regex) (s : list ascii) : bool :=
  nullable r ||
  match s with
  | [] => false
  | c :: s' => re_match (deriv c r) s'
  end.

(** [re.search(r, s) is not None]: some substring of [s] is matched. *)
Fixpoint re_search_list (r : regex) (s : list ascii) : bool :=
  re_match r s ||
  match s with
  | [] => false
  | _ :: s' => re_search_list r s'
  end.

Definition re_search (r : regex) (s : string) : bool :=
  re_search_list r (list_ascii_of_string s).

(** A literal pattern: the characters of [s] in sequence. *)
Fixpoint lit_list (s : list ascii) : regex :=
  match s with
  | [] => Eps
  | c :: s' => Cat (Chr c) (lit_list s')
  end.

Definition lit (s : string) : regex := lit_list (list_ascii_of_string s).

(** [jax.sharding.PartitionSpec]: one entry per tensor dimension, each a
    mesh axis name or [None]. *)
Definition PartitionSpec : Type := list (option string).

Definition PS1 (a : string) : PartitionSpec := [Some a].
Definition PS2 (a b : string) : PartitionSpec := [Some a; Some b].
Definition PSNone : PartitionSpec := [None].

Definition rule : Type := (regex * PartitionSpec)%type.

(** ["self_attn/(q_proj|k_proj|v_proj)/kernel"] *)
Definition qkv_pattern : regex :=
  Cat (lit "self_attn/")
      (Cat (Alt (lit "q_proj") (Alt (lit "k_proj") (lit "v_proj")))
           (lit "/kernel")).

(** ['.*'] *)
Definition wildcard : regex := Star Dot.

Definition get_partition_rules (fully_fsdp : bool) : list rule :=
  if negb fully_fsdp then
    [ (lit "model/embed_tokens/embedding", PS2 "dp" "fsdp");
      (qkv_pattern, PS2 "fsdp" "dp");
      (lit "self_attn/o_proj/kernel", PS2 "dp" "fsdp");
      (lit "mlp/gate_proj/kernel", PS2 "fsdp" "dp");
      (lit "mlp/down_proj/kernel", PS2 "dp" "fsdp");
      (lit "mlp/up_proj/kernel", PS2 "fsdp" "dp");
      (lit "input_layernorm/kernel", PSNone);
      (lit "post_attention_layernorm/kernel", PSNone);
      (lit "model/norm/kernel", PSNone);
      (lit "lm_head/kernel", PS2 "fsdp" "dp");
      (wildcard, PSNone) ]
  else
    [ (lit "model/embed_tokens/embedding", PS1 "fsdp");
      (qkv_pattern, PS1 "fsdp");
      (lit "self_attn/o_proj/kernel", PS1 "fsdp");
      (lit "mlp/gate_proj/kernel", PS1 "fsdp");
      (lit "mlp/down_proj/kernel", PS1 "fsdp");
      (lit "mlp/up_proj/kernel", PS1 "fsdp");
      (lit "input_layernorm/kernel", PSNone);
      (lit "post_attention_layernorm/kernel", PSNone);
      (lit "model/norm/kernel", PSNone);
      (lit "lm_head/kernel", PS1 "fsdp");
      (wildcard, PS1 "fsdp") ].

(** Modelled from the spec: the function that resolves a tensor name
    against the rules is not part of this module (the source only
    declares the rule table).  The specification reads: "evaluates rules
    in declared order, returns the first match".  A rule matches when its
    pattern is found in the name ([re.search]). *)
Fixpoint resolve (rules : list rule) (name : string) : option PartitionSpec :=
  match rules with
  | [] => None
  | (pat, ps) :: rest =>
      if re_search pat name then Some ps else resolve rest name
  end.

(* ================================================================== *)
(** * Idealised floating point values *)

(** A real number, or the non-finite value that [jnp.take] uses to fill
    out-of-bounds rows and that a division by zero produces. *)
Inductive fval : Type :=
| Fin (x : R)
| NaN.

Definition flift1 (f : R -> R) (a : fval) : fval :=
  match a with
  | Fin x => Fin (f x)
  | NaN => NaN
  end.

Definition flift2 (f : R -> R -> R) (a b : fval) : fval :=
  match a, b with
  | Fin x, Fin y => Fin (f x y)
  | _, _ => NaN
  end.

Definition fadd : fval -> fval -> fval := flift2 Rplus.
Definition fsub : fval -> fval -> fval := flift2 Rminus.
Definition fmul : fval -> fval -> fval := flift2 Rmult.
Definition fcos : fval -> fval := flift1 cos.
Definition fsin : fval -> fval := flift1 sin.
Definition fexp : fval -> fval := flift1 exp.
Definition fsqrt : fval -> fval := flift1 sqrt.

Definition fdiv (a b : fval) : fval :=
  match a, b with
  | Fin x, Fin y => if Req_dec_T y 0 then NaN else Fin (x / y)
  | _, _ => NaN
  end.

(** [a ** b] for a positive base. *)
Definition fpow : fval -> fval -> fval := flift2 Rpower.

Definition fzero : fval := Fin 0.
Definition fone : fval := Fin 1.
Definition of_nat (n : nat) : fval := Fin (INR n).

Definition fsum (l : list fval) : fval := fold_right fadd fzero l.

(** [jnp.complex64] *)
Record complex : Type := Complex { re : fval; im : fval }.

Definition cmul (a b : complex) : complex :=
  {| re := fsub (fmul (re a) (re b)) (fmul (im a) (im b));
     im := fadd (fmul (re a) (im b)) (fmul (im a) (re b)) |}.

Definition cnan : complex := {| re := NaN; im := NaN |}.

(** [jnp.finfo(dtype).min] of the working precisions. *)
Inductive dtype : Type := bfloat16 | float16 | float32.

Definition finfo_min (d : dtype) : R :=
  match d with
  | bfloat16 => - ((2 - / 2 ^ 7) * 2 ^ 127)
  | float16 => - 65504
  | float32 => - ((2 - / 2 ^ 23) * 2 ^ 127)
  end.

(* ================================================================== *)
(** * Arrays *)

Record ndarray (A : Type) : Type :=
  NDArray { shape : list nat; data : list nat -> A }.

Definition ndim {A : Type} (a : ndarray A) : nat := length (shape a).

Definition size_of (s : list nat) : nat := fold_right Nat.mul 1 s.

(** [ix] is a valid index of an array of shape [s]. *)
Fixpoint in_bounds (s ix : list nat) : bool :=
  match s, ix with
  | [], [] => true
  | d :: s', i :: ix' => (i <? d) && in_bounds s' ix'
  | _, _ => false
  end.

(** Two arrays are the same value: same shape, same entries. *)
Definition array_eq {A : Type} (a b : ndarray A) : Prop :=
  shape a = shape b /\
  forall ix, in_bounds (shape a) ix = true -> data a ix = data b ix.

Definition full {A : Type} (s : list nat) (v : A) : ndarray A :=
  NDArray s (fun _ => v).

Definition amap {A B : Type} (f : A -> B) (a : ndarray A) : ndarray B :=
  NDArray (shape a) (fun ix => f (data a ix)).

(** ** Broadcasting *)

Fixpoint dims_compatible (s target : list nat) : bool :=
  match s, target with
  | [], [] => true
  | d :: s', t :: target' =>
      ((d =? 1) || (d =? t)) && dims_compatible s' target'
  | _, _ => false
  end.

(** The index of the source entry that an index [ix] of the broadcast
    array reads: leading axes are dropped, axes of extent 1 read 0. *)
Definition bcast_index (s ix : list nat) : list nat :=
  map (fun di => if fst di =? 1 then 0 else snd di)
      (combine s (skipn (length ix - length s) ix)).

(** [jnp.broadcast_to(a, target)] *)
Definition broadcast_to {A : Type} (a : ndarray A) (target : list nat)
  : result (ndarray A) :=
  if length target <? ndim a then Raise ValueError
  else if dims_compatible (shape a)
            (skipn (length target - ndim a) target)
  then Ok (NDArray target (fun ix => data a (bcast_index (shape a) ix)))
  else Raise ValueError.

Fixpoint bshape (s1 s2 : list nat) : option (list nat) :=
  match s1, s2 with
  | [], [] => Some []
  | d1 :: s1', d2 :: s2' =>
      match bshape s1' s2' with
      | None => None
      | Some r =>
          if d1 =? d2 then Some (d1 :: r)
          else if d1 =? 1 then Some (d2 :: r)
          else if d2 =? 1 then Some (d1 :: r)
          else None
      end
  | _, _ => None
  end.

Definition pad_left (n : nat) (s : list nat) : list nat :=
  repeat 1 (n - length s) ++ s.

(** The common shape of a binary elementwise operation. *)
Definition broadcast_shapes (s1 s2 : list nat) : option (list nat) :=
  let n := Nat.max (length s1) (length s2) in
  bshape (pad_left n s1) (pad_left n s2).

(** An elementwise binary operation with NumPy broadcasting. *)
Definition binop {A B C : Type} (f : A -> B -> C)
  (a : ndarray A) (b : ndarray B) : result (ndarray C) :=
  match broadcast_shapes (shape a) (shape b) with
  | None => Raise ValueError
  | Some s =>
      Ok (NDArray s (fun ix =>
            f (data a (bcast_index (shape a) ix))
              (data b (bcast_index (shape b) ix))))
  end.

(** ** Inserting axes *)

(** A Python axis number, counted from the end when negative. *)
Definition canonicalize_axis (ax : Z) (n : nat) : result nat :=
  if ((- Z.of_nat n <=? ax) && (ax <? Z.of_nat n))%Z
  then Ok (Z.to_nat (if (ax <? 0)%Z then ax + Z.of_nat n else ax)%Z)
  else Raise ValueError.

Fixpoint canonicalize_axes (axes : list Z) (n : nat) : result (list nat) :=
  match axes with
  | [] => Ok []
  | ax :: rest =>
      d <- canonicalize_axis ax n ;;
      ds <- canonicalize_axes rest n ;;
      Ok (d :: ds)
  end.

Definition mem_nat (p : nat) (l : list nat) : bool := existsb (Nat.eqb p) l.

(** The shape with a new axis of extent 1 at each position of [dims];
    [p] is the current output position, [n] the output axes left. *)
Fixpoint expand_shape (dims : list nat) (p n : nat) (s : list nat)
  : list nat :=
  match n with
  | O => []
  | S n' =>
      if mem_nat p dims then 1 :: expand_shape dims (S p) n' s
      else match s with
           | d :: s' => d :: expand_shape dims (S p) n' s'
           | [] => []
           end
  end.

(** The index without the positions of [dims]. *)
Fixpoint squeeze_index (dims : list nat) (p : nat) (ix : list nat)
  : list nat :=
  match ix with
  | [] => []
  | i :: ix' =>
      if mem_nat p dims then squeeze_index dims (S p) ix'
      else i :: squeeze_index dims (S p) ix'
  end.

Fixpoint distinct (l : list nat) : bool :=
  match l with
  | [] => true
  | x :: l' => negb (mem_nat x l') && distinct l'
  end.

(** [jnp.expand_dims(a, axis)] for a tuple of axes. *)
Definition expand_dims {A : Type} (a : ndarray A) (axes : list Z)
  : result (ndarray A) :=
  let n := ndim a + length axes in
  dims <- canonicalize_axes axes n ;;
  if negb (distinct dims) then Raise ValueError
  else Ok (NDArray (expand_shape dims 0 n (shape a))
                   (fun ix => data a (squeeze_index dims 0 ix))).

(** ** Reshaping (row-major order) *)

Fixpoint ravel (s ix : list nat) (acc : nat) : nat :=
  match s, ix with
  | d :: s', i :: ix' => ravel s' ix' (acc * d + i)
  | _, _ => acc
  end.

(** The digits of [flat], last axis first, for the reversed shape. *)
Fixpoint unravel_rev (rs : list nat) (flat : nat) : list nat :=
  match rs with
  | [] => []
  | d :: rs' => (flat mod d) :: unravel_rev rs' (flat / d)
  end.

Definition unravel (s : list nat) (flat : nat) : list nat :=
  rev (unravel_rev (rev s) flat).

(** [a.reshape(news)] with every extent given. *)
Definition reshape {A : Type} (a : ndarray A) (news : list nat)
  : result (ndarray A) :=
  if size_of (shape a) =? size_of news
  then Ok (NDArray news
             (fun ix => data a (unravel (shape a) (ravel news ix 0))))
  else Raise TypeError.

Definition known_size (dims : list (option nat)) : nat :=
  fold_right (fun d acc => match d with Some n => n * acc | None => acc end)
             1 dims.

Definition count_unknown (dims : list (option nat)) : nat :=
  List.length (filter (fun d => match d with None => true | _ => false end)
                 dims).

(** The extents of a reshape whose argument may hold one [-1] ([None]). *)
Definition infer_shape (size : nat) (dims : list (option nat))
  : result (list nat) :=
  match count_unknown dims with
  | 0 => Ok (map (fun d => match d with Some n => n | None => 0 end) dims)
  | 1 =>
      let k := known_size dims in
      if (k =? 0) || negb (size mod k =? 0) then Raise TypeError
      else Ok (map (fun d => match d with Some n => n | None => size / k end)
                 dims)
  | _ => Raise ValueError
  end.

Definition reshape_infer {A : Type} (a : ndarray A)
  (dims : list (option nat)) : result (ndarray A) :=
  news <- infer_shape (size_of (shape a)) dims ;;
  reshape a news.

(** ** Slicing *)

(** [a[:, :, :q, :k]] *)
Definition slice_prefix4 {A : Type} (a : ndarray A) (q k : nat)
  : result (ndarray A) :=
  match shape a with
  | d0 :: d1 :: d2 :: d3 :: rest =>
      Ok (NDArray (d0 :: d1 :: Nat.min q d2 :: Nat.min k d3 :: rest) (data a))
  | _ => Raise IndexError
  end.

(** The start of a dynamic slice along one axis: a negative index counts
    from the end, then the start is clamped so that the slice fits. *)
Definition clamp_start (start : Z) (dim size : nat) : nat :=
  let i := (if start <? 0 then start + Z.of_nat dim else start)%Z in
  Z.to_nat (Z.max 0 (Z.min i (Z.of_nat dim - Z.of_nat size))).

Fixpoint clamp_starts (starts : list Z) (dims sizes : list nat) : list nat :=
  match starts, dims, sizes with
  | st :: starts', d :: dims', sz :: sizes' =>
      clamp_start st d sz :: clamp_starts starts' dims' sizes'
  | _, _, _ => []
  end.

Fixpoint all_le (sizes dims : list nat) : bool :=
  match sizes, dims with
  | [], [] => true
  | sz :: sizes', d :: dims' => (sz <=? d) && all_le sizes' dims'
  | _, _ => false
  end.

Definition add_index (starts ix : list nat) : list nat :=
  map (fun p => fst p + snd p) (combine starts ix).

Definition sub_index (ix starts : list nat) : list nat :=
  map (fun p => fst p - snd p) (combine ix starts).

(** [jax.lax.dynamic_slice(operand, starts, sizes)] *)
Definition dynamic_slice {A : Type} (operand : ndarray A)
  (starts : list Z) (sizes : list nat) : result (ndarray A) :=
  if negb (List.length starts =? ndim operand) then Raise ValueError
  else if negb (all_le sizes (shape operand)) then Raise TypeError
  else
    let st := clamp_starts starts (shape operand) sizes in
    Ok (NDArray sizes (fun ix => data operand (add_index st ix))).

(** [ix] lies in the window of extent [sizes] that starts at [starts]. *)
Fixpoint in_window (starts sizes ix : list nat) : bool :=
  match starts, sizes, ix with
  | [], [], [] => true
  | st :: starts', sz :: sizes', i :: ix' =>
      (st <=? i) && (i <? st + sz) && in_window starts' sizes' ix'
  | _, _, _ => false
  end.

(** [jax.lax.dynamic_update_slice(operand, update, starts)] *)
Definition dynamic_update_slice {A : Type} (operand update : ndarray A)
  (starts : list Z) : result (ndarray A) :=
  if negb (List.length starts =? ndim operand) then Raise ValueError
  else if negb (all_le (shape update) (shape operand)) then Raise TypeError
  else
    let st := clamp_starts starts (shape operand) (shape update) in
    Ok (NDArray (shape operand)
          (fun ix =>
             if in_window st (shape update) ix
             then data update (sub_index ix st)
             else data operand ix)).

(** [jnp.take(a, indices, axis=0)] in its default mode: a negative index
    counts from the end, an index out of bounds reads the fill value
    (NaN for an inexact dtype). *)
Definition take0 {A : Type} (fill : A) (a : ndarray A) (indices : ndarray Z)
  : result (ndarray A) :=
  match shape a with
  | [] => Raise ValueError
  | n :: rest =>
      Ok (NDArray (shape indices ++ rest)
            (fun ix =>
               let k := ndim indices in
               let p := data indices (firstn k ix) in
               let p' := (if p <? 0 then p + Z.of_nat n else p)%Z in
               if ((0 <=? p') && (p' <? Z.of_nat n))%Z
               then data a (Z.to_nat p' :: skipn k ix)
               else fill))
  end.

(** [jnp.repeat(a, n, axis)] *)
Fixpoint update_at {A : Type} (k : nat) (f : A -> A) (l : list A) : list A :=
  match l, k with
  | [], _ => []
  | x :: l', O => f x :: l'
  | x :: l', S k' => x :: update_at k' f l'
  end.

Definition jnp_repeat {A : Type} (a : ndarray A) (n axis : nat)
  : ndarray A :=
  NDArray (update_at axis (fun d => d * n) (shape a))
          (fun ix => data a (update_at axis (fun i => i / n) ix)).

(** [flax.linen.make_causal_mask(jnp.ones((1, n)))]: shape [1,1,n,n],
    entry [i, j] set when [i >= j]. *)
Definition make_causal_mask (n : nat) : ndarray bool :=
  NDArray [1; 1; n; n]
          (fun ix => match ix with
                     | [_; _; i; j] => j <=? i
                     | _ => false
                     end).

(** [flax.linen.combine_masks(a, b)]: the masks must have the same rank;
    the result is their broadcast conjunction. *)
Definition combine_masks (a b : ndarray bool) : result (ndarray bool) :=
  if ndim a =? ndim b then binop andb a b else Raise AssertionError.

(* ================================================================== *)
(** * MistralConfig *)

Record MistralConfig : Type := {
  vocab_size : nat;
  hidden_size : nat;
  intermediate_size : nat;
  num_hidden_layers : nat;
  num_attention_heads : nat;
  num_key_value_heads : nat;
  max_position_embeddings : nat;
  rms_norm_eps : R;
  tie_word_embeddings : bool;
  rope_theta : R;
  sliding_window : nat;
  gradient_checkpointing : string;
  use_pjit_attention_force : bool;
  attn_pdrop : R;
  c_max_position_embeddings : nat
}.

(** [a // b] on Python integers. *)
Definition floordiv (a b : nat) : result nat :=
  if b =? 0 then Raise ZeroDivisionError else Ok (a / b).

(* ================================================================== *)
(** * repeat_kv *)

Definition repeat_kv {A : Type} (x : ndarray A) (n_rep : nat)
  : result (ndarray A) :=
  match shape x with
  | [bs; s; n_kv_heads; head_dim] =>
      if n_rep =? 1 then Ok x
      else
        x1 <- expand_dims x [2%Z] ;;
        let x2 := jnp_repeat x1 n_rep 2 in
        reshape x2 [bs; s; n_kv_heads * n_rep; head_dim]
  | _ => Raise ValueError
  end.

(* ================================================================== *)
(** * precompute_freq_cis *)

(** Entry [j] of [1.0 / (base ** (jnp.arange(0, dim, 2) / dim))]. *)
Definition inv_freq (base : R) (dim j : nat) : fval :=
  fdiv fone (fpow (Fin base) (fdiv (of_nat (2 * j)) (of_nat dim))).

(** [cos + 1j * sin] of [jnp.outer(t, freq)]: row [p] holds the angles
    [t p * freq j]. *)
Definition freq_table (end_ n : nat) (t : nat -> fval) (freq : nat -> fval)
  : ndarray complex :=
  NDArray [end_; n]
          (fun ix => match ix with
                     | [p; j] =>
                         let angle := fmul (t p) (freq j) in
                         {| re := fcos angle; im := fsin angle |}
                     | _ => cnan
                     end).

Definition default_theta : R := 10000.
Definition default_scaling_factor : R := 8.

Definition precompute_freq_cis (method : option string) (dim end_ : nat)
  (theta scaling_factor : R) : result (ndarray complex) :=
  match method with
  | None =>
      Ok (freq_table end_ (dim / 2) of_nat (inv_freq theta dim))
  | Some m =>
      if String.eqb m "linear" then
        Ok (freq_table end_ (dim / 2)
              (fun p => fdiv (of_nat p) (Fin scaling_factor))
              (inv_freq theta dim))
      else if String.eqb m "dynamic" then
        if (end_ =? 0) || (dim =? 2) then Raise ZeroDivisionError
        else
          let base :=
            (theta *
             Rpower (scaling_factor * INR end_ / INR end_
                     - (scaling_factor - 1))
                    (INR dim / (INR dim - 2)))%R in
          Ok (freq_table end_ ((dim + 1) / 2) of_nat (inv_freq base dim))
      else Raise ValueError
  end.

(* ================================================================== *)
(** * apply_rotary_emb *)

(** [jax.lax.complex(x[..., 0], x[..., 1])] *)
Definition to_complex (x : ndarray fval) : ndarray complex :=
  NDArray (removelast (shape x))
          (fun ix => {| re := data x (ix ++ [0]); im := data x (ix ++ [1]) |}).

(** [jnp.stack((jnp.real(z), jnp.imag(z)), axis=-1)] *)
Definition stack_re_im (z : ndarray complex) : ndarray fval :=
  NDArray (shape z ++ [2])
          (fun ix => match last ix 0 with
                     | 0 => re (data z (removelast ix))
                     | _ => im (data z (removelast ix))
                     end).

(** One operand of [apply_rotary_emb]: pair the channels, multiply by the
    frequencies, unpair. *)
Definition rotate (x : ndarray fval) (freq_cis : ndarray complex)
  : result (ndarray fval) :=
  reshape_x <- reshape_infer x
                 (map Some (removelast (shape x)) ++ [None; Some 2]) ;;
  let x_ := to_complex reshape_x in
  x_out <- binop cmul x_ freq_cis ;;
  reshape_infer (stack_re_im x_out)
    (map Some (removelast (shape x_out)) ++ [None]).

Definition apply_rotary_emb (xq xk : ndarray fval)
  (freq_cis : ndarray complex) : result (ndarray fval * ndarray fval) :=
  (* add head dim *)
  freq_cis' <- reshape freq_cis
                 (firstn 2 (shape freq_cis) ++ [1] ++ skipn 2 (shape freq_cis)) ;;
  xq_out <- rotate xq freq_cis' ;;
  xk_out <- rotate xk freq_cis' ;;
  Ok (xq_out, xk_out).

(** Lines 342-343 of [FlaxMistralAttention.__call__]: the rows of the
    table are gathered by [position_ids], then both operands are
    rotated. *)
Definition rotary_embedding (freq_cis : ndarray complex)
  (position_ids : ndarray Z) (q k : ndarray fval)
  : result (ndarray fval * ndarray fval) :=
  rows <- take0 cnan freq_cis position_ids ;;
  apply_rotary_emb q k rows.

(** The squared L2 norm and the L2 norm of the vector along the last
    axis at the position [pre]. *)
Definition sqnorm_last (x : ndarray fval) (pre : list nat) : fval :=
  fsum (map (fun e => fmul (data x (pre ++ [e])) (data x (pre ++ [e])))
          (seq 0 (last (shape x) 0))).

Definition l2norm_last (x : ndarray fval) (pre : list nat) : fval :=
  fsqrt (sqnorm_last x pre).

(* ================================================================== *)
(** * Dense layers, MistralRMSNorm, FlaxMistralMLP *)

(** [nn.Dense(features, use_bias=False)] applied with the given kernel:
    a contraction over the last axis. *)
Definition dense (features : nat) (kernel x : ndarray fval)
  : result (ndarray fval) :=
  match shape kernel, rev (shape x) with
  | [n_in; n_out], d :: _ =>
      if (d =? n_in) && (n_out =? features) then
        Ok (NDArray (removelast (shape x) ++ [n_out])
              (fun ix =>
                 fsum (map (fun i =>
                              fmul (data x (removelast ix ++ [i]))
                                   (data kernel [i; last ix 0]))
                         (seq 0 n_in))))
      else Raise ValueError
  | _, _ => Raise ValueError
  end.

Definition MistralRMSNorm (eps : R) (weight x : ndarray fval)
  : result (ndarray fval) :=
  match rev (shape x) with
  | [] => Raise ValueError
  | n :: _ =>
      let mean_sq ix :=
        fdiv (fsum (map (fun j =>
                           let xj := data x (removelast ix ++ [j]) in
                           fmul xj xj)
                      (seq 0 n)))
             (of_nat n) in
      let output :=
        NDArray (shape x)
          (fun ix =>
             fmul (data x ix)
                  (fdiv fone (fsqrt (fadd (mean_sq ix) (Fin eps))))) in
      binop fmul output weight
  end.

Record mlp_params : Type := {
  gate_proj : ndarray fval;
  up_proj : ndarray fval;
  down_proj : ndarray fval
}.

(** [act_fn] is [ACT2FN[config.hidden_act]], a pointwise function that
    this module imports. *)
Definition FlaxMistralMLP (config : MistralConfig) (act_fn : fval -> fval)
  (p : mlp_params) (x : ndarray fval) : result (ndarray fval) :=
  g <- dense (intermediate_size config) (gate_proj p) x ;;
  u <- dense (intermediate_size config) (up_proj p) x ;;
  h <- binop fmul (amap act_fn g) u ;;
  dense (hidden_size config) (down_proj p) h.

(* ================================================================== *)
(** * FlaxMistralAttention *)

(** The variables ["key"], ["value"] and ["index"] of the ["cache"]
    collection of one attention module. *)
Record kv_cache : Type := {
  cache_key : ndarray fval;
  cache_value : ndarray fval;
  cache_index : Z
}.

(** Addition on [jnp.int32]. *)
Definition int32_wrap (z : Z) : Z := ((z + 2 ^ 31) mod 2 ^ 32 - 2 ^ 31)%Z.

(** [jnp.arange(ml) < index] *)
Definition arange_lt (ml : nat) (index : Z) : ndarray bool :=
  NDArray [ml] (fun ix => match ix with
                          | [j] => (Z.of_nat j <? index)%Z
                          | _ => false
                          end).

(** [concatenate_to_cache_]: the cache before the call ([None] when the
    variable ["key"] does not exist yet) and the arguments; the result is
    the cache after the call and the returned tuple. *)
Definition concatenate_to_cache_ (cache : option kv_cache)
  (q k v : ndarray fval) (attention_mask : ndarray bool)
  : result (kv_cache *
            (ndarray fval * ndarray fval * ndarray fval * ndarray bool)) :=
  match cache with
  | None =>
      (* the three variables are created; is_cache_available is False *)
      Ok ({| cache_key := full (shape k) fzero;
             cache_value := full (shape k) fzero;
             cache_index := 0 |},
          (q, k, v, attention_mask))
  | Some c =>
      match rev (shape (cache_key c)) with
      | dph :: nh :: ml :: rev_bd =>
          let bd := rev rev_bd in
          let indices :=
            repeat 0%Z (List.length bd) ++ [cache_index c; 0%Z; 0%Z] in
          k' <- dynamic_update_slice (cache_key c) k indices ;;
          v' <- dynamic_update_slice (cache_value c) v indices ;;
          match shape q with
          | _ :: num_updated_cache_vector :: _ =>
              let index' :=
                int32_wrap (cache_index c
                            + Z.of_nat num_updated_cache_vector) in
              pad_mask <- broadcast_to (arange_lt ml index')
                            (bd ++ [1; num_updated_cache_vector; ml]) ;;
              attention_mask' <- combine_masks pad_mask attention_mask ;;
              Ok ({| cache_key := k'; cache_value := v';
                     cache_index := index' |},
                  (q, k', v', attention_mask'))
          | _ => Raise IndexError
          end
      | _ => Raise ValueError
      end
  end.

(** Lines 351-358: the window of the causal mask.  [cache] is the cache
    as it is after [concatenate_to_cache_] ran. *)
Definition causal_window (cache : option kv_cache)
  (causal_mask : ndarray bool) (q_l k_l : nat) : result (ndarray bool) :=
  match cache with
  | Some c =>
      let mask_shift := cache_index c in
      match shape (cache_key c) with
      | _ :: dl :: _ =>
          dynamic_slice causal_mask [0%Z; 0%Z; mask_shift; 0%Z]
            [1; 1; q_l; dl]
      | _ => Raise IndexError
      end
  | None => slice_prefix4 causal_mask q_l k_l
  end.

(** Lines 360-362: both masks are broadcast and combined. *)
Definition merge_masks (batch_size : nat)
  (attention_mask causal_mask : ndarray bool) : result (ndarray bool) :=
  causal_mask' <- broadcast_to causal_mask
                    (batch_size :: tl (shape causal_mask)) ;;
  expanded <- expand_dims attention_mask [(-3)%Z; (-2)%Z] ;;
  attention_mask' <- broadcast_to expanded (shape causal_mask') ;;
  combine_masks attention_mask' causal_mask'.

(** Lines 363-367: 0 where attention is allowed, the least finite value
    of the working precision where it is not. *)
Definition attention_bias_of (dt : dtype) (mask : ndarray bool)
  : ndarray fval :=
  amap (fun b : bool => if b then Fin 0 else Fin (finfo_min dt)) mask.

(** [jax.nn.softmax] along the last axis. *)
Definition softmax (x : ndarray fval) : ndarray fval :=
  NDArray (shape x)
    (fun ix =>
       fdiv (fexp (data x ix))
            (fsum (map (fun j => fexp (data x (removelast ix ++ [j])))
                     (seq 0 (last (shape x) 0))))).

(** [flax.linen.dot_product_attention_weights] without dropout, for the
    rank-4 query that the attention call passes: the scores
    [einsum('...qhd,...khd->...hqk', query / sqrt(depth), key)], plus
    the bias, through the softmax. *)
Definition dot_product_attention_weights (query key bias : ndarray fval)
  : result (ndarray fval) :=
  match shape query, shape key with
  | [b; q_l; h; d], [b'; k_l; h'; d'] =>
      if (b =? b') && (h =? h') && (d =? d') then
        let scores :=
          NDArray [b; h; q_l; k_l]
            (fun ix =>
               match ix with
               | [bi; hi; i; j] =>
                   fsum (map (fun e =>
                                fmul (fdiv (data query [bi; i; hi; e])
                                           (fsqrt (of_nat d)))
                                     (data key [bi; j; hi; e]))
                           (seq 0 d))
               | _ => NaN
               end) in
        biased <- binop fadd scores bias ;;
        Ok (softmax biased)
      else Raise AssertionError
  | _, _ => Raise AssertionError
  end.

(** [jnp.einsum("...hqk,...khd->...qhd", attn_weight, v)] *)
Definition weighted_values (attn_weight v : ndarray fval)
  : result (ndarray fval) :=
  match shape attn_weight, shape v with
  | [b; h; q_l; k_l], [b'; k_l'; h'; d] =>
      if (b =? b') && (h =? h') && (k_l =? k_l') then
        Ok (NDArray [b; q_l; h; d]
              (fun ix =>
                 match ix with
                 | [bi; i; hi; e] =>
                     fsum (map (fun j =>
                                  fmul (data attn_weight [bi; hi; i; j])
                                       (data v [bi; j; hi; e]))
                             (seq 0 k_l))
                 | _ => NaN
                 end))
      else Raise ValueError
  | _, _ => Raise ValueError
  end.

Record attention_params : Type := {
  q_proj : ndarray fval;
  k_proj : ndarray fval;
  v_proj : ndarray fval;
  o_proj : ndarray fval
}.

(** [FlaxMistralAttention.__call__] with dropout inactive.
    [with_sharding_constraint] only annotates and is left out. *)
Definition FlaxMistralAttention (config : MistralConfig) (dt : dtype)
  (p : attention_params) (cache : option kv_cache)
  (hidden_state : ndarray fval) (freq_cis : ndarray complex)
  (attention_mask causal_mask : ndarray bool) (position_ids : ndarray Z)
  (init_cache output_attentions : bool)
  : result (option kv_cache * list (ndarray fval)) :=
  (* setup *)
  head_dim <- floordiv (hidden_size config) (num_attention_heads config) ;;
  num_key_value_groups <-
    floordiv (num_attention_heads config) (num_key_value_heads config) ;;
  match shape hidden_state with
  | batch_size :: max_sequence_length :: _ =>
      q <- dense (num_attention_heads config * head_dim) (q_proj p)
             hidden_state ;;
      k <- dense (num_key_value_heads config * head_dim) (k_proj p)
             hidden_state ;;
      v <- dense (num_key_value_heads config * head_dim) (v_proj p)
             hidden_state ;;
      let dims :=
        [Some batch_size; Some max_sequence_length; None; Some head_dim] in
      q <- reshape_infer q dims ;;
      k <- reshape_infer k dims ;;
      v <- reshape_infer v dims ;;
      qk <- rotary_embedding freq_cis position_ids q k ;;
      let q := fst qk in
      k <- repeat_kv (snd qk) num_key_value_groups ;;
      v <- repeat_kv v num_key_value_groups ;;
      st <- (match cache, init_cache with
             | None, false => Ok (None, (q, k, v, attention_mask))
             | _, _ =>
                 r <- concatenate_to_cache_ cache q k v attention_mask ;;
                 Ok (Some (fst r), snd r)
             end) ;;
      let '(cache', (q, k, v, attention_mask)) := st in
      match shape q, shape k with
      | _ :: q_l :: _, _ :: k_l :: _ =>
          causal_mask <- causal_window cache' causal_mask q_l k_l ;;
          mask <- merge_masks batch_size attention_mask causal_mask ;;
          let attention_bias := attention_bias_of dt mask in
          attn_weight <- dot_product_attention_weights q k attention_bias ;;
          attn_output <- weighted_values attn_weight v ;;
          attn_output <- reshape attn_output
                           (firstn 2 (shape attn_output)
                            ++ [hidden_size config]) ;;
          out <- dense (hidden_size config) (o_proj p) attn_output ;;
          Ok (cache',
              if output_attentions then [out; attn_output] else [out])
      | _, _ => Raise IndexError
      end
  | _ => Raise ValueError
  end.

(* ================================================================== *)
(** * Python values of the control code *)

Inductive pyval : Type :=
| PyNone
| PyBool (b : bool)
| PyInt (z : Z)
| PyArray (a : ndarray fval)
| PyTuple (items : list pyval).

Definition py_scalar (v : pyval) : option Z :=
  match v with
  | PyBool b => Some (if b then 1 else 0)%Z
  | PyInt z => Some z
  | _ => None
  end.

(** [x + y] (and [x += y] for these immutable values). *)
Definition py_add (x y : pyval) : result pyval :=
  match x, y with
  | PyTuple a, PyTuple b => Ok (PyTuple (a ++ b))
  | PyArray a, PyArray b => r <- binop fadd a b ;; Ok (PyArray r)
  | PyArray a, _ =>
      match py_scalar y with
      | Some z => Ok (PyArray (amap (fun e => fadd e (Fin (IZR z))) a))
      | None => Raise TypeError
      end
  | _, PyArray b =>
      match py_scalar x with
      | Some z => Ok (PyArray (amap (fun e => fadd (Fin (IZR z)) e) b))
      | None => Raise TypeError
      end
  | _, _ =>
      match py_scalar x, py_scalar y with
      | Some a, Some b => Ok (PyInt (a + b))
      | _, _ => Raise TypeError
      end
  end.

(** The truth value of [v] in an [if]. *)
Definition truthy (v : pyval) : result bool :=
  match v with
  | PyNone => Ok false
  | PyBool b => Ok b
  | PyInt z => Ok (negb (z =? 0)%Z)
  | PyTuple items => Ok (negb (List.length items =? 0))
  | PyArray a =>
      if size_of (shape a) =? 1 then
        match data a (repeat 0 (ndim a)) with
        | Fin x => Ok (if Req_dec_T x 0 then false else true)
        | NaN => Ok true
        end
      else Raise ValueError
  end.

(** [t[i]] on a tuple. *)
Definition getitem {A : Type} (t : list A) (i : nat) : result A :=
  match nth_error t i with
  | Some x => Ok x
  | None => Raise IndexError
  end.

(** A tuple of arrays, as a value of the typed part of the model. *)
Fixpoint arrays_of (items : list pyval) : result (list (ndarray fval)) :=
  match items with
  | [] => Ok []
  | PyArray a :: rest => r <- arrays_of rest ;; Ok (a :: r)
  | _ :: _ => Raise TypeError
  end.

Definition as_array_tuple (v : pyval) : result (list (ndarray fval)) :=
  match v with
  | PyTuple items => arrays_of items
  | _ => Raise TypeError
  end.

(* ================================================================== *)
(** * FlaxMistralDecoderLayer *)

Record layer_params : Type := {
  self_attn : attention_params;
  mlp : mlp_params;
  input_layernorm : ndarray fval;
  post_attention_layernorm : ndarray fval
}.

(** What the layer collection calls: the cache of the layer and the
    arguments of [__call__] ([deterministic] is left out: dropout is
    inactive); the result is the new cache and the output tuple. *)
Definition layer_fn : Type :=
  option kv_cache -> ndarray fval -> ndarray complex -> ndarray bool ->
  ndarray bool -> ndarray Z -> bool -> bool ->
  result (option kv_cache * list (ndarray fval)).

Definition FlaxMistralDecoderLayer (config : MistralConfig) (dt : dtype)
  (act_fn : fval -> fval) (p : layer_params) : layer_fn :=
  fun cache hidden_state freq_cis attention_mask causal_mask position_ids
      init_cache output_attentions =>
  let residual := hidden_state in
  normed <- MistralRMSNorm (rms_norm_eps config) (input_layernorm p)
              hidden_state ;;
  r <- FlaxMistralAttention config dt (self_attn p) cache normed freq_cis
         attention_mask causal_mask position_ids init_cache
         output_attentions ;;
  let '(cache', attention_output) := r in
  a0 <- getitem attention_output 0 ;;
  hidden_state <- binop fadd a0 residual ;;
  normed2 <- MistralRMSNorm (rms_norm_eps config)
               (post_attention_layernorm p) hidden_state ;;
  m <- FlaxMistralMLP config act_fn (mlp p) normed2 ;;
  hidden_state <- binop fadd m hidden_state ;;
  let outputs := PyTuple [PyArray hidden_state] in
  if output_attentions then
    a1 <- getitem attention_output 1 ;;
    (* outputs += attention_output[1] *)
    outputs <- py_add outputs (PyArray a1) ;;
    t <- as_array_tuple outputs ;;
    Ok (cache', t)
  else
    t <- as_array_tuple outputs ;;
    Ok (cache', t).

(* ================================================================== *)
(** * FlaxMistralDecoratorCollection *)

(** The local variables of the loop of [__call__]. *)
Record loop_state : Type := {
  ls_hidden_state : ndarray fval;
  ls_all_hidden_states : pyval;
  ls_output_attentions : pyval
}.

(** One iteration of [for layer in self.layers]. *)
Definition collection_step (layer : layer_fn) (cache : option kv_cache)
  (freq_cis : ndarray complex) (attention_mask causal_mask : ndarray bool)
  (position_ids : ndarray Z) (init_cache output_hidden_states : bool)
  (st : loop_state) : result (option kv_cache * loop_state) :=
  all_hidden_states <-
    (if output_hidden_states
     then py_add (ls_all_hidden_states st)
            (PyTuple [PyArray (ls_hidden_state st)])
     else Ok (ls_all_hidden_states st)) ;;
  oa <- truthy (ls_output_attentions st) ;;
  r <- layer cache (ls_hidden_state st) freq_cis attention_mask causal_mask
         position_ids init_cache oa ;;
  let '(cache', output) := r in
  hidden_state <- getitem output 0 ;;
  output_attentions <-
    (if oa then
       o1 <- getitem output 1 ;;
       (* output_attentions += (output[1],) *)
       py_add (ls_output_attentions st) (PyTuple [PyArray o1])
     else Ok (ls_output_attentions st)) ;;
  Ok (cache',
      {| ls_hidden_state := hidden_state;
         ls_all_hidden_states := all_hidden_states;
         ls_output_attentions := output_attentions |}).

Fixpoint collection_loop (layers : list layer_fn)
  (caches : list (option kv_cache))
  (freq_cis : ndarray complex) (attention_mask causal_mask : ndarray bool)
  (position_ids : ndarray Z) (init_cache output_hidden_states : bool)
  (st : loop_state) : result (list (option kv_cache) * loop_state) :=
  match layers with
  | [] => Ok ([], st)
  | layer :: rest =>
      r <- collection_step layer (hd None caches) freq_cis attention_mask
             causal_mask position_ids init_cache output_hidden_states st ;;
      r' <- collection_loop rest (tl caches) freq_cis attention_mask
              causal_mask position_ids init_cache output_hidden_states
              (snd r) ;;
      Ok (fst r :: fst r', snd r')
  end.

(** [FlaxMistralDecoratorCollection.__call__]; the result is the caches
    of the layers and the triple
    [(hidden_state, all_hidden_states, all_attentions)]. *)
Definition FlaxMistralDecoratorCollection (layers : list layer_fn)
  (caches : list (option kv_cache)) (hidden_state : ndarray fval)
  (freq_cis : ndarray complex) (attention_mask causal_mask : ndarray bool)
  (position_ids : ndarray Z)
  (init_cache output_attentions output_hidden_states : bool)
  : result (list (option kv_cache) * (ndarray fval * pyval * pyval)) :=
  let all_attentions := if output_attentions then PyTuple [] else PyNone in
  let all_hidden_states :=
    if output_hidden_states then PyTuple [] else PyNone in
  r <- collection_loop layers caches freq_cis attention_mask causal_mask
         position_ids init_cache output_hidden_states
         {| ls_hidden_state := hidden_state;
            ls_all_hidden_states := all_hidden_states;
            ls_output_attentions := PyBool output_attentions |} ;;
  Ok (fst r,
      (ls_hidden_state (snd r), ls_all_hidden_states (snd r),
       all_attentions)).

(* ================================================================== *)
(** * FlaxMistralModule *)

Record module_params : Type := {
  embed_tokens : ndarray fval;
  norm : ndarray fval
}.

(** The two tables that [setup] builds. *)
Record module_tables : Type := {
  freq_cis : ndarray complex;
  causal_mask : ndarray bool
}.

Definition FlaxMistralModule_setup (config : MistralConfig)
  : result module_tables :=
  dim <- floordiv (hidden_size config) (num_attention_heads config) ;;
  table <- precompute_freq_cis None dim
             (max_position_embeddings config * 2) default_theta 1 ;;
  Ok {| freq_cis := table;
        causal_mask := make_causal_mask (c_max_position_embeddings config) |}.

(** What the module returns: the filtered tuple when [return_dict] is
    off, a [FlaxBaseModelOutput] otherwise. *)
Inductive model_output : Type :=
| OutputTuple (items : list pyval)
| BaseModelOutput (last_hidden_state : ndarray fval)
    (hidden_states attentions : pyval).

Definition is_not_none (v : pyval) : bool :=
  match v with
  | PyNone => false
  | _ => true
  end.

(** [nn.Embed]: the rows of the embedding selected by the token ids. *)
Definition embed (embedding : ndarray fval) (input_ids : ndarray Z)
  : result (ndarray fval) :=
  take0 NaN embedding input_ids.

(** [FlaxMistralModule.__call__].  [layers] are the decoder layers that
    [setup] created, [tables] its two tables. *)
Definition FlaxMistralModule (config : MistralConfig) (p : module_params)
  (layers : list layer_fn) (tables : module_tables)
  (caches : list (option kv_cache))
  (input_ids : ndarray Z) (attention_mask : ndarray bool)
  (position_ids : ndarray Z) (input_embeds : option (ndarray fval))
  (init_cache output_attentions output_hidden_states return_dict : bool)
  : result (list (option kv_cache) * model_output) :=
  input_embeds <-
    (match input_embeds with
     | None => embed (embed_tokens p) input_ids
     | Some e => Ok e
     end) ;;
  attention_mask <-
    (match shape attention_mask with
     | [b; s] => reshape attention_mask [b; 1; 1; s]
     | _ => Ok attention_mask
     end) ;;
  (* output_hidden_states is not passed on: the collection runs with its
     default, False *)
  r <- FlaxMistralDecoratorCollection layers caches input_embeds
         (freq_cis tables) attention_mask (causal_mask tables) position_ids
         init_cache output_attentions false ;;
  let '(caches', (out0, out1, out2)) := r in
  hidden_states <- MistralRMSNorm (rms_norm_eps config) (norm p) out0 ;;
  outputs <-
    (if output_hidden_states then
       all_hidden_states <- py_add out1 (PyTuple [PyArray hidden_states]) ;;
       Ok [PyArray hidden_states; all_hidden_states; out2]
     else Ok [PyArray hidden_states; out1; out2]) ;;
  if negb return_dict then
    Ok (caches', OutputTuple (filter is_not_none outputs))
  else
    o1 <- getitem outputs 1 ;;
    Ok (caches', BaseModelOutput hidden_states o1 (last outputs PyNone)).

(* ================================================================== *)
(** * FlaxMistralForCausalLMModule *)

(** A tree of variables: [module.variables]. *)
Inductive pytree : Type :=
| Leaf (a : ndarray fval)
| Node (children : list (string * pytree)).

Fixpoint assoc {A : Type} (key : string) (l : list (string * A)) : option A :=
  match l with
  | [] => None
  | (k, v) :: rest => if String.eqb key k then Some v else assoc key rest
  end.

(** [tree[key]] *)
Definition tree_getitem (t : pytree) (key : string) : result pytree :=
  match t with
  | Node children =>
      match assoc key children with
      | Some v => Ok v
      | None => Raise KeyError
      end
  | Leaf _ => Raise IndexError
  end.

(** [tree.T] *)
Definition tree_transpose (t : pytree) : result (ndarray fval) :=
  match t with
  | Leaf a =>
      Ok (NDArray (rev (shape a)) (fun ix => data a (rev ix)))
  | Node _ => Raise AttributeError
  end.

Record lm_params : Type := {
  model : module_params;
  lm_head : ndarray fval
}.

(** The attributes of a [FlaxMistralForCausalLMModule] that are modules
    ([setup] assigns [self.model] and [self.lm_head]; the dataclass
    fields [config], [dtype], [param_dtype] and [precision] are no
    modules), each with its variables; the parameters of the decoder
    layers are left out of the tree. *)
Definition submodules (p : lm_params) : list (string * pytree) :=
  [ ("model"%string,
     Node [("params"%string,
            Node [("embed_tokens"%string,
                   Node [("embedding"%string, Leaf (embed_tokens (model p)))]);
                  ("norm"%string, Node [("kernel"%string, Leaf (norm (model p)))])])]);
    ("lm_head"%string,
     Node [("params"%string, Node [("kernel"%string, Leaf (lm_head p))])]) ].

(** [self.<name>.variables] *)
Definition getattr_variables (p : lm_params) (name : string)
  : result pytree :=
  match assoc name (submodules p) with
  | Some vars => Ok vars
  | None => Raise AttributeError
  end.

Inductive lm_output : Type :=
| LMTuple (items : list pyval)
| CausalLMOutput (logits : ndarray fval) (hidden_states attentions : pyval).

(** [outputs[0]] and [outputs[1:]] of the inner model's result. *)
Definition output_items (o : model_output) : list pyval :=
  match o with
  | OutputTuple items => items
  | BaseModelOutput h hs atts =>
      filter is_not_none [PyArray h; hs; atts]
  end.

Definition as_array (v : pyval) : result (ndarray fval) :=
  match v with
  | PyArray a => Ok a
  | _ => Raise TypeError
  end.

(** [FlaxMistralForCausalLMModule.__call__] with [attention_mask] and
    [position_ids] given. *)
Definition FlaxMistralForCausalLMModule (config : MistralConfig)
  (p : lm_params) (layers : list layer_fn) (tables : module_tables)
  (caches : list (option kv_cache))
  (input_ids : ndarray Z) (attention_mask : ndarray bool)
  (position_ids : ndarray Z) (input_embeds : option (ndarray fval))
  (init_cache output_attentions output_hidden_states return_dict : bool)
  : result (list (option kv_cache) * lm_output) :=
  match shape input_ids with
  | [batch_size; seq_length] =>
      r <- FlaxMistralModule config (model p) layers tables caches
             input_ids attention_mask position_ids input_embeds init_cache
             output_attentions output_hidden_states return_dict ;;
      let '(caches', outputs) := r in
      first <- getitem (output_items outputs) 0 ;;
      hidden_states <- as_array first ;;
      lm_logits <-
        (if tie_word_embeddings config then
           vars <- getattr_variables p "transformer" ;;
           params <- tree_getitem vars "params" ;;
           wte <- tree_getitem params "wte" ;;
           embedding <- tree_getitem wte "embedding" ;;
           shared_kernel <- tree_transpose embedding ;;
           dense (vocab_size config) shared_kernel hidden_states
         else dense (vocab_size config) (lm_head p) hidden_states) ;;
      if negb return_dict then
        Ok (caches', LMTuple (PyArray lm_logits :: tl (output_items outputs)))
      else
        match outputs with
        | BaseModelOutput _ hs atts =>
            Ok (caches', CausalLMOutput lm_logits hs atts)
        | OutputTuple _ => Raise AttributeError
        end
  | _ => Raise ValueError
  end.

(* ================================================================== *)
(** * FlaxMistralForCausalLMModule: arguments left out *)

(** [jnp.arange(n)] *)
Definition arange (n : nat) : ndarray Z :=
  NDArray [n] (fun ix => match ix with
                         | [j] => Z.of_nat j
                         | _ => 0%Z
                         end).

(** [a.cumsum(axis=-1)] on [jnp.int32]. *)
Definition cumsum_last (a : ndarray Z) : result (ndarray Z) :=
  match shape a with
  | [] => Raise ValueError
  | _ :: _ =>
      Ok (NDArray (shape a)
            (fun ix =>
               int32_wrap
                 (fold_right Z.add 0%Z
                    (map (fun t => data a (removelast ix ++ [t]))
                       (seq 0 (S (last ix 0)))))))
  end.

(** An integer mask as the masks of the attention call read it: an
    entry other than 0 admits the position. *)
Definition mask_of_int (a : ndarray Z) : ndarray bool :=
  amap (fun z => negb (z =? 0)%Z) a.

(** [FlaxMistralForCausalLMModule.__call__] with [attention_mask] and
    [position_ids] that may be [None] (lines 778-785); both are
    [jnp.int32] arrays when given. *)
Definition FlaxMistralForCausalLMModule_call (config : MistralConfig)
  (p : lm_params) (layers : list layer_fn) (tables : module_tables)
  (caches : list (option kv_cache))
  (input_ids : ndarray Z) (attention_mask position_ids : option (ndarray Z))
  (input_embeds : option (ndarray fval))
  (init_cache output_attentions output_hidden_states return_dict : bool)
  : result (list (option kv_cache) * lm_output) :=
  match shape input_ids with
  | [batch_size; seq_length] =>
      let attention_mask :=
        match attention_mask with
        | Some am => am
        | None => full (shape input_ids) 1%Z
        end in
      position_ids <-
        (match position_ids with
         | Some pos => Ok pos
         | None =>
             c <- cumsum_last attention_mask ;;
             broadcast_to
               (amap (fun z => Z.max 0 (int32_wrap (z - 1))) c)
               [batch_size; seq_length]
         end) ;;
      FlaxMistralForCausalLMModule config p layers tables caches input_ids
        (mask_of_int attention_mask) position_ids input_embeds init_cache
        output_attentions output_hidden_states return_dict
  | _ => Raise ValueError
  end.

(* ================================================================== *)
(** * FlaxMistralPretrainedModel.init_cache *)

(** [init_cache(batch_size, max_length)]: [module.init] runs
    [__call__] of the module once, on inputs of ones, with
    [init_cache=True], no cache variable and freshly drawn parameters
    [p]; the result is the ["cache"] collection that the call created
    (a model without attention modules creates none). *)
Definition init_cache (config : MistralConfig) (p : lm_params)
  (layers : list layer_fn) (tables : module_tables)
  (batch_size max_length : nat) : result (list (option kv_cache)) :=
  let input_ids := full [batch_size; max_length] 1%Z in
  let attention_mask := full [batch_size; max_length] true in
  position_ids <- broadcast_to (arange max_length)
                    [batch_size; max_length] ;;
  r <- FlaxMistralForCausalLMModule config p layers tables
         (repeat None (List.length layers)) input_ids attention_mask
         position_ids None true false false false ;;
  match fst r with
  | [] => Raise KeyError
  | caches => Ok caches
  end.

(* ================================================================== *)
(** * FlaxMistralForCausalLM: generation *)

(** The dictionary that [prepare_inputs_for_generation] returns and
    [update_inputs_for_generation] updates. *)
Record generation_inputs (C : Type) : Type := {
  gi_past_key_values : C;
  gi_attention_mask : ndarray Z;
  gi_position_ids : ndarray Z
}.

(** [prepare_inputs_for_generation]; [self_init_cache] is
    [self.init_cache], [attention_mask] a [jnp.int32] array when
    given. *)
Definition prepare_inputs_for_generation {C : Type}
  (self_init_cache : nat -> nat -> result C)
  (input_ids : ndarray Z) (max_length : nat)
  (attention_mask : option (ndarray Z)) : result (generation_inputs C) :=
  match shape input_ids with
  | [batch_size; seq_length] =>
      past_key_values <- self_init_cache batch_size max_length ;;
      let extended_attention_mask := full [batch_size; max_length] 1%Z in
      match attention_mask with
      | Some am =>
          c <- cumsum_last am ;;
          let position_ids := amap (fun z => int32_wrap (z - 1)) c in
          extended_attention_mask <-
            dynamic_update_slice extended_attention_mask am [0%Z; 0%Z] ;;
          Ok {| gi_past_key_values := past_key_values;
                gi_attention_mask := extended_attention_mask;
                gi_position_ids := position_ids |}
      | None =>
          position_ids <-
            broadcast_to
              (NDArray [1; seq_length]
                 (fun ix => match ix with
                            | [_; j] => Z.of_nat j
                            | _ => 0%Z
                            end))
              [batch_size; seq_length] ;;
          Ok {| gi_past_key_values := past_key_values;
                gi_attention_mask := extended_attention_mask;
                gi_position_ids := position_ids |}
      end
  | _ => Raise ValueError
  end.

(** [a[:, -1:]] *)
Definition last_column {A : Type} (a : ndarray A) : result (ndarray A) :=
  match shape a with
  | d0 :: d1 :: rest =>
      Ok (NDArray (d0 :: Nat.min 1 d1 :: rest)
            (fun ix => match ix with
                       | i0 :: i1 :: r => data a (i0 :: (d1 - 1 + i1) :: r)
                       | _ => data a ix
                       end))
  | _ => Raise IndexError
  end.

(** [update_inputs_for_generation]; [model_outputs_past_key_values] is
    [model_outputs.past_key_values]. *)
Definition update_inputs_for_generation {C : Type}
  (model_outputs_past_key_values : C) (model_kwargs : generation_inputs C)
  : result (generation_inputs C) :=
  col <- last_column (gi_position_ids model_kwargs) ;;
  Ok {| gi_past_key_values := model_outputs_past_key_values;
        gi_attention_mask := gi_attention_mask model_kwargs;
        gi_position_ids := amap (fun z => int32_wrap (z + 1)) col |}.

(* ================================================================== *)
(** * Notions used in the statements and proofs *)

(** [x[:, :, h:h+1, :]]: one head of a [batch, seq, heads, dim] tensor. *)
Definition select_head {A : Type} (x : ndarray A) (h : nat) : ndarray A :=
  NDArray (match shape x with
           | [b; s; _; d] => [b; s; 1; d]
           | sh => sh
           end)
          (fun ix => match ix with
                     | [bi; si; _; e] => data x [bi; si; h; e]
                     | _ => data x ix
                     end).

(** The scaled score of the query [i] against the key [j] in head [h]. *)
Definition attention_score (q k : ndarray fval) (D b h i j : nat) : fval :=
  fsum (map (fun e => fmul (fdiv (data q [b; i; h; e]) (fsqrt (of_nat D)))
                           (data k [b; j; h; e]))
          (seq 0 D)).

(** The sum of [f 0 .. f (n-1)]. *)
Fixpoint rsum (f : nat -> R) (n : nat) : R :=
  match n with
  | O => 0%R
  | S n' => (rsum f n' + f n')%R
  end.

(** The position ids index the rows of a table of [n] rows. *)
Definition positions_in_table (n : nat) (position_ids : ndarray Z) : Prop :=
  forall ix, in_bounds (shape position_ids) ix = true ->
    (- Z.of_nat n <= data position_ids ix < Z.of_nat n)%Z.

(** The real number that a finite value holds. *)
Definition fval_real (v : fval) : R :=
  match v with
  | Fin x => x
  | NaN => 0%R
  end.

(** Two layers behave alike whenever they are called with the frequency
    table [fc]. *)
Definition same_at_table (fc : ndarray complex) (l1 l2 : layer_fn) : Prop :=
  forall cache h am cm pos init_cache oa,
    l1 cache h fc am cm pos init_cache oa
    = l2 cache h fc am cm pos init_cache oa.

(** The arguments [(q, k, v, attention_mask)] of one append. *)
Definition append_args : Type :=
  (ndarray fval * ndarray fval * ndarray fval * ndarray bool)%type.

(** The appends of a session, in order, on the cache [c]. *)
Fixpoint run_appends (c : kv_cache) (steps : list append_args)
  : result kv_cache :=
  match steps with
  | [] => Ok c
  | (q, k, v, am) :: rest =>
      r <- concatenate_to_cache_ (Some c) q k v am ;;
      run_appends (fst r) rest
  end.

(** [q.shape[1]] of an append, and the sum over a session. *)
Definition new_token_count (a : append_args) : Z :=
  let '(q, _, _, _) := a in Z.of_nat (nth 1 (shape q) 0).

Definition total_new_tokens (steps : list append_args) : Z :=
  fold_right (fun a z => (new_token_count a + z)%Z) 0%Z steps.

(** What a call left in the cache: the shapes of the two buffers and
    the cursor ([None] when the call raised or left no cache). *)
Definition cache_state_of {A : Type} (r : result (option kv_cache * A))
  : option (list nat * list nat * Z) :=
  match r with
  | Ok (Some c, _) =>
      Some (shape (cache_key c), shape (cache_value c), cache_index c)
  | _ => None
  end.

Definition is_ok {A : Type} (r : result A) : bool :=
  match r with
  | Ok _ => true
  | Raise _ => false
  end.

(** The two masks of an attention call that finds the cache [c], as
    they are when line 360 is reached: the attention mask that
    [concatenate_to_cache_] returned (line 347) and the window of the
    causal mask (lines 351-356). *)
Definition cached_masks (c : kv_cache) (q k v : ndarray fval)
  (attention_mask causal_mask : ndarray bool)
  : result (ndarray bool * ndarray bool) :=
  r <- concatenate_to_cache_ (Some c) q k v attention_mask ;;
  let '(c', (q', k', _, attention_mask')) := r in
  match shape q', shape k' with
  | _ :: q_l :: _, _ :: k_l :: _ =>
      cw <- causal_window (Some c') causal_mask q_l k_l ;;
      Ok (attention_mask', cw)
  | _, _ => Raise IndexError
  end.

(** The entries of both masks at one index. *)
Definition mask_entries (r : result (ndarray bool * ndarray bool))
  (ix : list nat) : option (bool * bool) :=
  match r with
  | Ok (m1, m2) => Some (data m1 ix, data m2 ix)
  | Raise _ => None
  end.

(** Every entry of [x] at a valid index is a real number. *)
Definition all_finite (x : ndarray fval) : Prop :=
  forall ix, in_bounds (shape x) ix = true -> exists r, data x ix = Fin r.

(** The position ids are row numbers of a table of [n] rows, none
    counted from the end. *)
Definition positions_from_start (n : nat) (position_ids : ndarray Z) : Prop :=
  forall ix, in_bounds (shape position_ids) ix = true ->
    (0 <= data position_ids ix < Z.of_nat n)%Z.

(** The angle by which the channel pair [p] of a vector of [dim]
    channels is rotated at the position [position]. *)
Definition rope_angle (theta : R) (dim : nat) (position : Z) (p : nat) : R :=
  (INR (Z.to_nat position) * (1 / Rpower theta (INR (2 * p) / INR dim)))%R.

(** The mean of the squares of the vector along the last axis at the
    position [pre]. *)
Definition mean_square_last (x : ndarray fval) (pre : list nat) : fval :=
  fdiv (sqnorm_last x pre) (of_nat (last (shape x) 0)).

(** The steps of a generation loop: [update_inputs_for_generation]
    after each call of the model, with the caches the calls
    returned. *)
Fixpoint run_updates {C : Type} (outputs : list C)
  (model_kwargs : generation_inputs C) : result (generation_inputs C) :=
  match outputs with
  | [] => Ok model_kwargs
  | o :: rest =>
      kw <- update_inputs_for_generation o model_kwargs ;;
      run_updates rest kw
  end.

(** The configuration splits the hidden size into whole heads of an
    even dimension [2 * P], and the attention heads into whole groups
    per key/value head. *)
Definition heads_divide (config : MistralConfig) (P : nat) : Prop :=
  0 < P /\
  0 < num_attention_heads config /\
  0 < num_key_value_heads config /\
  hidden_size config = num_attention_heads config * (2 * P) /\
  num_attention_heads config
  = num_key_value_heads config
    * (num_attention_heads config / num_key_value_heads config).

(** The kernels of a decoder layer have the shapes that [setup] gives
    them for [config]. *)
Definition attention_shaped (config : MistralConfig) (P : nat)
  (p : attention_params) : Prop :=
  shape (q_proj p)
  = [hidden_size config; num_attention_heads config * (2 * P)] /\
  shape (k_proj p)
  = [hidden_size config; num_key_value_heads config * (2 * P)] /\
  shape (v_proj p)
  = [hidden_size config; num_key_value_heads config * (2 * P)] /\
  shape (o_proj p) = [hidden_size config; hidden_size config].

Definition mlp_shaped (config : MistralConfig) (p : mlp_params) : Prop :=
  shape (gate_proj p) = [hidden_size config; intermediate_size config] /\
  shape (up_proj p) = [hidden_size config; intermediate_size config] /\
  shape (down_proj p) = [intermediate_size config; hidden_size config].

Definition layer_shaped (config : MistralConfig) (P : nat)
  (lp : layer_params) : Prop :=
  attention_shaped config P (self_attn lp) /\
  mlp_shaped config (mlp lp) /\
  shape (input_layernorm lp) = [hidden_size config] /\
  shape (post_attention_layernorm lp) = [hidden_size config].

(** The masks of a call without a cache can be merged for [S] tokens
    in a batch of [B]. *)
Definition masks_merge (B S : nat) (am cm : ndarray bool) : Prop :=
  exists cw m,
    causal_window None cm S S = Ok cw /\
    merge_masks B am cw = Ok m /\
    shape m = [B; 1; S; S].

(** The configuration [config] with another [rope_theta]. *)
Definition set_rope_theta (theta : R) (config : MistralConfig)
  : MistralConfig :=
  {| vocab_size := vocab_size config;
     hidden_size := hidden_size config;
     intermediate_size := intermediate_size config;
     num_hidden_layers := num_hidden_layers config;
     num_attention_heads := num_attention_heads config;
     num_key_value_heads := num_key_value_heads config;
     max_position_embeddings := max_position_embeddings config;
     rms_norm_eps := rms_norm_eps config;
     tie_word_embeddings := tie_word_embeddings config;
     rope_theta := theta;
     sliding_window := sliding_window config;
     gradient_checkpointing := gradient_checkpointing config;
     use_pjit_attention_force := use_pjit_attention_force config;
     attn_pdrop := attn_pdrop config;
     c_max_position_embeddings := c_max_position_embeddings config |}.

(** The hidden states that run through the layers: [inputs] are the
    hidden states that the layers are called with, in order, from
    [hidden_state] on (each layer is called on [output[0]] of the one
    before, without attention weights), and [final] is [output[0]] of
    the last layer. *)
Fixpoint layer_chain (layers : list layer_fn)
  (caches : list (option kv_cache)) (freq_cis : ndarray complex)
  (attention_mask causal_mask : ndarray bool) (position_ids : ndarray Z)
  (init_cache : bool) (hidden_state : ndarray fval)
  (inputs : list (ndarray fval)) (final : ndarray fval) : Prop :=
  match layers, inputs with
  | [], [] => final = hidden_state
  | layer :: rest, x :: inputs' =>
      x = hidden_state /\
      exists cache' output next,
        layer (hd None caches) hidden_state freq_cis attention_mask
          causal_mask position_ids init_cache false = Ok (cache', output) /\
        getitem output 0 = Ok next /\
        layer_chain rest (tl caches) freq_cis attention_mask causal_mask
          position_ids init_cache next inputs' final
  | _, _ => False
  end.

(* ================================================================== *)
(** * Concrete inputs *)

(** The configuration of the end-to-end example: hidden size 8, two
    attention heads, one key/value head, head dimension 4. *)
Definition tiny_config : MistralConfig :=
  {| vocab_size := 16;
     hidden_size := 8;
     intermediate_size := 16;
     num_hidden_layers := 1;
     num_attention_heads := 2;
     num_key_value_heads := 1;
     max_position_embeddings := 4;
     rms_norm_eps := (/ 1000000)%R;
     tie_word_embeddings := false;
     rope_theta := 1000000%R;
     sliding_window := 4096;
     gradient_checkpointing := "nothing_saveable";
     use_pjit_attention_force := true;
     attn_pdrop := 0%R;
     c_max_position_embeddings := 4 |}.

Definition tied_config : MistralConfig :=
  {| vocab_size := 16;
     hidden_size := 8;
     intermediate_size := 16;
     num_hidden_layers := 1;
     num_attention_heads := 2;
     num_key_value_heads := 1;
     max_position_embeddings := 4;
     rms_norm_eps := (/ 1000000)%R;
     tie_word_embeddings := true;
     rope_theta := 10000%R;
     sliding_window := 4096;
     gradient_checkpointing := "nothing_saveable";
     use_pjit_attention_force := true;
     attn_pdrop := 0%R;
     c_max_position_embeddings := 4 |}.

(** A table of two rows for vectors of two channels. *)
Definition small_table : ndarray complex :=
  freq_table 2 1 of_nat (inv_freq default_theta 2).

(** One vector of two channels, [3, 4]. *)
Definition vec34 : ndarray fval :=
  NDArray [1; 1; 1; 2]
          (fun ix => match ix with
                     | [_; _; _; 0] => Fin 3
                     | _ => Fin 4
                     end).

(** A cache of one sequence of [ml] positions (one head of dimension
    1), zero filled, with the cursor at [index]. *)
Definition small_cache (ml : nat) (index : Z) : kv_cache :=
  {| cache_key := full [1; ml; 1; 1] fzero;
     cache_value := full [1; ml; 1; 1] fzero;
     cache_index := index |}.

(** [n] new tokens for that cache, every entry 1. *)
Definition new_tokens (n : nat) : ndarray fval := full [1; n; 1; 1] fone.

(** The all-valid attention mask of [ml] positions, in the rank-4 form
    that [FlaxMistralModule] passes to the layers. *)
Definition ones_mask4 (ml : nat) : ndarray bool := full [1; 1; 1; ml] true.

Definition tiny_lm_params : lm_params :=
  {| model := {| embed_tokens := full [16; 8] fzero; norm := full [8] fone |};
     lm_head := full [8; 16] fzero |}.

(** The tables that [setup] builds for [tiny_config]. *)
Definition tiny_tables : module_tables :=
  {| freq_cis := freq_table 8 2 of_nat (inv_freq default_theta 4);
     causal_mask := make_causal_mask 4 |}.

(** A prompt of three tokens: ids, the [batch, seq] mask, positions. *)
Definition prompt_ids : ndarray Z := full [1; 3] 1%Z.
Definition prompt_mask : ndarray bool := full [1; 3] true.
Definition prompt_positions : ndarray Z :=
  NDArray [1; 3] (fun ix => match ix with
                            | [_; s] => Z.of_nat s
                            | _ => 0%Z
                            end).

Definition tiny_attention : attention_params :=
  {| q_proj := full [8; 8] fone;
     k_proj := full [8; 4] fone;
     v_proj := full [8; 4] fone;
     o_proj := full [8; 8] fone |}.

(** The hidden states of the three prompt tokens. *)
Definition prompt_hidden : ndarray fval := full [1; 3; 8] fone.

(** Parameters of one decoder layer of [tiny_config]. *)
Definition tiny_layer : layer_params :=
  {| self_attn := tiny_attention;
     mlp := {| gate_proj := full [8; 16] fone;
               up_proj := full [8; 16] fone;
               down_proj := full [16; 8] fone |};
     input_layernorm := full [8] fone;
     post_attention_layernorm := full [8] fone |}.

(** The decoder layers of [tiny_config], with the identity for the
    activation. *)
Definition tiny_layers : list layer_fn :=
  map (FlaxMistralDecoderLayer tiny_config bfloat16 (fun x => x))
      [tiny_layer].



(* ================================================================== *)
(* ================================================================== *)
(** * Properties *)

Unset Implicit Arguments.

(** ** Results *)

Lemma raises_bind_l {A B : Type} (m : result A) (k : A -> result B) :
  raises m -> raises (bind m k).
Proof. intros [e ->]. exists e. reflexivity. Qed.

Lemma raises_bind_r {A B : Type} (m : result A) (k : A -> result B) :
  (forall a, m = Ok a -> raises (k a)) -> raises (bind m k).
Proof.
  intros H. destruct m as [a|e]; simpl.
  - apply H. reflexivity.
  - exists e. reflexivity.
Qed.

Lemma raises_Raise {A : Type} (e : pyerr) : raises (@Raise A e).
Proof. exists e. reflexivity. Qed.

Lemma raises_not_returns {A : Type} (m : result A) :
  raises m -> ~ returns m.
Proof. intros [e ->] [a H]. discriminate. Qed.

Lemma bind_Ok_inv {A B : Type} (m : result A) (k : A -> result B) (b : B) :
  bind m k = Ok b -> exists a, m = Ok a /\ k a = Ok b.
Proof.
  destruct m as [a|e]; simpl; intros H.
  - exists a. split; [reflexivity | exact H].
  - discriminate.
Qed.

(** Splits the goal [raises (match shape x with ... end)] by the rank of
    [x]; the branches that raise at once are closed. *)
Ltac by_rank2 :=
  repeat match goal with
    | |- raises (match shape ?x with _ => _ end) =>
        destruct (shape x) as [|? [|? ?]]; try apply raises_Raise
    end.

(* ================================================================== *)
(** ** Partition rules *)

Lemma re_search_wildcard (name : string) : re_search wildcard name = true.
Proof.
  unfold re_search. destruct (list_ascii_of_string name); reflexivity.
Qed.

Lemma PS_nonempty :
  PS1 "fsdp" <> [] /\ PSNone <> [] /\
  PS2 "dp" "fsdp" <> [] /\ PS2 "fsdp" "dp" <> [].
Proof. repeat split; discriminate. Qed.

Example resolve_q_proj_balanced :
  resolve (get_partition_rules false) "model/layers/0/self_attn/q_proj/kernel"
  = Some (PS2 "fsdp" "dp").
Proof. vm_compute. reflexivity. Qed.

Example resolve_embedding_fsdp :
  resolve (get_partition_rules true) "model/embed_tokens/embedding"
  = Some (PS1 "fsdp").
Proof. vm_compute. reflexivity. Qed.

Example resolve_layernorm_balanced :
  resolve (get_partition_rules false)
    "model/layers/3/post_attention_layernorm/kernel"
  = Some PSNone.
Proof. vm_compute. reflexivity. Qed.

Example resolve_unlisted_name_fsdp :
  resolve (get_partition_rules true) "model/layers/0/self_attn/rotary/bias"
  = Some (PS1 "fsdp").
Proof. vm_compute. reflexivity. Qed.

(** C10: under both profiles every tensor name resolves, by the first
    rule in declared order whose pattern is found in it, to a
    partition spec, and that spec has at least one entry; the last rule,
    ['.*'], matches every name. *)
Theorem resolve_total_nonempty (fully_fsdp : bool) (name : string) :
  re_search wildcard name = true /\
  exists ps,
    resolve (get_partition_rules fully_fsdp) name = Some ps /\ ps <> [].
Proof.
  split; [apply re_search_wildcard|].
  destruct fully_fsdp; unfold get_partition_rules; simpl negb; cbv iota;
    unfold resolve;
    repeat match goal with
      | |- context [if re_search ?r name then _ else _] =>
          lazymatch r with
          | wildcard => rewrite re_search_wildcard
          | _ => destruct (re_search r name)
          end
      end;
    eexists; (split; [reflexivity | discriminate]).
Qed.

(* ================================================================== *)
(** ** Diagnostics of the layer collection *)

Lemma py_add_bool_tuple (b : bool) (items : list pyval) :
  py_add (PyBool b) (PyTuple items) = Raise TypeError.
Proof. reflexivity. Qed.

Lemma py_add_none_tuple (items : list pyval) :
  py_add PyNone (PyTuple items) = Raise TypeError.
Proof. reflexivity. Qed.

Lemma py_add_tuple_array (items : list pyval) (a : ndarray fval) :
  py_add (PyTuple items) (PyArray a) = Raise TypeError.
Proof. reflexivity. Qed.

(** A decoder layer that is asked for its attention output raises:
    [outputs += attention_output[1]] adds an array to a tuple. *)
Lemma decoder_layer_output_attentions_raises
  config dt act_fn p cache hidden_state fc am cm pos init_cache :
  raises (FlaxMistralDecoderLayer config dt act_fn p cache hidden_state fc
            am cm pos init_cache true).
Proof.
  unfold FlaxMistralDecoderLayer.
  apply raises_bind_r; intros normed _.
  apply raises_bind_r; intros [cache' attention_output] _.
  apply raises_bind_r; intros a0 _.
  apply raises_bind_r; intros h1 _.
  apply raises_bind_r; intros normed2 _.
  apply raises_bind_r; intros m _.
  apply raises_bind_r; intros h2 _.
  apply raises_bind_r; intros a1 _.
  rewrite py_add_tuple_array. simpl. apply raises_Raise.
Qed.

(** One iteration with [output_attentions] set raises, whatever the
    layer does. *)
Lemma collection_step_output_attentions_raises
  layer cache fc am cm pos init_cache ohs h hs :
  raises (collection_step layer cache fc am cm pos init_cache ohs
            {| ls_hidden_state := h; ls_all_hidden_states := hs;
               ls_output_attentions := PyBool true |}).
Proof.
  unfold collection_step. simpl.
  apply raises_bind_r; intros ahs _.
  apply raises_bind_r; intros [cache' output] _.
  apply raises_bind_r; intros h' _.
  apply raises_bind_l.
  apply raises_bind_r; intros o1 _.
  apply raises_Raise.
Qed.

(** Without [output_hidden_states] the loop leaves [all_hidden_states]
    as it was. *)
Lemma collection_loop_keeps_hidden_states
  layers : forall caches fc am cm pos init_cache st caches' st',
  collection_loop layers caches fc am cm pos init_cache false st
  = Ok (caches', st') ->
  ls_all_hidden_states st' = ls_all_hidden_states st.
Proof.
  induction layers as [|layer rest IH]; intros caches fc am cm pos ic st
    caches' st' H; simpl in H.
  - inversion H. reflexivity.
  - apply bind_Ok_inv in H. destruct H as [[c1 st1] [Hstep H]].
    apply bind_Ok_inv in H. destruct H as [[cs2 st2] [Hloop H]].
    simpl in H. inversion H; subst. simpl in Hloop.
    rewrite (IH _ _ _ _ _ _ _ _ _ Hloop).
    unfold collection_step in Hstep. simpl in Hstep.
    apply bind_Ok_inv in Hstep. destruct Hstep as [oa [_ Hstep]].
    apply bind_Ok_inv in Hstep. destruct Hstep as [[c' out] [_ Hstep]].
    apply bind_Ok_inv in Hstep. destruct Hstep as [h' [_ Hstep]].
    apply bind_Ok_inv in Hstep. destruct Hstep as [oa' [_ Hstep]].
    inversion Hstep. reflexivity.
Qed.

(** C5: the diagnostics are not collected.  (1) With at least one
    layer, a call of the layer collection that asks for the attention
    weights raises: [output_attentions += (output[1],)] adds a tuple to
    the flag instead of extending [all_attentions].  (2) A call of
    [FlaxMistralModule] that asks for the hidden states raises: the
    flag is not passed to the collection, whose [all_hidden_states] is
    then [None], and [None + (hidden_states,)] is a type error. *)
Theorem diagnostics_collection_raises :
  (forall layer layers caches hidden_state fc am cm pos init_cache ohs,
     raises (FlaxMistralDecoratorCollection (layer :: layers) caches
               hidden_state fc am cm pos init_cache true ohs)) /\
  (forall config p layers tables caches input_ids am pos input_embeds
          init_cache oa return_dict,
     raises (FlaxMistralModule config p layers tables caches input_ids am
               pos input_embeds init_cache oa true return_dict)).
Proof.
  split.
  - intros. unfold FlaxMistralDecoratorCollection.
    apply raises_bind_l. simpl collection_loop.
    apply raises_bind_l.
    apply collection_step_output_attentions_raises.
  - intros. unfold FlaxMistralModule.
    apply raises_bind_r; intros embeds _.
    apply raises_bind_r; intros am' _.
    apply raises_bind_r; intros [caches' [[out0 out1] out2]] Hcoll.
    apply raises_bind_r; intros hs _.
    apply raises_bind_l.
    unfold FlaxMistralDecoratorCollection in Hcoll.
    apply bind_Ok_inv in Hcoll. destruct Hcoll as [[cs st] [Hloop Hret]].
    apply collection_loop_keeps_hidden_states in Hloop.
    simpl in Hloop, Hret. inversion Hret; subst.
    rewrite Hloop. simpl. apply raises_Raise.
Qed.

(* ================================================================== *)
(** ** Weight tying *)

Lemma getattr_transformer (p : lm_params) :
  getattr_variables p "transformer" = Raise AttributeError.
Proof. reflexivity. Qed.

Lemma getattr_model_embedding (p : lm_params) :
  (vars <- getattr_variables p "model" ;;
   params <- tree_getitem vars "params" ;;
   e <- tree_getitem params "embed_tokens" ;;
   tree_getitem e "embedding")
  = Ok (Leaf (embed_tokens (model p))).
Proof. reflexivity. Qed.

(** C9: with [tie_word_embeddings] on, no forward call produces logits:
    the module reads [self.transformer], an attribute it does not have
    (its inner model is [self.model], whose embedding is stored under
    ["embed_tokens"], not ["wte"]). *)
Theorem tied_lm_head_raises
  config p layers tables caches input_ids am pos input_embeds
  init_cache oa ohs return_dict :
  tie_word_embeddings config = true ->
  raises (FlaxMistralForCausalLMModule config p layers tables caches
            input_ids am pos input_embeds init_cache oa ohs return_dict).
Proof.
  intros Htie. unfold FlaxMistralForCausalLMModule.
  destruct (shape input_ids) as [|b [|s [|? ?]]]; try apply raises_Raise.
  apply raises_bind_r; intros [caches' outputs] _.
  apply raises_bind_r; intros first _.
  apply raises_bind_r; intros hidden_states _.
  apply raises_bind_l. rewrite Htie, getattr_transformer.
  apply raises_Raise.
Qed.

(* ================================================================== *)
(** ** The key/value cache *)

Lemma int32_wrap_small (z : Z) :
  (- 2 ^ 31 <= z < 2 ^ 31)%Z -> int32_wrap z = z.
Proof.
  intros H. unfold int32_wrap.
  rewrite Z.mod_small; lia.
Qed.

Lemma clamp_start_0 (dim size : nat) :
  size <= dim -> clamp_start 0 dim size = 0.
Proof. intros H. unfold clamp_start. simpl. lia. Qed.

Lemma clamp_start_nonneg (start : Z) (dim size : nat) :
  (0 <= start)%Z -> size <= dim ->
  clamp_start start dim size = Nat.min (Z.to_nat start) (dim - size).
Proof.
  intros H0 Hle. unfold clamp_start.
  destruct (start <? 0)%Z eqn:E; [apply Z.ltb_lt in E; lia|].
  lia.
Qed.

Lemma bshape_pad_mask (B n ML : nat) :
  broadcast_shapes [B; 1; n; ML] [B; 1; 1; ML] = Some [B; 1; n; ML].
Proof.
  unfold broadcast_shapes, pad_left. simpl.
  rewrite !Nat.eqb_refl.
  destruct (n =? 1) eqn:E.
  - apply Nat.eqb_eq in E. subst. reflexivity.
  - reflexivity.
Qed.

(** The start offset of an append of [n] tokens at the cursor [index]
    into a buffer of [ML] positions. *)
Definition append_offset (index : Z) (ML n : nat) : nat :=
  Nat.min (Z.to_nat index) (ML - n).

(** The entries of a buffer after an append. *)
Lemma dynamic_update_slice_cache
  (buf upd : ndarray fval) (B ML NH D n : nat) (index : Z) :
  shape buf = [B; ML; NH; D] ->
  shape upd = [B; n; NH; D] ->
  (0 <= index)%Z -> n <= ML ->
  exists buf',
    dynamic_update_slice buf upd [0%Z; index; 0%Z; 0%Z] = Ok buf' /\
    shape buf' = [B; ML; NH; D] /\
    forall b p h d, b < B -> p < ML -> h < NH -> d < D ->
      data buf' [b; p; h; d] =
      if (append_offset index ML n <=? p)
         && (p <? append_offset index ML n + n)
      then data upd [b; p - append_offset index ML n; h; d]
      else data buf [b; p; h; d].
Proof.
  intros Hb Hu H0 Hn. unfold dynamic_update_slice, ndim.
  rewrite Hb, Hu. simpl.
  rewrite !Nat.leb_refl. simpl.
  destruct (n <=? ML) eqn:E; [|apply Nat.leb_gt in E; lia]. simpl.
  eexists. split; [reflexivity|]. split; [reflexivity|].
  intros b p h d Hlb Hlp Hlh Hld. simpl.
  rewrite !clamp_start_0 by lia.
  rewrite clamp_start_nonneg by lia.
  fold (append_offset index ML n).
  simpl.
  assert (Eb : (b <? B) = true) by (apply Nat.ltb_lt; lia).
  assert (Eh : (h <? NH) = true) by (apply Nat.ltb_lt; lia).
  assert (Ed : (d <? D) = true) by (apply Nat.ltb_lt; lia).
  rewrite Eb, Eh, Ed. simpl. rewrite !Bool.andb_true_r.
  unfold sub_index. simpl. rewrite !Nat.sub_0_r. reflexivity.
Qed.

Lemma dynamic_update_slice_too_long
  (buf upd : ndarray fval) (B ML NH D n : nat) (index : Z) :
  shape buf = [B; ML; NH; D] ->
  shape upd = [B; n; NH; D] ->
  ML < n ->
  dynamic_update_slice buf upd [0%Z; index; 0%Z; 0%Z] = Raise TypeError.
Proof.
  intros Hb Hu Hn. unfold dynamic_update_slice, ndim.
  rewrite Hb, Hu. simpl.
  rewrite !Nat.leb_refl. simpl.
  destruct (n <=? ML) eqn:E; [apply Nat.leb_le in E; lia|]. reflexivity.
Qed.

(** C2 (amended): an append of [n <= max_len] tokens at the cursor [c]
    never fails.  It advances the cursor by exactly [n], keeps the
    shape of both buffers, and writes the new keys and values at the
    offset [min c (max_len - n)]: at the cursor when [c + n <= max_len],
    and over the last [n] positions of the buffer otherwise. *)
Theorem cache_append
  (c : kv_cache) (q k v : ndarray fval) (am : ndarray bool)
  (B ML NH D n QH QD : nat) :
  shape (cache_key c) = [B; ML; NH; D] ->
  shape (cache_value c) = [B; ML; NH; D] ->
  shape q = [B; n; QH; QD] ->
  shape k = [B; n; NH; D] ->
  shape v = [B; n; NH; D] ->
  shape am = [B; 1; 1; ML] ->
  (0 <= cache_index c)%Z ->
  (cache_index c + Z.of_nat n < 2 ^ 31)%Z ->
  n <= ML ->
  let off := append_offset (cache_index c) ML n in
  exists c' am',
    concatenate_to_cache_ (Some c) q k v am
    = Ok (c', (q, cache_key c', cache_value c', am')) /\
    cache_index c' = (cache_index c + Z.of_nat n)%Z /\
    shape (cache_key c') = [B; ML; NH; D] /\
    shape (cache_value c') = [B; ML; NH; D] /\
    ((cache_index c + Z.of_nat n <= Z.of_nat ML)%Z ->
     off = Z.to_nat (cache_index c)) /\
    ((cache_index c + Z.of_nat n > Z.of_nat ML)%Z -> off = ML - n) /\
    forall b p h d, b < B -> p < ML -> h < NH -> d < D ->
      data (cache_key c') [b; p; h; d] =
        (if (off <=? p) && (p <? off + n)
         then data k [b; p - off; h; d]
         else data (cache_key c) [b; p; h; d]) /\
      data (cache_value c') [b; p; h; d] =
        (if (off <=? p) && (p <? off + n)
         then data v [b; p - off; h; d]
         else data (cache_value c) [b; p; h; d]).
Proof.
  intros Hk Hv Hq Hk' Hv' Ham H0 H31 Hn off.
  destruct (dynamic_update_slice_cache _ _ _ _ _ _ _ _ Hk Hk' H0 Hn)
    as [kb [Ek [Sk Dk]]].
  destruct (dynamic_update_slice_cache _ _ _ _ _ _ _ _ Hv Hv' H0 Hn)
    as [vb [Ev [Sv Dv]]].
  unfold concatenate_to_cache_. rewrite Hk.
  cbn [rev app repeat List.length]. rewrite Ek, Ev. simpl bind. rewrite Hq.
  rewrite int32_wrap_small by lia.
  unfold broadcast_to, ndim. simpl.
  rewrite Nat.eqb_refl, Bool.orb_true_r. simpl.
  unfold combine_masks, ndim. simpl. rewrite Ham. simpl.
  unfold binop. simpl shape. rewrite Ham, bshape_pad_mask. simpl.
  exists {| cache_key := kb; cache_value := vb;
            cache_index := (cache_index c + Z.of_nat n)%Z |}.
  eexists. split; [reflexivity|]. simpl.
  repeat split; try assumption.
  - intros Hle. unfold off, append_offset. lia.
  - intros Hgt. unfold off, append_offset. lia.
  - apply Dk; assumption.
  - apply Dv; assumption.
Qed.

(* ================================================================== *)
(** ** Arrays: reshaping *)

Lemma size_of_app (s1 s2 : list nat) :
  size_of (s1 ++ s2) = size_of s1 * size_of s2.
Proof.
  induction s1 as [|d s1 IH]; simpl.
  - lia.
  - unfold size_of in *. simpl. rewrite IH. lia.
Qed.

Lemma unravel_rev_ravel (s : list nat) :
  forall ix acc t,
    in_bounds s ix = true ->
    unravel_rev (rev s ++ t) (ravel s ix acc)
    = rev ix ++ unravel_rev t acc.
Proof.
  induction s as [|d s IH]; intros ix acc t Hb.
  - destruct ix; [reflexivity | discriminate].
  - destruct ix as [|i ix]; [discriminate|].
    simpl in Hb. apply Bool.andb_true_iff in Hb. destruct Hb as [Hi Hb].
    apply Nat.ltb_lt in Hi.
    simpl. rewrite <- !app_assoc. simpl.
    rewrite IH by exact Hb. simpl.
    assert (Hm : (acc * d + i) mod d = i).
    { rewrite Nat.add_comm, Nat.Div0.mod_add. apply Nat.mod_small. exact Hi. }
    assert (Hd : (acc * d + i) / d = acc).
    { rewrite Nat.add_comm, Nat.div_add by lia.
      rewrite Nat.div_small by exact Hi. reflexivity. }
    rewrite Hm, Hd. reflexivity.
Qed.

Lemma unravel_ravel (s ix : list nat) :
  in_bounds s ix = true -> unravel s (ravel s ix 0) = ix.
Proof.
  intros Hb. unfold unravel.
  pose proof (unravel_rev_ravel s ix 0 [] Hb) as H.
  rewrite app_nil_r in H. rewrite H. simpl.
  rewrite app_nil_r. apply rev_involutive.
Qed.

(** The entry of a reshaped array at [ix] is the entry of the source at
    the index with the same row-major position. *)
Lemma reshape_data {A : Type} (a a' : ndarray A) (news ix ix0 : list nat) :
  reshape a news = Ok a' ->
  in_bounds (shape a) ix0 = true ->
  ravel news ix 0 = ravel (shape a) ix0 0 ->
  data a' ix = data a ix0.
Proof.
  unfold reshape. intros H Hb Hr.
  destruct (size_of (shape a) =? size_of news); [|discriminate].
  inversion H; subst; simpl.
  rewrite Hr, unravel_ravel by exact Hb. reflexivity.
Qed.

Lemma reshape_shape {A : Type} (a a' : ndarray A) (news : list nat) :
  reshape a news = Ok a' -> shape a' = news.
Proof.
  unfold reshape. intros H.
  destruct (size_of (shape a) =? size_of news); [|discriminate].
  inversion H; reflexivity.
Qed.

Lemma reshape_ok {A : Type} (a : ndarray A) (news : list nat) :
  size_of (shape a) = size_of news -> returns (reshape a news).
Proof.
  intros H. unfold reshape. rewrite H, Nat.eqb_refl.
  eexists. reflexivity.
Qed.

Lemma known_size_app (d1 d2 : list (option nat)) :
  known_size (d1 ++ d2) = known_size d1 * known_size d2.
Proof.
  induction d1 as [|[n|] d1 IH]; simpl.
  - lia.
  - unfold known_size in *. simpl. rewrite IH. lia.
  - unfold known_size in *. simpl. rewrite IH. lia.
Qed.

Lemma known_size_Some (s : list nat) : known_size (map Some s) = size_of s.
Proof.
  induction s as [|d s IH]; [reflexivity|].
  unfold known_size, size_of in *. simpl. rewrite IH. reflexivity.
Qed.

Lemma count_unknown_app (d1 d2 : list (option nat)) :
  count_unknown (d1 ++ d2) = count_unknown d1 + count_unknown d2.
Proof.
  unfold count_unknown. rewrite filter_app, length_app. reflexivity.
Qed.

Lemma count_unknown_Some (s : list nat) : count_unknown (map Some s) = 0.
Proof.
  induction s as [|d s IH]; [reflexivity|].
  unfold count_unknown in *. simpl. exact IH.
Qed.

(** A reshape with one [-1]: the missing extent is the quotient. *)
Lemma infer_shape_one (size x : nat) (pre post : list nat) :
  size = size_of pre * x * size_of post ->
  size_of pre * size_of post <> 0 ->
  infer_shape size (map Some pre ++ [None] ++ map Some post)
  = Ok (pre ++ [x] ++ post).
Proof.
  intros Hs Hk. unfold infer_shape.
  rewrite !count_unknown_app, !count_unknown_Some. simpl.
  rewrite !known_size_app.
  change (known_size (None :: map Some post))
    with (known_size (map Some post)).
  rewrite !known_size_Some.
  set (k := size_of pre * size_of post) in *.
  assert (Hsz : size = x * k) by (unfold k; rewrite Hs; ring).
  destruct (k =? 0) eqn:Ek; [apply Nat.eqb_eq in Ek; contradiction|].
  rewrite Hsz, Nat.Div0.mod_mul. simpl.
  rewrite Nat.div_mul by exact Hk.
  rewrite !map_app. simpl. rewrite !map_map. simpl. rewrite !map_id.
  reflexivity.
Qed.

(* ================================================================== *)
(** ** repeat_kv *)

Lemma bcast_keep (d i : nat) : i < d -> (if d =? 1 then 0 else i) = i.
Proof.
  intros H. destruct (d =? 1) eqn:E; [|reflexivity].
  apply Nat.eqb_eq in E. lia.
Qed.

Lemma div_mod_lt (h k n : nat) :
  h < k * n -> h / k < n /\ h mod k < k.
Proof.
  intros H. assert (Hk : k <> 0) by (intros ->; simpl in H; lia).
  split.
  - apply Nat.Div0.div_lt_upper_bound. exact H.
  - apply Nat.mod_upper_bound. exact Hk.
Qed.

(** The head [h] of the repeated tensor is the head [h mod n_kv_heads]
    of the argument: the new axis is inserted before the head axis, so
    the reshape lays the copies of the whole head block one after the
    other. *)
Lemma repeat_kv_data {A : Type} (x : ndarray A) (B S NKV D n : nat) :
  shape x = [B; S; NKV; D] ->
  exists x',
    repeat_kv x n = Ok x' /\
    shape x' = [B; S; NKV * n; D] /\
    forall b s h d, b < B -> s < S -> h < NKV * n -> d < D ->
      data x' [b; s; h; d] = data x [b; s; h mod NKV; d].
Proof.
  intros Hx. unfold repeat_kv. rewrite Hx.
  destruct (n =? 1) eqn:E1.
  - apply Nat.eqb_eq in E1. subst n. exists x.
    split; [reflexivity|]. split; [rewrite Hx, Nat.mul_1_r; reflexivity|].
    intros b s h d _ _ Hh _. rewrite Nat.mod_small by lia. reflexivity.
  - unfold expand_dims, ndim. rewrite Hx. simpl.
    set (x2 := jnp_repeat _ n 2).
    assert (Hs2 : shape x2 = [B; S; 1 * n; NKV; D]) by reflexivity.
    assert (Hsz : size_of (shape x2) = size_of [B; S; NKV * n; D]).
    { rewrite Hs2. unfold size_of. simpl. ring. }
    destruct (reshape_ok x2 [B; S; NKV * n; D] Hsz) as [x' Hx'].
    exists x'. split; [exact Hx'|].
    split; [exact (reshape_shape _ _ _ Hx')|].
    intros b s h d Hb Hs Hh Hd.
    destruct (div_mod_lt h NKV n Hh) as [Hq Hr].
    rewrite (reshape_data x2 x' _ [b; s; h; d]
               [b; s; h / NKV; h mod NKV; d] Hx').
    + reflexivity.
    + rewrite Hs2. simpl.
      repeat (apply Bool.andb_true_iff; split);
        try reflexivity; apply Nat.ltb_lt; lia.
    + rewrite Hs2. simpl.
      pose proof (Nat.div_mod_eq h NKV) as Hdm.
      set (qh := h / NKV) in *. set (rh := h mod NKV) in *.
      rewrite Hdm at 1. ring.
Qed.

(** For two key/value heads repeated twice the copies are tiled, not
    grouped: head 1 is the second original head. *)
Example repeat_kv_tiles :
  forall x : ndarray nat, shape x = [1; 1; 2; 1] ->
  exists x', repeat_kv x 2 = Ok x' /\
    data x' [0; 0; 0; 0] = data x [0; 0; 0; 0] /\
    data x' [0; 0; 1; 0] = data x [0; 0; 1; 0] /\
    data x' [0; 0; 2; 0] = data x [0; 0; 0; 0] /\
    data x' [0; 0; 3; 0] = data x [0; 0; 1; 0].
Proof.
  intros x Hx.
  destruct (repeat_kv_data x 1 1 2 1 2 Hx) as [x' [H [_ Hd]]].
  exists x'. split; [exact H|].
  repeat split.
  - apply (Hd 0 0 0 0); lia.
  - apply (Hd 0 0 1 0); lia.
  - apply (Hd 0 0 2 0); lia.
  - apply (Hd 0 0 3 0); lia.
Qed.

(* ================================================================== *)
(** ** Attention over repeated heads *)

Lemma bshape_head_bias (B H Q K : nat) :
  broadcast_shapes [B; H; Q; K] [B; 1; Q; K] = Some [B; H; Q; K].
Proof.
  unfold broadcast_shapes, pad_left. simpl.
  rewrite !Nat.eqb_refl.
  destruct (H =? 1) eqn:E.
  - apply Nat.eqb_eq in E. subst. reflexivity.
  - reflexivity.
Qed.

(** The attention weights, entry by entry. *)
Lemma attention_weights_data (q k bias : ndarray fval) (B Q K H D : nat) :
  shape q = [B; Q; H; D] ->
  shape k = [B; K; H; D] ->
  shape bias = [B; 1; Q; K] ->
  exists w,
    dot_product_attention_weights q k bias = Ok w /\
    shape w = [B; H; Q; K] /\
    forall b h i j, b < B -> h < H -> i < Q -> j < K ->
      data w [b; h; i; j] =
      fdiv (fexp (fadd (attention_score q k D b h i j)
                       (data bias [b; 0; i; j])))
           (fsum (map (fun j' =>
                         fexp (fadd (attention_score q k D b h i j')
                                    (data bias [b; 0; i; j'])))
                    (seq 0 K))).
Proof.
  intros Hq Hk Hb. unfold dot_product_attention_weights.
  rewrite Hq, Hk, !Nat.eqb_refl. simpl andb. cbv iota.
  unfold binop. simpl shape. rewrite Hb, bshape_head_bias. simpl bind.
  eexists. split; [reflexivity|]. split; [reflexivity|].
  intros b h i j Lb Lh Li Lj.
  unfold attention_score, softmax, bcast_index. simpl.
  rewrite !(bcast_keep B b), !(bcast_keep H h), !(bcast_keep Q i),
    !(bcast_keep K j) by assumption.
  f_equal. f_equal. apply map_ext_in. intros j' Hj'.
  apply in_seq in Hj'.
  rewrite !(bcast_keep K j') by lia. reflexivity.
Qed.

(** The weighted sum of the values, entry by entry. *)
Lemma weighted_values_data (w v : ndarray fval) (B Q K H D : nat) :
  shape w = [B; H; Q; K] ->
  shape v = [B; K; H; D] ->
  exists out,
    weighted_values w v = Ok out /\
    shape out = [B; Q; H; D] /\
    forall b i h e,
      data out [b; i; h; e] =
      fsum (map (fun j => fmul (data w [b; h; i; j]) (data v [b; j; h; e]))
              (seq 0 K)).
Proof.
  intros Hw Hv. unfold weighted_values.
  rewrite Hw, Hv, !Nat.eqb_refl. simpl.
  eexists. split; [reflexivity|]. split; reflexivity.
Qed.

Lemma select_head_shape {A : Type} (x : ndarray A) (B S H D h : nat) :
  shape x = [B; S; H; D] -> shape (select_head x h) = [B; S; 1; D].
Proof. intros Hx. unfold select_head. simpl. rewrite Hx. reflexivity. Qed.

(** C7: attention over the keys and values that [repeat_kv] produced
    is, for every query head [h], attention of that head alone against
    one original key/value head, the head [h mod num_kv_heads]: the
    weights and the outputs agree entry by entry.  [repeat_kv] only
    copies entries of its argument. *)
Theorem grouped_query_attention
  (q k v bias : ndarray fval) (B Q K NKV n D : nat) :
  shape q = [B; Q; NKV * n; D] ->
  shape k = [B; K; NKV; D] ->
  shape v = [B; K; NKV; D] ->
  shape bias = [B; 1; Q; K] ->
  exists k' v' w out,
    repeat_kv k n = Ok k' /\ repeat_kv v n = Ok v' /\
    dot_product_attention_weights q k' bias = Ok w /\
    weighted_values w v' = Ok out /\
    forall h, h < NKV * n ->
      exists w_h out_h,
        dot_product_attention_weights (select_head q h)
          (select_head k (h mod NKV)) bias = Ok w_h /\
        weighted_values w_h (select_head v (h mod NKV)) = Ok out_h /\
        (forall b i j, b < B -> i < Q -> j < K ->
           data w [b; h; i; j] = data w_h [b; 0; i; j]) /\
        (forall b i e, b < B -> i < Q -> e < D ->
           data out [b; i; h; e] = data out_h [b; i; 0; e]).
Proof.
  intros Hq Hk Hv Hb.
  destruct (repeat_kv_data k B K NKV D n Hk) as [k' [Ek [Sk Dk]]].
  destruct (repeat_kv_data v B K NKV D n Hv) as [v' [Ev [Sv Dv]]].
  destruct (attention_weights_data q k' bias B Q K (NKV * n) D Hq Sk Hb)
    as [w [Ew [Sw Dw]]].
  destruct (weighted_values_data w v' B Q K (NKV * n) D Sw Sv)
    as [out [Eo [So Do]]].
  exists k', v', w, out. repeat split; try assumption.
  intros h Hh.
  pose proof (select_head_shape q B Q (NKV * n) D h Hq) as Hqh.
  pose proof (select_head_shape k B K NKV D (h mod NKV) Hk) as Hkh.
  pose proof (select_head_shape v B K NKV D (h mod NKV) Hv) as Hvh.
  destruct (attention_weights_data _ _ bias B Q K 1 D Hqh Hkh Hb)
    as [w_h [Ewh [Swh Dwh]]].
  destruct (weighted_values_data w_h _ B Q K 1 D Swh Hvh)
    as [out_h [Eoh [Soh Doh]]].
  exists w_h, out_h. split; [exact Ewh|]. split; [exact Eoh|].
  assert (Hscore : forall b i j, b < B -> j < K ->
            attention_score q k' D b h i j
            = attention_score (select_head q h) (select_head k (h mod NKV))
                D b 0 i j).
  { intros b i j Lb Lj. unfold attention_score.
    f_equal. apply map_ext_in. intros e He. apply in_seq in He.
    simpl. rewrite Dk by lia. reflexivity. }
  assert (Hw : forall b i j, b < B -> i < Q -> j < K ->
            data w [b; h; i; j] = data w_h [b; 0; i; j]).
  { intros b i j Lb Li Lj.
    rewrite Dw, Dwh by lia.
    rewrite Hscore by assumption.
    f_equal. f_equal. apply map_ext_in. intros j' Hj'.
    apply in_seq in Hj'. rewrite Hscore by lia. reflexivity. }
  split; [exact Hw|].
  intros b i e Lb Li Le.
  rewrite Do, Doh. f_equal. apply map_ext_in. intros j Hj.
  apply in_seq in Hj.
  rewrite Hw by lia. simpl. rewrite Dv by lia. reflexivity.
Qed.

(* ================================================================== *)
(** ** Rotary embedding *)

Lemma bshape_same (s : list nat) : bshape s s = Some s.
Proof.
  induction s as [|d s IH]; simpl; [reflexivity|].
  rewrite IH, Nat.eqb_refl. reflexivity.
Qed.

Lemma bshape_heads (B S H P : nat) :
  broadcast_shapes [B; S; H; P] [B; S; 1; P] = Some [B; S; H; P].
Proof.
  unfold broadcast_shapes, pad_left. simpl.
  rewrite !Nat.eqb_refl.
  destruct (H =? 1) eqn:E.
  - apply Nat.eqb_eq in E. subst. reflexivity.
  - reflexivity.
Qed.

Lemma in_bounds4 (B S H D b s h d : nat) :
  b < B -> s < S -> h < H -> d < D ->
  in_bounds [B; S; H; D] [b; s; h; d] = true.
Proof.
  intros. simpl.
  repeat (apply Bool.andb_true_iff; split); try reflexivity;
    apply Nat.ltb_lt; assumption.
Qed.

Lemma in_bounds5 (B S H P C b s h p c : nat) :
  b < B -> s < S -> h < H -> p < P -> c < C ->
  in_bounds [B; S; H; P; C] [b; s; h; p; c] = true.
Proof.
  intros. simpl.
  repeat (apply Bool.andb_true_iff; split); try reflexivity;
    apply Nat.ltb_lt; assumption.
Qed.

(** One rotated operand, entry by entry: the channels [2p] and [2p+1]
    are the real and the imaginary part of the product of the complex
    number they form with the frequency [p]. *)
Lemma rotate_data (x : ndarray fval) (fc : ndarray complex)
  (B S H P : nat) :
  shape x = [B; S; H; 2 * P] ->
  shape fc = [B; S; 1; P] ->
  0 < B -> 0 < S -> 0 < H ->
  exists x',
    rotate x fc = Ok x' /\
    shape x' = [B; S; H; 2 * P] /\
    forall b s h p, b < B -> s < S -> h < H -> p < P ->
      let z := cmul {| re := data x [b; s; h; 2 * p];
                       im := data x [b; s; h; 2 * p + 1] |}
                    (data fc [b; s; 0; p]) in
      data x' [b; s; h; 2 * p] = re z /\
      data x' [b; s; h; 2 * p + 1] = im z.
Proof.
  remember (2 * P) as D eqn:HD.
  intros Hx Hf PB PS PH.
  assert (Hnz : B * S * H <> 0) by (apply Nat.neq_mul_0; split;
    [apply Nat.neq_mul_0; split|]; lia).
  unfold rotate, reshape_infer. rewrite Hx.
  change (removelast [B; S; H; D]) with [B; S; H].
  change (map Some [B; S; H] ++ [None; Some 2])
    with (map Some [B; S; H] ++ [None] ++ map Some [2]).
  rewrite (infer_shape_one _ P [B; S; H] [2]).
  2: { unfold size_of. simpl. subst D. ring. }
  2: { unfold size_of. simpl. lia. }
  simpl bind.
  destruct (reshape_ok x [B; S; H; P; 2]) as [r Hr].
  { rewrite Hx. unfold size_of. simpl. subst D. ring. }
  change ([B; S; H] ++ [P] ++ [2]) with [B; S; H; P; 2].
  rewrite Hr. simpl bind.
  pose proof (reshape_shape _ _ _ Hr) as Sr.
  unfold binop. unfold to_complex at 1. simpl shape. rewrite Sr, Hf.
  change (removelast [B; S; H; P; 2]) with [B; S; H; P].
  rewrite bshape_heads. simpl bind. simpl shape.
  change (removelast [B; S; H; P]) with [B; S; H].
  change (map Some [B; S; H] ++ [None])
    with (map Some [B; S; H] ++ [None] ++ map Some []).
  rewrite (infer_shape_one _ D [B; S; H] []).
  2: { unfold size_of. simpl. subst D. ring. }
  2: { unfold size_of. simpl. lia. }
  simpl bind.
  match goal with
  | |- exists x', reshape ?st ?news = Ok x' /\ _ =>
      destruct (reshape_ok st news) as [x' Hx'];
        [unfold size_of; simpl; subst D; ring|];
      exists x'; split; [exact Hx'|];
      split; [exact (reshape_shape _ _ _ Hx')|];
      pose proof (fun ix ix0 => reshape_data st x' news ix ix0 Hx') as Dx'
  end.
  assert (Dr : forall b s h p c, b < B -> s < S -> h < H -> p < P -> c < 2 ->
            data r [b; s; h; p; c] = data x [b; s; h; 2 * p + c]).
  { intros b s h p c Lb Ls Lh Lp Lc.
    apply (reshape_data x r _ _ _ Hr).
    - rewrite Hx. apply in_bounds4; try assumption. subst D. lia.
    - rewrite Hx. simpl. subst D. ring. }
  intros b s h p Lb Ls Lh Lp.
  assert (Dz : forall c, c < 2 ->
            data x' [b; s; h; 2 * p + c]
            = match c with
              | 0 => re (cmul {| re := data x [b; s; h; 2 * p];
                                 im := data x [b; s; h; 2 * p + 1] |}
                              (data fc [b; s; 0; p]))
              | _ => im (cmul {| re := data x [b; s; h; 2 * p];
                                 im := data x [b; s; h; 2 * p + 1] |}
                              (data fc [b; s; 0; p]))
              end).
  { intros c Lc.
    rewrite (Dx' [b; s; h; 2 * p + c] [b; s; h; p; c]).
    - unfold stack_re_im, to_complex, bcast_index.
      cbn [data shape last removelast app List.length skipn combine map
           fst snd Nat.sub].
      rewrite !(bcast_keep B b), !(bcast_keep S s), !(bcast_keep H h),
        !(bcast_keep P p) by assumption.
      rewrite (Dr b s h p 0), (Dr b s h p 1) by (assumption || lia).
      rewrite Nat.add_0_r. simpl (1 =? 1). cbv iota.
      destruct c as [|c]; reflexivity.
    - simpl shape. apply in_bounds5; assumption.
    - simpl. subst D. ring. }
  cbv zeta. split.
  - rewrite <- (Nat.add_0_r (2 * p)) at 1. apply (Dz 0). lia.
  - apply (Dz 1). lia.
Qed.

Lemma fold_right_Rplus_acc (l : list R) (c : R) :
  fold_right Rplus c l = (fold_right Rplus 0 l + c)%R.
Proof.
  induction l as [|x l IH]; simpl.
  - ring.
  - rewrite IH. ring.
Qed.

Lemma fold_seq_rsum (f : nat -> R) (n : nat) :
  fold_right Rplus 0%R (map f (seq 0 n)) = rsum f n.
Proof.
  induction n as [|n IH]; [reflexivity|].
  rewrite seq_S, map_app, fold_right_app. simpl.
  rewrite fold_right_Rplus_acc, IH. ring.
Qed.

Lemma fsum_Fin_list (g : nat -> fval) (f : nat -> R) (l : list nat) :
  (forall e, In e l -> g e = Fin (f e)) ->
  fsum (map g l) = Fin (fold_right Rplus 0%R (map f l)).
Proof.
  induction l as [|x l IH]; intros H; [reflexivity|].
  unfold fsum in *. cbn [map fold_right]. rewrite IH.
  - rewrite (H x) by (left; reflexivity). reflexivity.
  - intros e He. apply H. right. exact He.
Qed.

Lemma fsum_Fin (g : nat -> fval) (f : nat -> R) (n : nat) :
  (forall e, e < n -> g e = Fin (f e)) ->
  fsum (map g (seq 0 n)) = Fin (rsum f n).
Proof.
  intros H. rewrite (fsum_Fin_list g f).
  - rewrite fold_seq_rsum. reflexivity.
  - intros e He. apply in_seq in He. apply H. lia.
Qed.

Lemma rsum_ext (f g : nat -> R) (n : nat) :
  (forall e, e < n -> f e = g e) -> rsum f n = rsum g n.
Proof.
  induction n as [|n IH]; intros H; [reflexivity|].
  simpl. rewrite IH by (intros; apply H; lia).
  rewrite (H n) by lia. reflexivity.
Qed.

Lemma rsum_pairs (f : nat -> R) (P : nat) :
  rsum f (2 * P) = rsum (fun p => (f (2 * p)%nat + f (2 * p + 1)%nat)%R) P.
Proof.
  induction P as [|P IH]; [reflexivity|].
  replace (2 * Datatypes.S P) with (Datatypes.S (Datatypes.S (2 * P))) by lia.
  cbn [rsum]. rewrite IH.
  replace (Datatypes.S (2 * P)) with (2 * P + 1) by lia. ring.
Qed.

Lemma rotation_squares (x0 x1 a : R) :
  ((x0 * cos a - x1 * sin a) * (x0 * cos a - x1 * sin a)
   + (x0 * sin a + x1 * cos a) * (x0 * sin a + x1 * cos a)
   = x0 * x0 + x1 * x1)%R.
Proof.
  pose proof (sin2_cos2 a) as H. unfold Rsqr in H.
  replace ((x0 * cos a - x1 * sin a) * (x0 * cos a - x1 * sin a)
           + (x0 * sin a + x1 * cos a) * (x0 * sin a + x1 * cos a))%R
    with ((x0 * x0 + x1 * x1) * (sin a * sin a + cos a * cos a))%R by ring.
  rewrite H. ring.
Qed.

Lemma fadd_NaN_r (a : fval) : fadd a NaN = NaN.
Proof. destruct a; reflexivity. Qed.

Lemma fsum_NaN (g : nat -> fval) (l : list nat) (e : nat) :
  In e l -> g e = NaN -> fsum (map g l) = NaN.
Proof.
  induction l as [|x l IH]; intros Hin He; [contradiction|].
  unfold fsum in *. cbn [map fold_right].
  destruct Hin as [<-|Hin].
  - rewrite He. reflexivity.
  - rewrite (IH Hin He). apply fadd_NaN_r.
Qed.

Lemma finite_or_NaN (g : nat -> fval) (n : nat) :
  (forall e, e < n -> exists r, g e = Fin r) \/
  (exists e, e < n /\ g e = NaN).
Proof.
  induction n as [|n [IH|[e [He Hn]]]].
  - left. intros e He. lia.
  - destruct (g n) as [r|] eqn:En.
    + left. intros e He.
      destruct (Nat.eq_dec e n) as [->|Hne]; [exists r; exact En|].
      apply IH. lia.
    + right. exists n. split; [lia | exact En].
  - right. exists e. split; [lia | exact Hn].
Qed.

(** A vector whose channel pairs are rotated keeps its squared norm. *)
Lemma sqnorm_rotated_finite (x x' : ndarray fval) (pre : list nat) (P : nat) :
  last (shape x) 0 = 2 * P ->
  last (shape x') 0 = 2 * P ->
  (forall e, e < 2 * P -> exists r, data x (pre ++ [e]) = Fin r) ->
  (forall p, p < P ->
     exists a,
       data x' (pre ++ [2 * p])
       = fsub (fmul (data x (pre ++ [2 * p])) (Fin (cos a)))
              (fmul (data x (pre ++ [2 * p + 1])) (Fin (sin a))) /\
       data x' (pre ++ [2 * p + 1])
       = fadd (fmul (data x (pre ++ [2 * p])) (Fin (sin a)))
              (fmul (data x (pre ++ [2 * p + 1])) (Fin (cos a)))) ->
  sqnorm_last x' pre = sqnorm_last x pre.
Proof.
  intros Lx Lx' Hfin Hrot. unfold sqnorm_last. rewrite Lx, Lx'.
  set (xr := fun e => fval_real (data x (pre ++ [e]))).
  set (yr := fun e => fval_real (data x' (pre ++ [e]))).
  assert (Hx : forall e, e < 2 * P -> data x (pre ++ [e]) = Fin (xr e)).
  { intros e He. destruct (Hfin e He) as [r Hr]. unfold xr.
    rewrite Hr. reflexivity. }
  assert (Hy : forall p, p < P ->
            exists a,
              data x' (pre ++ [2 * p])
              = Fin (xr (2 * p)%nat * cos a - xr (2 * p + 1)%nat * sin a) /\
              data x' (pre ++ [2 * p + 1])
              = Fin (xr (2 * p)%nat * sin a + xr (2 * p + 1)%nat * cos a)).
  { intros p Hp. destruct (Hrot p Hp) as [a [E0 E1]]. exists a.
    rewrite E0, E1, !Hx by lia. split; reflexivity. }
  assert (Hy' : forall e, e < 2 * P -> data x' (pre ++ [e]) = Fin (yr e)).
  { intros e He.
    pose proof (Nat.div_mod_eq e 2) as Hdm.
    assert (Hp : e / 2 < P) by (apply Nat.Div0.div_lt_upper_bound; lia).
    destruct (Hy (e / 2) Hp) as [a [E0 E1]].
    pose proof (Nat.mod_upper_bound e 2) as Hm.
    unfold yr. destruct (e mod 2) as [|[|m]] eqn:Em.
    - replace e with (2 * (e / 2)) by lia. rewrite E0. reflexivity.
    - replace e with (2 * (e / 2) + 1) by lia. rewrite E1. reflexivity.
    - lia. }
  rewrite (fsum_Fin _ (fun e => (yr e * yr e)%R)).
  2: { intros e He. rewrite (Hy' e He). reflexivity. }
  rewrite (fsum_Fin _ (fun e => (xr e * xr e)%R)).
  2: { intros e He. rewrite (Hx e He). reflexivity. }
  f_equal. rewrite !rsum_pairs. apply rsum_ext. intros p Hp.
  destruct (Hy p Hp) as [a [E0 E1]].
  unfold yr. rewrite E0, E1. simpl fval_real.
  apply rotation_squares.
Qed.

(** The same for any vector: a channel that is not finite makes both
    squared norms NaN. *)
Lemma sqnorm_rotated (x x' : ndarray fval) (pre : list nat) (P : nat) :
  last (shape x) 0 = 2 * P ->
  last (shape x') 0 = 2 * P ->
  (forall p, p < P ->
     exists a,
       data x' (pre ++ [2 * p])
       = fsub (fmul (data x (pre ++ [2 * p])) (Fin (cos a)))
              (fmul (data x (pre ++ [2 * p + 1])) (Fin (sin a))) /\
       data x' (pre ++ [2 * p + 1])
       = fadd (fmul (data x (pre ++ [2 * p])) (Fin (sin a)))
              (fmul (data x (pre ++ [2 * p + 1])) (Fin (cos a)))) ->
  sqnorm_last x' pre = sqnorm_last x pre.
Proof.
  intros Lx Lx' Hrot.
  destruct (finite_or_NaN (fun e => data x (pre ++ [e])) (2 * P))
    as [Hfin|[e [He Hn]]].
  - apply (sqnorm_rotated_finite x x' pre P); assumption.
  - unfold sqnorm_last. rewrite Lx, Lx'.
    assert (Hp : e / 2 < P) by (apply Nat.Div0.div_lt_upper_bound; lia).
    destruct (Hrot (e / 2) Hp) as [a [E0 _]].
    assert (Hx' : data x' (pre ++ [2 * (e / 2)]) = NaN).
    { rewrite E0.
      pose proof (Nat.div_mod_eq e 2) as Hdm.
      pose proof (Nat.mod_upper_bound e 2) as Hm.
      destruct (e mod 2) as [|[|m]] eqn:Em.
      - replace (2 * (e / 2)) with e by lia. rewrite Hn. reflexivity.
      - replace (2 * (e / 2) + 1) with e by lia. rewrite Hn.
        destruct (data x (pre ++ [2 * (e / 2)])); reflexivity.
      - lia. }
    rewrite (fsum_NaN _ (seq 0 (2 * P)) (2 * (e / 2))).
    + rewrite (fsum_NaN _ (seq 0 (2 * P)) e); [reflexivity| |].
      * apply in_seq. lia.
      * rewrite Hn. reflexivity.
    + apply in_seq. pose proof (Nat.div_mod_eq e 2). lia.
    + rewrite Hx'. reflexivity.
Qed.

Lemma inv_freq_finite (theta : R) (dim j : nat) :
  dim <> 0 -> exists r, inv_freq theta dim j = Fin r.
Proof.
  intros Hd. unfold inv_freq, of_nat, fone, fpow, fdiv, flift2.
  destruct (Req_dec_T (INR dim) 0) as [E|_].
  - exfalso. apply (not_0_INR dim Hd). exact E.
  - destruct (Req_dec_T (Rpower theta (INR (2 * j) / INR dim)) 0) as [E|_].
    + exfalso. unfold Rpower in E.
      pose proof (exp_pos (INR (2 * j) / INR dim * ln theta)) as Hpos.
      rewrite E in Hpos. apply (Rlt_irrefl 0). exact Hpos.
    + eexists. reflexivity.
Qed.

(** The entries of the table built without scaling have modulus 1. *)
Lemma freq_table_entry (theta : R) (E n dim row j : nat) :
  dim <> 0 ->
  exists a,
    data (freq_table E n of_nat (inv_freq theta dim)) [row; j]
    = {| re := Fin (cos a); im := Fin (sin a) |}.
Proof.
  intros Hd. destruct (inv_freq_finite theta dim j Hd) as [r Hr].
  exists (INR row * r)%R. simpl. rewrite Hr. reflexivity.
Qed.

Lemma take0_table_row (table : ndarray complex) (pos : ndarray Z)
  (B S E P b s j : nat) :
  shape table = [E; P] ->
  shape pos = [B; S] ->
  (- Z.of_nat E <= data pos [b; s] < Z.of_nat E)%Z ->
  exists rows row,
    take0 cnan table pos = Ok rows /\
    shape rows = [B; S; P] /\
    data rows [b; s; j] = data table [row; j].
Proof.
  intros Ht Hp Hr. unfold take0. rewrite Ht.
  eexists.
  exists (Z.to_nat (if (data pos [b; s] <? 0)%Z
                    then data pos [b; s] + Z.of_nat E
                    else data pos [b; s])%Z).
  split; [reflexivity|].
  split; [simpl; rewrite Hp; reflexivity|].
  unfold ndim. simpl. rewrite Hp. simpl.
  destruct (data pos [b; s] <? 0)%Z eqn:En.
  - apply Z.ltb_lt in En.
    replace ((0 <=? data pos [b; s] + Z.of_nat E)%Z) with true
      by (symmetry; apply Z.leb_le; lia).
    replace ((data pos [b; s] + Z.of_nat E <? Z.of_nat E)%Z) with true
      by (symmetry; apply Z.ltb_lt; lia).
    reflexivity.
  - apply Z.ltb_ge in En.
    replace ((0 <=? data pos [b; s])%Z) with true
      by (symmetry; apply Z.leb_le; lia).
    replace ((data pos [b; s] <? Z.of_nat E)%Z) with true
      by (symmetry; apply Z.ltb_lt; lia).
    reflexivity.
Qed.

(** One operand rotated by frequencies of modulus 1 keeps the norm of
    each of its head vectors. *)
Lemma rotate_norm (x : ndarray fval) (fc : ndarray complex)
  (B S H P : nat) :
  shape x = [B; S; H; 2 * P] ->
  shape fc = [B; S; 1; P] ->
  0 < B -> 0 < S -> 0 < H ->
  (forall b s p, b < B -> s < S -> p < P ->
     exists a, data fc [b; s; 0; p]
               = {| re := Fin (cos a); im := Fin (sin a) |}) ->
  exists x',
    rotate x fc = Ok x' /\
    shape x' = shape x /\
    forall b s h, b < B -> s < S -> h < H ->
      l2norm_last x' [b; s; h] = l2norm_last x [b; s; h].
Proof.
  intros Hx Hf PB PS PH Hunit.
  destruct (rotate_data x fc B S H P Hx Hf PB PS PH) as [x' [Ex [Sx Dx]]].
  exists x'. split; [exact Ex|]. split; [congruence|].
  intros b s h Lb Ls Lh. unfold l2norm_last. f_equal.
  apply (sqnorm_rotated x x' [b; s; h] P).
  - rewrite Hx. reflexivity.
  - rewrite Sx. reflexivity.
  - intros p Lp. destruct (Hunit b s p Lb Ls Lp) as [a Ha].
    exists a. destruct (Dx b s h p Lb Ls Lh Lp) as [D0 D1].
    cbv zeta in D0, D1. rewrite Ha in D0, D1.
    change ([b; s; h] ++ [2 * p]) with [b; s; h; 2 * p].
    change ([b; s; h] ++ [2 * p + 1]) with [b; s; h; 2 * p + 1].
    rewrite D0, D1. split; reflexivity.
Qed.

(** C6 (amended): for position ids that index the rows of the
    frequency table (from [-end] to [end - 1]) and every query and key
    input, the rotation returns and keeps the L2 norm of every per-head
    query vector and of every per-head key vector. *)
Theorem rotary_preserves_norm
  (table : ndarray complex) (position_ids : ndarray Z)
  (q k : ndarray fval) (B S H Hk P E : nat) (theta scaling_factor : R) :
  precompute_freq_cis None (2 * P) E theta scaling_factor = Ok table ->
  shape position_ids = [B; S] ->
  shape q = [B; S; H; 2 * P] ->
  shape k = [B; S; Hk; 2 * P] ->
  0 < B -> 0 < S -> 0 < H -> 0 < Hk ->
  positions_in_table E position_ids ->
  exists q' k',
    rotary_embedding table position_ids q k = Ok (q', k') /\
    shape q' = shape q /\ shape k' = shape k /\
    (forall b s h, b < B -> s < S -> h < H ->
       l2norm_last q' [b; s; h] = l2norm_last q [b; s; h]) /\
    (forall b s h, b < B -> s < S -> h < Hk ->
       l2norm_last k' [b; s; h] = l2norm_last k [b; s; h]).
Proof.
  intros Ht Hp Hq Hk' PB PS PH PHk Hpos.
  assert (Etbl : table = freq_table E P of_nat (inv_freq theta (2 * P))).
  { unfold precompute_freq_cis in Ht.
    replace (2 * P / 2) with P in Ht
      by (rewrite Nat.mul_comm, Nat.div_mul; lia).
    congruence. }
  clear Ht. rename table into tbl.
  assert (St : shape tbl = [E; P]) by (subst tbl; reflexivity).
  unfold rotary_embedding.
  destruct (take0 cnan tbl position_ids) as [rows|e] eqn:Erows.
  2: { unfold take0 in Erows. rewrite St in Erows. discriminate. }
  assert (Sr : shape rows = [B; S; P]).
  { unfold take0 in Erows. rewrite St in Erows. inversion Erows.
    simpl. rewrite Hp. reflexivity. }
  simpl bind. unfold apply_rotary_emb. rewrite Sr.
  change (firstn 2 [B; S; P] ++ [1] ++ skipn 2 [B; S; P])
    with [B; S; 1; P].
  destruct (reshape_ok rows [B; S; 1; P]) as [fc Efc].
  { rewrite Sr. unfold size_of. simpl. ring. }
  rewrite Efc. simpl bind.
  pose proof (reshape_shape _ _ _ Efc) as Sfc.
  assert (Hunit : forall b s p, b < B -> s < S -> p < P ->
            exists a, data fc [b; s; 0; p]
                      = {| re := Fin (cos a); im := Fin (sin a) |}).
  { intros b s p Lb Ls Lp.
    assert (Hin : (- Z.of_nat E <= data position_ids [b; s] < Z.of_nat E)%Z).
    { apply Hpos. rewrite Hp. simpl.
      repeat (apply Bool.andb_true_iff; split); try reflexivity;
        apply Nat.ltb_lt; assumption. }
    destruct (take0_table_row tbl position_ids B S E P b s p St Hp Hin)
      as [rows' [row [Er' [_ Dr']]]].
    rewrite Erows in Er'. inversion Er'; subst rows'.
    destruct (freq_table_entry theta E P (2 * P) row p) as [a Ha]; [lia|].
    exists a. rewrite <- Ha, <- Etbl, <- Dr'.
    apply (reshape_data rows fc _ _ _ Efc).
    - rewrite Sr. simpl.
      repeat (apply Bool.andb_true_iff; split); try reflexivity;
        apply Nat.ltb_lt; assumption.
    - rewrite Sr. simpl. ring. }
  destruct (rotate_norm q fc B S H P Hq Sfc PB PS PH Hunit)
    as [q' [Eq [Sq Nq]]].
  destruct (rotate_norm k fc B S Hk P Hk' Sfc PB PS PHk Hunit)
    as [k' [Ek [Sk Nk]]].
  rewrite Eq. simpl bind. rewrite Ek. simpl bind.
  exists q', k'. repeat split; assumption.
Qed.

Lemma rotary_preserves_norm_witness :
  exists q' k',
    rotary_embedding small_table (full [1; 1] 1%Z) vec34 vec34
    = Ok (q', k') /\
    l2norm_last q' [0; 0; 0] = l2norm_last vec34 [0; 0; 0].
Proof.
  destruct (rotary_preserves_norm small_table (full [1; 1] 1%Z) vec34 vec34
              1 1 1 1 1 2 default_theta 1)
    as [q' [k' [E [_ [_ [N _]]]]]].
  - reflexivity.
  - reflexivity.
  - reflexivity.
  - reflexivity.
  - lia.
  - lia.
  - lia.
  - lia.
  - intros ix _. simpl. lia.
  - exists q', k'. split; [exact E|]. apply N; lia.
Defined.

(** C6, as stated, fails for a position outside the table: position 2
    in a table of two rows selects a row of NaN, and the rotated vector
    has no norm. *)
Lemma rotary_out_of_table_counterexample :
  exists q' k',
    rotary_embedding small_table (full [1; 1] 2%Z) vec34 vec34
    = Ok (q', k') /\
    l2norm_last q' [0; 0; 0] = NaN /\
    l2norm_last vec34 [0; 0; 0] = Fin (sqrt (3 * 3 + (4 * 4 + 0))) /\
    l2norm_last q' [0; 0; 0] <> l2norm_last vec34 [0; 0; 0].
Proof.
  eexists. eexists. split; [reflexivity|].
  assert (H1 : forall q' : ndarray fval,
            l2norm_last q' [0; 0; 0] = NaN ->
            l2norm_last vec34 [0; 0; 0] = Fin (sqrt (3 * 3 + (4 * 4 + 0))) ->
            l2norm_last q' [0; 0; 0] <> l2norm_last vec34 [0; 0; 0]).
  { intros q' Ha Hb. rewrite Ha, Hb. discriminate. }
  assert (Hv : l2norm_last vec34 [0; 0; 0]
               = Fin (sqrt (3 * 3 + (4 * 4 + 0)))) by reflexivity.
  split; [|split; [exact Hv|apply H1; [|exact Hv]]]; reflexivity.
Qed.

(* ================================================================== *)
(** ** Concrete runs *)

Lemma cache_append_witness :
  exists c' am',
    concatenate_to_cache_ (Some (small_cache 4 1)) (new_tokens 2)
      (new_tokens 2) (new_tokens 2) (ones_mask4 4)
    = Ok (c', (new_tokens 2, cache_key c', cache_value c', am')) /\
    cache_index c' = 3%Z /\
    data (cache_key c') [0; 0; 0; 0] = fzero /\
    data (cache_key c') [0; 1; 0; 0] = fone /\
    data (cache_key c') [0; 2; 0; 0] = fone /\
    data (cache_key c') [0; 3; 0; 0] = fzero.
Proof.
  destruct (cache_append (small_cache 4 1) (new_tokens 2) (new_tokens 2)
              (new_tokens 2) (ones_mask4 4) 1 4 1 1 2 1 1)
    as [c' [am' [E [Hi [_ [_ [_ [_ Hd]]]]]]]].
  - reflexivity.
  - reflexivity.
  - reflexivity.
  - reflexivity.
  - reflexivity.
  - reflexivity.
  - simpl. lia.
  - simpl. lia.
  - lia.
  - exists c', am'. split; [exact E|]. split; [exact Hi|].
    repeat split.
    + apply (Hd 0 0 0 0); lia.
    + apply (Hd 0 1 0 0); lia.
    + apply (Hd 0 2 0 0); lia.
    + apply (Hd 0 3 0 0); lia.
Defined.

(** C2, as stated, fails on a full cache: the append of one token at
    cursor 4 into a buffer of 4 positions raises nothing, overwrites
    the last position and moves the cursor to 5. *)
Lemma cache_append_overflow_counterexample :
  (cache_index (small_cache 4 4) + 1 > 4)%Z /\
  ~ raises (concatenate_to_cache_ (Some (small_cache 4 4)) (new_tokens 1)
              (new_tokens 1) (new_tokens 1) (ones_mask4 4)) /\
  exists c' out,
    concatenate_to_cache_ (Some (small_cache 4 4)) (new_tokens 1)
      (new_tokens 1) (new_tokens 1) (ones_mask4 4) = Ok (c', out) /\
    cache_index c' = 5%Z /\
    data (cache_key (small_cache 4 4)) [0; 3; 0; 0] = fzero /\
    data (cache_key c') [0; 3; 0; 0] = fone.
Proof.
  split; [simpl; lia|]. split.
  - intros [e He]. discriminate He.
  - eexists. eexists. split; [reflexivity|].
    repeat split.
Qed.

Lemma grouped_query_attention_witness :
  exists k' w,
    repeat_kv (full [1; 1; 1; 1] fone) 2 = Ok k' /\
    dot_product_attention_weights (full [1; 1; 2; 1] fone) k'
      (full [1; 1; 1; 1] fzero) = Ok w.
Proof.
  destruct (grouped_query_attention (full [1; 1; 2; 1] fone)
              (full [1; 1; 1; 1] fone) (full [1; 1; 1; 1] fone)
              (full [1; 1; 1; 1] fzero) 1 1 1 1 2 1
              eq_refl eq_refl eq_refl eq_refl)
    as [k' [v' [w [out [Ek [_ [Ew _]]]]]]].
  exists k', w. split; assumption.
Defined.

Lemma tied_lm_head_witness :
  raises (FlaxMistralForCausalLMModule tied_config tiny_lm_params []
            tiny_tables [] prompt_ids prompt_mask prompt_positions None
            false false false true).
Proof.
  apply tied_lm_head_raises. reflexivity.
Defined.

(* ================================================================== *)
(** ** The frequency table of the model *)

Example setup_tiny_config : FlaxMistralModule_setup tiny_config = Ok tiny_tables.
Proof. reflexivity. Qed.

Lemma inv_freq_value (theta : R) (dim j : nat) :
  dim <> 0 ->
  inv_freq theta dim j = Fin (1 / Rpower theta (INR (2 * j) / INR dim)).
Proof.
  intros Hd. unfold inv_freq, of_nat, fone, fpow, fdiv, flift2.
  destruct (Req_dec_T (INR dim) 0) as [E|_].
  - exfalso. apply (not_0_INR dim Hd). exact E.
  - destruct (Req_dec_T (Rpower theta (INR (2 * j) / INR dim)) 0) as [E|_].
    + exfalso. unfold Rpower in E.
      pose proof (exp_pos (INR (2 * j) / INR dim * ln theta)) as Hpos.
      rewrite E in Hpos. apply (Rlt_irrefl 0). exact Hpos.
    + reflexivity.
Qed.

Lemma collection_step_same (fc : ndarray complex) (l1 l2 : layer_fn)
  cache am cm pos init_cache ohs st :
  same_at_table fc l1 l2 ->
  collection_step l1 cache fc am cm pos init_cache ohs st
  = collection_step l2 cache fc am cm pos init_cache ohs st.
Proof.
  intros H. unfold collection_step.
  destruct (if ohs then _ else _) as [ahs|e]; [|reflexivity]. simpl.
  destruct (truthy (ls_output_attentions st)) as [oa|e]; [|reflexivity].
  simpl. rewrite (H cache (ls_hidden_state st) am cm pos init_cache oa).
  reflexivity.
Qed.

Lemma collection_loop_same (fc : ndarray complex)
  (layers1 layers2 : list layer_fn) :
  Forall2 (same_at_table fc) layers1 layers2 ->
  forall caches am cm pos init_cache ohs st,
    collection_loop layers1 caches fc am cm pos init_cache ohs st
    = collection_loop layers2 caches fc am cm pos init_cache ohs st.
Proof.
  induction 1 as [|l1 l2 ls1 ls2 Hl _ IH]; intros; [reflexivity|].
  simpl. rewrite (collection_step_same fc l1 l2) by exact Hl.
  destruct (collection_step l2 _ _ _ _ _ _ _ _) as [[c st']|e];
    [|reflexivity].
  simpl. rewrite IH. reflexivity.
Qed.

(** The frequency table of the model is built by [setup], once, by
    [precompute_freq_cis] without rope scaling (method [None]) for the
    head dimension [hidden_size // num_attention_heads] and
    [2 * max_position_embeddings] positions; and a forward call passes
    this table, unchanged, to every decoder layer: the call is
    determined by what the layers do with this table. *)
Theorem freq_table_setup_and_sharing
  (config : MistralConfig) (tables : module_tables) :
  FlaxMistralModule_setup config = Ok tables ->
  (exists theta,
     precompute_freq_cis None
       (hidden_size config / num_attention_heads config)
       (max_position_embeddings config * 2) theta 1
     = Ok (freq_cis tables)) /\
  (forall p layers1 layers2 caches input_ids am pos input_embeds
          init_cache oa ohs return_dict,
     Forall2 (same_at_table (freq_cis tables)) layers1 layers2 ->
     FlaxMistralModule config p layers1 tables caches input_ids am pos
       input_embeds init_cache oa ohs return_dict
     = FlaxMistralModule config p layers2 tables caches input_ids am pos
         input_embeds init_cache oa ohs return_dict).
Proof.
  intros Hsetup. split.
  - exists default_theta. unfold FlaxMistralModule_setup, floordiv in Hsetup.
    destruct (num_attention_heads config =? 0); [discriminate|].
    simpl in Hsetup. inversion Hsetup. reflexivity.
  - intros. unfold FlaxMistralModule.
    destruct (match input_embeds with
              | Some e => Ok e
              | None => embed (embed_tokens p) input_ids
              end) as [e|e]; [|reflexivity].
    simpl.
    destruct (match shape am with
              | [b; s] => reshape am [b; 1; 1; s]
              | _ => Ok am
              end) as [m|err]; [|reflexivity].
    simpl. unfold FlaxMistralDecoratorCollection.
    rewrite (collection_loop_same (freq_cis tables) layers1 layers2)
      by assumption.
    reflexivity.
Qed.

Lemma freq_table_setup_and_sharing_witness :
  exists theta,
    precompute_freq_cis None 4 8 theta 1 = Ok (freq_cis tiny_tables).
Proof.
  destruct (freq_table_setup_and_sharing tiny_config tiny_tables eq_refl)
    as [H _].
  exact H.
Defined.

(** For [rope_theta = 1000000] the table of the model differs, at
    position 1 and frequency 1, from the table that
    [precompute_freq_cis] builds for that base. *)
Lemma freq_table_ignores_rope_theta :
  exists claimed,
    FlaxMistralModule_setup tiny_config = Ok tiny_tables /\
    precompute_freq_cis None 4 8 (rope_theta tiny_config) 1 = Ok claimed /\
    data (freq_cis tiny_tables) [1; 1] <> data claimed [1; 1] /\
    ~ array_eq (freq_cis tiny_tables) claimed.
Proof.
  eexists. split; [reflexivity|]. split; [reflexivity|].
  assert (Hne : data (freq_cis tiny_tables) [1; 1]
                <> data (freq_table 8 (4 / 2) of_nat
                           (inv_freq (rope_theta tiny_config) 4)) [1; 1]).
  { unfold tiny_tables, freq_table. cbn [freq_cis data rope_theta tiny_config].
    rewrite !inv_freq_value by discriminate.
    unfold default_theta, of_nat, fmul, fcos, fsin, flift1, flift2.
    set (y := (INR (2 * 1) / INR 4)%R).
    assert (Hy : (0 < y)%R).
    { unfold y. simpl. lra. }
    assert (H1 : (1 < Rpower 10000 y)%R).
    { replace 1%R with (Rpower 1 y) at 1.
      - apply Rlt_Rpower_l; [exact Hy | lra].
      - unfold Rpower. rewrite ln_1, Rmult_0_r. apply exp_0. }
    assert (H2 : (Rpower 10000 y < Rpower 1000000 y)%R).
    { apply Rlt_Rpower_l; [exact Hy | lra]. }
    assert (H3 : (/ Rpower 1000000 y < / Rpower 10000 y)%R).
    { apply Rinv_1_lt_contravar; [lra | exact H2]. }
    assert (H4 : (/ Rpower 10000 y < 1)%R).
    { rewrite <- Rinv_1. apply Rinv_1_lt_contravar; [lra | exact H1]. }
    assert (H5 : (0 < / Rpower 1000000 y)%R).
    { apply Rinv_0_lt_compat. lra. }
    pose proof PI2_1 as Hpi.
    intros Heq. injection Heq as Hc _. revert Hc.
    apply Rlt_not_eq.
    apply cos_decreasing_1; simpl INR; lra. }
  split; [exact Hne|].
  intros [_ Hd]. apply Hne. apply Hd. reflexivity.
Qed.

(** C8: [setup] does not read the config's [rope_theta].  The table is
    always the one of [precompute_freq_cis] for the default base 10000,
    without rope scaling and with the scaling factor 1 (lines 684-689
    pass no [theta] and the method [None]); a config with another
    [rope_theta] gets the same tables; and for [rope_theta = 1000000]
    the table of the model is not the one that [precompute_freq_cis]
    builds from the config's [rope_theta]. *)
Theorem setup_ignores_rope_theta :
  (forall config tables,
     FlaxMistralModule_setup config = Ok tables ->
     precompute_freq_cis None
       (hidden_size config / num_attention_heads config)
       (max_position_embeddings config * 2) default_theta 1
     = Ok (freq_cis tables)) /\
  (forall config theta,
     FlaxMistralModule_setup (set_rope_theta theta config)
     = FlaxMistralModule_setup config) /\
  (exists from_config,
     rope_theta tiny_config = 1000000%R /\
     FlaxMistralModule_setup tiny_config = Ok tiny_tables /\
     precompute_freq_cis None
       (hidden_size tiny_config / num_attention_heads tiny_config)
       (max_position_embeddings tiny_config * 2)
       (rope_theta tiny_config) 1 = Ok from_config /\
     data (freq_cis tiny_tables) [1; 1] <> data from_config [1; 1] /\
     ~ array_eq (freq_cis tiny_tables) from_config).
Proof.
  split; [|split].
  - intros config tables Hsetup.
    unfold FlaxMistralModule_setup, floordiv in Hsetup.
    destruct (num_attention_heads config =? 0); [discriminate|].
    simpl in Hsetup. inversion Hsetup. reflexivity.
  - intros config theta. reflexivity.
  - destruct freq_table_ignores_rope_theta
      as [claimed [E1 [E2 [Hne Hneq]]]].
    exists claimed. split; [reflexivity|]. split; [exact E1|].
    split; [exact E2|]. split; [exact Hne | exact Hneq].
Qed.

(* ================================================================== *)
(** ** Masks of the attention call *)

Lemma mem_nat_other (p : nat) (dims : list nat) :
  (forall d, In d dims -> d <> p) -> mem_nat p dims = false.
Proof.
  intros H. unfold mem_nat.
  destruct (existsb (Nat.eqb p) dims) eqn:E; [|reflexivity].
  apply existsb_exists in E. destruct E as [d [Hin Heq]].
  apply Nat.eqb_eq in Heq. subst d. exfalso. apply (H p Hin). reflexivity.
Qed.

Lemma mem_nat_below (p : nat) (dims : list nat) :
  (forall d, In d dims -> d < p) -> mem_nat p dims = false.
Proof.
  intros H. apply mem_nat_other. intros d Hd. specialize (H d Hd). lia.
Qed.

Lemma expand_shape_tail (dims s : list nat) :
  forall p, (forall d, In d dims -> d < p) ->
            expand_shape dims p (List.length s) s = s.
Proof.
  induction s as [|a s IH]; intros p H; [reflexivity|].
  simpl. rewrite mem_nat_below by exact H.
  rewrite IH; [reflexivity|].
  intros d Hd. specialize (H d Hd). lia.
Qed.

(** Two new axes before the last [length s2] axes. *)
Lemma expand_shape_two (s1 s2 : list nat) :
  forall p,
    expand_shape [p + List.length s1; p + List.length s1 + 1] p
      (List.length s1 + 2 + List.length s2) (s1 ++ s2)
    = s1 ++ [1; 1] ++ s2.
Proof.
  induction s1 as [|a s1 IH]; intros p.
  - simpl List.length. rewrite Nat.add_0_r.
    assert (M0 : mem_nat p [p; p + 1] = true).
    { unfold mem_nat. cbn [existsb]. rewrite Nat.eqb_refl. reflexivity. }
    assert (M1 : mem_nat (Datatypes.S p) [p; p + 1] = true).
    { unfold mem_nat. cbn [existsb].
      replace (Datatypes.S p =? p + 1) with true
        by (symmetry; apply Nat.eqb_eq; lia).
      apply Bool.orb_true_iff. right. reflexivity. }
    change (0 + 2 + List.length s2)
      with (Datatypes.S (Datatypes.S (List.length s2))).
    cbn [expand_shape app]. rewrite M0, M1.
    rewrite expand_shape_tail; [reflexivity|].
    intros d [<-|[<-|[]]]; lia.
  - simpl List.length. simpl app.
    replace (Datatypes.S (List.length s1) + 2 + List.length s2)
      with (Datatypes.S (List.length s1 + 2 + List.length s2)) by lia.
    cbn [expand_shape].
    rewrite mem_nat_other.
    + replace (p + Datatypes.S (List.length s1))
        with (Datatypes.S p + List.length s1) by lia.
      rewrite IH. reflexivity.
    + intros d [<-|[<-|[]]]; lia.
Qed.

Lemma canonicalize_last_axes (k : nat) :
  canonicalize_axes [(-3)%Z; (-2)%Z] (k + 2)
  = if k =? 0 then Raise ValueError else Ok [k - 1; k].
Proof.
  unfold canonicalize_axes, canonicalize_axis.
  change ((-3 <? 0)%Z) with true. change ((-2 <? 0)%Z) with true.
  cbv iota.
  replace ((-3 <? Z.of_nat (k + 2))%Z) with true
    by (symmetry; apply Z.ltb_lt; lia).
  replace ((-2 <? Z.of_nat (k + 2))%Z) with true
    by (symmetry; apply Z.ltb_lt; lia).
  replace ((- Z.of_nat (k + 2) <=? -2)%Z) with true
    by (symmetry; apply Z.leb_le; lia).
  rewrite !Bool.andb_true_r.
  destruct (k =? 0) eqn:Ek.
  - apply Nat.eqb_eq in Ek. subst k. reflexivity.
  - apply Nat.eqb_neq in Ek.
    replace ((- Z.of_nat (k + 2) <=? -3)%Z) with true
      by (symmetry; apply Z.leb_le; lia).
    cbv iota. unfold bind.
    replace (Z.to_nat (-3 + Z.of_nat (k + 2))) with (k - 1) by lia.
    replace (Z.to_nat (-2 + Z.of_nat (k + 2))) with k by lia.
    reflexivity.
Qed.

Lemma expand_shape_last_axes (s : list nat) :
  1 <= List.length s ->
  expand_shape [List.length s - 1; List.length s] 0 (List.length s + 2) s
  = firstn (List.length s - 1) s ++ [1; 1] ++ skipn (List.length s - 1) s.
Proof.
  intros Hk.
  set (s1 := firstn (List.length s - 1) s).
  set (s2 := skipn (List.length s - 1) s).
  assert (Hs : s = s1 ++ s2) by (symmetry; apply firstn_skipn).
  assert (L1 : List.length s1 = List.length s - 1).
  { unfold s1. rewrite length_firstn. lia. }
  assert (L2 : List.length s2 = 1).
  { unfold s2. rewrite length_skipn. lia. }
  replace [List.length s - 1; List.length s]
    with [0 + List.length s1; 0 + List.length s1 + 1]
    by (rewrite L1; simpl; repeat f_equal; lia).
  replace (List.length s + 2)
    with (List.length s1 + 2 + List.length s2) by lia.
  rewrite Hs at 1. apply expand_shape_two.
Qed.

(** [expand_dims(a, (-3, -2))] adds two axes. *)
Lemma expand_dims_rank {A : Type} (a a' : ndarray A) :
  expand_dims a [(-3)%Z; (-2)%Z] = Ok a' -> ndim a' = ndim a + 2.
Proof.
  unfold expand_dims.
  change (List.length [(-3)%Z; (-2)%Z]) with 2.
  rewrite canonicalize_last_axes.
  destruct (ndim a =? 0) eqn:Ek; [discriminate|].
  apply Nat.eqb_neq in Ek. unfold bind.
  destruct (negb (distinct _)); [discriminate|].
  intros H. inversion H; subst a'. unfold ndim in *. simpl shape.
  rewrite expand_shape_last_axes by lia.
  rewrite !length_app, length_firstn, length_skipn. simpl. lia.
Qed.

Lemma broadcast_to_rank {A : Type} (a a' : ndarray A) (target : list nat) :
  broadcast_to a target = Ok a' ->
  shape a' = target /\ ndim a <= List.length target.
Proof.
  unfold broadcast_to. intros H.
  destruct (List.length target <? ndim a) eqn:E; [discriminate|].
  apply Nat.ltb_ge in E.
  destruct (dims_compatible _ _); [|discriminate].
  inversion H. split; [reflexivity | exact E].
Qed.

Lemma bshape_length (s1 s2 r : list nat) :
  bshape s1 s2 = Some r -> List.length r = List.length s1.
Proof.
  revert s2 r. induction s1 as [|d1 s1 IH]; intros [|d2 s2] r H;
    simpl in H; try discriminate.
  - inversion H. reflexivity.
  - destruct (bshape s1 s2) as [r'|] eqn:E; [|discriminate].
    specialize (IH _ _ E).
    destruct (d1 =? d2); [inversion H; simpl; congruence|].
    destruct (d1 =? 1); [inversion H; simpl; congruence|].
    destruct (d2 =? 1); [inversion H; simpl; congruence|].
    discriminate.
Qed.

Lemma combine_masks_rank (a b m : ndarray bool) :
  combine_masks a b = Ok m -> ndim m = ndim a.
Proof.
  unfold combine_masks, binop, broadcast_shapes. intros H.
  destruct (ndim a =? ndim b) eqn:E; [|discriminate].
  apply Nat.eqb_eq in E. unfold ndim in E.
  destruct (bshape _ _) as [r|] eqn:Er; [|discriminate].
  apply bshape_length in Er. inversion H. unfold ndim. simpl.
  rewrite Er. unfold pad_left. rewrite length_app, repeat_length.
  rewrite <- E. lia.
Qed.

(** Lines 360-362 raise for an attention mask of rank three or more:
    the two extra axes make it of higher rank than the causal window,
    which has rank four. *)
Lemma merge_masks_raises (batch_size : nat) (am cw : ndarray bool) :
  ndim cw = 4 -> 3 <= ndim am -> raises (merge_masks batch_size am cw).
Proof.
  intros Hcw Ham. unfold merge_masks.
  apply raises_bind_r; intros cw' Hcw'.
  apply broadcast_to_rank in Hcw'. destruct Hcw' as [Scw' _].
  assert (L : List.length (shape cw') = 4).
  { rewrite Scw'. unfold ndim in Hcw.
    destruct (shape cw) as [|d rest]; [discriminate|]. simpl in *. lia. }
  apply raises_bind_r; intros ex Hex.
  apply expand_dims_rank in Hex.
  apply raises_bind_l. unfold broadcast_to.
  replace (List.length (shape cw') <? ndim ex) with true
    by (symmetry; apply Nat.ltb_lt; lia).
  apply raises_Raise.
Qed.

Lemma dynamic_slice_shape {A : Type} (a a' : ndarray A) starts sizes :
  dynamic_slice a starts sizes = Ok a' -> shape a' = sizes.
Proof.
  unfold dynamic_slice. intros H.
  destruct (negb _); [discriminate|].
  destruct (negb _); [discriminate|].
  inversion H. reflexivity.
Qed.

(** After an append the attention mask has the rank of the padding
    mask, three more than the batch axes of the cache. *)
Lemma concatenate_mask_rank c q k v am c' q' k' v' am' :
  concatenate_to_cache_ (Some c) q k v am = Ok (c', (q', k', v', am')) ->
  3 <= ndim am'.
Proof.
  unfold concatenate_to_cache_. intros H.
  destruct (rev (shape (cache_key c))) as [|dph [|nh [|ml rev_bd]]];
    try discriminate.
  apply bind_Ok_inv in H. destruct H as [kb [_ H]].
  apply bind_Ok_inv in H. destruct H as [vb [_ H]].
  destruct (shape q) as [|q0 [|n rest]]; try discriminate.
  apply bind_Ok_inv in H. destruct H as [pad [Hpad H]].
  apply bind_Ok_inv in H. destruct H as [m [Hm H]].
  inversion H; subst.
  apply combine_masks_rank in Hm. rewrite Hm.
  apply broadcast_to_rank in Hpad. destruct Hpad as [Sp _].
  unfold ndim. rewrite Sp, length_app. simpl. lia.
Qed.

Lemma causal_window_cached_rank c cm q_l k_l cw :
  causal_window (Some c) cm q_l k_l = Ok cw -> ndim cw = 4.
Proof.
  unfold causal_window. intros H.
  destruct (shape (cache_key c)) as [|d0 [|dl rest]]; try discriminate.
  apply dynamic_slice_shape in H. unfold ndim. rewrite H. reflexivity.
Qed.

Lemma causal_window_free_rank cm q_l k_l cw :
  ndim cm = 4 -> causal_window None cm q_l k_l = Ok cw -> ndim cw = 4.
Proof.
  unfold causal_window, slice_prefix4, ndim. intros Hcm H.
  destruct (shape cm) as [|d0 [|d1 [|d2 [|d3 rest]]]]; try discriminate.
  inversion H. simpl in *. exact Hcm.
Qed.

(** Every attention call that finds a cache raises: the mask that
    [concatenate_to_cache_] returns has the rank of the padding mask,
    and line 361 adds two axes to it before it broadcasts it to the
    rank-4 causal window. *)
Lemma attention_with_cache_raises
  config dt p c hidden_state fc am cm pos init_cache oa :
  raises (FlaxMistralAttention config dt p (Some c) hidden_state fc am cm
            pos init_cache oa).
Proof.
  unfold FlaxMistralAttention.
  apply raises_bind_r; intros head_dim _.
  apply raises_bind_r; intros groups _.
  destruct (shape hidden_state) as [|batch_size [|seq rest]];
    try apply raises_Raise.
  do 6 (apply raises_bind_r; intros ? _).
  apply raises_bind_r; intros qk _.
  apply raises_bind_r; intros k _.
  apply raises_bind_r; intros v _.
  apply raises_bind_r; intros st Hst.
  apply bind_Ok_inv in Hst.
  destruct Hst as [[c' [[[q' k'] v'] am']] [Hcat Hst]].
  inversion Hst; subst st. clear Hst. cbn [fst snd].
  apply concatenate_mask_rank in Hcat.
  by_rank2.
  apply raises_bind_r; intros cw Hcw.
  apply causal_window_cached_rank in Hcw.
  apply raises_bind_l. apply merge_masks_raises; assumption.
Qed.

(** Without a cache the call raises as well when the attention mask has
    rank three or more, as the rank-4 mask of [FlaxMistralModule]. *)
Lemma attention_rank4_mask_raises
  config dt p hidden_state fc am cm pos init_cache oa :
  3 <= ndim am -> ndim cm = 4 ->
  raises (FlaxMistralAttention config dt p None hidden_state fc am cm
            pos init_cache oa).
Proof.
  intros Ham Hcm. unfold FlaxMistralAttention.
  apply raises_bind_r; intros head_dim _.
  apply raises_bind_r; intros groups _.
  destruct (shape hidden_state) as [|batch_size [|seq rest]];
    try apply raises_Raise.
  do 6 (apply raises_bind_r; intros ? _).
  apply raises_bind_r; intros qk _.
  apply raises_bind_r; intros k _.
  apply raises_bind_r; intros v _.
  apply raises_bind_r; intros st Hst.
  destruct init_cache.
  - apply bind_Ok_inv in Hst.
    destruct Hst as [[c' [[[q' k'] v'] am']] [Hcat Hst]].
    inversion Hst; subst st. clear Hst. cbn [fst snd].
    unfold concatenate_to_cache_ in Hcat. inversion Hcat; subst.
    by_rank2.
    apply raises_bind_r; intros cw Hcw.
    apply causal_window_cached_rank in Hcw.
    apply raises_bind_l. apply merge_masks_raises; assumption.
  - inversion Hst; subst st. clear Hst.
    by_rank2.
    apply raises_bind_r; intros cw Hcw.
    apply causal_window_free_rank in Hcw; [|exact Hcm].
    apply raises_bind_l. apply merge_masks_raises; assumption.
Qed.

Lemma decoder_layer_raises
  config dt act_fn lp cache hidden_state fc am cm pos init_cache oa :
  3 <= ndim am -> ndim cm = 4 ->
  raises (FlaxMistralDecoderLayer config dt act_fn lp cache hidden_state fc
            am cm pos init_cache oa).
Proof.
  intros Ham Hcm. unfold FlaxMistralDecoderLayer.
  apply raises_bind_r; intros normed _.
  apply raises_bind_l.
  destruct cache as [c|].
  - apply attention_with_cache_raises.
  - apply attention_rank4_mask_raises; assumption.
Qed.

Lemma module_mask_rank (am am' : ndarray bool) (B S : nat) :
  shape am = [B; S] -> reshape am [B; 1; 1; S] = Ok am' -> ndim am' = 4.
Proof.
  intros _ H. apply reshape_shape in H. unfold ndim. rewrite H. reflexivity.
Qed.

Lemma setup_causal_mask_rank config tables :
  FlaxMistralModule_setup config = Ok tables -> ndim (causal_mask tables) = 4.
Proof.
  unfold FlaxMistralModule_setup. intros H.
  apply bind_Ok_inv in H. destruct H as [dim [_ H]].
  apply bind_Ok_inv in H. destruct H as [table [_ H]].
  inversion H. reflexivity.
Qed.

(** C1: the two sides of the comparison produce no logits.
    (1) Every attention call that finds an initialised cache raises, so
    no incremental step returns.  (2) With at least one decoder layer,
    every forward call with an attention mask of shape [batch, seq]
    raises, with or without caches: [FlaxMistralModule] reshapes the
    mask to rank 4 and line 361 of the attention call expands it to
    rank 6 before it broadcasts it to the rank-4 causal mask. *)
Theorem forward_pass_raises :
  (forall config dt p c hidden_state fc am cm pos init_cache oa,
     raises (FlaxMistralAttention config dt p (Some c) hidden_state fc am
               cm pos init_cache oa)) /\
  (forall config dt act_fn p lp lps tables caches input_ids am pos
          input_embeds init_cache oa ohs return_dict B S,
     FlaxMistralModule_setup config = Ok tables ->
     shape am = [B; S] ->
     raises (FlaxMistralForCausalLMModule config p
               (map (FlaxMistralDecoderLayer config dt act_fn) (lp :: lps))
               tables caches input_ids am pos input_embeds init_cache oa
               ohs return_dict)).
Proof.
  split; [intros; apply attention_with_cache_raises|].
  intros config dt act_fn p lp lps tables caches input_ids am pos
    input_embeds init_cache oa ohs return_dict B S Hsetup Ham.
  apply setup_causal_mask_rank in Hsetup.
  unfold FlaxMistralForCausalLMModule.
  destruct (shape input_ids) as [|b [|s [|? ?]]]; try apply raises_Raise.
  apply raises_bind_l. unfold FlaxMistralModule.
  apply raises_bind_r; intros embeds _.
  rewrite Ham.
  apply raises_bind_r; intros am' Ham'.
  apply (module_mask_rank am am' B S Ham) in Ham'.
  apply raises_bind_l. unfold FlaxMistralDecoratorCollection.
  apply raises_bind_l. cbn [map collection_loop].
  apply raises_bind_l. unfold collection_step.
  apply raises_bind_r; intros ahs _.
  apply raises_bind_r; intros t _.
  apply raises_bind_l. cbn [ls_hidden_state].
  apply decoder_layer_raises; [lia | exact Hsetup].
Qed.

(* ================================================================== *)
(** ** Shape of the cache *)

Lemma is_ok_returns {A : Type} (r : result A) :
  is_ok r = true -> exists a, r = Ok a.
Proof. destruct r as [a|e]; [exists a; reflexivity | discriminate]. Qed.

Lemma floordiv_Ok (a b c : nat) :
  floordiv a b = Ok c -> b <> 0 /\ c = a / b.
Proof.
  unfold floordiv. destruct (b =? 0) eqn:E; [discriminate|].
  apply Nat.eqb_neq in E. intros H. inversion H. split; [exact E|reflexivity].
Qed.

Lemma dense_shape (features : nat) (kernel x y : ndarray fval) :
  dense features kernel x = Ok y ->
  shape y = removelast (shape x) ++ [features].
Proof.
  unfold dense. intros H.
  destruct (shape kernel) as [|n_in [|n_out [|? ?]]]; try discriminate.
  destruct (rev (shape x)) as [|d rest]; [discriminate|].
  destruct ((d =? n_in) && (n_out =? features)) eqn:E; [|discriminate].
  apply Bool.andb_true_iff in E. destruct E as [_ E].
  apply Nat.eqb_eq in E. subst n_out. inversion H. reflexivity.
Qed.

(** [x.reshape(batch, seq, -1, head_dim)] of a projection of
    [N * D] features: [N] heads of dimension [D]. *)
Lemma reshape_infer_heads {A : Type} (x y : ndarray A) (B S N D : nat) :
  shape x = [B; S; N * D] ->
  reshape_infer x [Some B; Some S; None; Some D] = Ok y ->
  shape y = [B; S; N; D] /\ 0 < B /\ 0 < S /\ 0 < D.
Proof.
  intros Hx H. unfold reshape_infer in H.
  apply bind_Ok_inv in H. destruct H as [news [Hn H]].
  apply reshape_shape in H. rewrite H. clear H.
  rewrite Hx in Hn.
  destruct (Nat.eq_dec (B * S * D) 0) as [Hz|Hnz].
  - exfalso. unfold infer_shape in Hn. simpl in Hn.
    replace (B * (S * (D * 1)) =? 0) with true in Hn
      by (symmetry; apply Nat.eqb_eq; lia).
    discriminate.
  - change [Some B; Some S; None; Some D]
      with (map Some [B; S] ++ [None] ++ map Some [D]) in Hn.
    rewrite (infer_shape_one _ N [B; S] [D]) in Hn.
    + inversion Hn. split; [reflexivity|]. nia.
    + unfold size_of. simpl. ring.
    + unfold size_of. simpl. lia.
Qed.

(** The rotary embedding of well-shaped operands returns operands of
    the same shapes. *)
Lemma rotary_embedding_returns
  (table : ndarray complex) (pos : ndarray Z) (q k : ndarray fval)
  (B S H Hk P E : nat) :
  shape table = [E; P] ->
  shape pos = [B; S] ->
  shape q = [B; S; H; 2 * P] ->
  shape k = [B; S; Hk; 2 * P] ->
  0 < B -> 0 < S -> 0 < H -> 0 < Hk ->
  exists q' k',
    rotary_embedding table pos q k = Ok (q', k') /\
    shape q' = [B; S; H; 2 * P] /\ shape k' = [B; S; Hk; 2 * P].
Proof.
  intros St Hp Hq Hk' PB PS PH PHk.
  unfold rotary_embedding, take0. rewrite St. unfold bind at 1.
  unfold apply_rotary_emb. cbn [shape]. rewrite Hp.
  change (firstn 2 ([B; S] ++ [P]) ++ [1] ++ skipn 2 ([B; S] ++ [P]))
    with [B; S; 1; P].
  match goal with
  | |- context [reshape ?rows [B; S; 1; P]] =>
      destruct (reshape_ok rows [B; S; 1; P]) as [fc Efc];
        [cbn [shape]; unfold size_of; simpl; ring|]
  end.
  rewrite Efc. unfold bind at 1.
  pose proof (reshape_shape _ _ _ Efc) as Sfc.
  destruct (rotate_data q fc B S H P Hq Sfc PB PS PH) as [q' [Eq [Sq _]]].
  destruct (rotate_data k fc B S Hk P Hk' Sfc PB PS PHk) as [k' [Ek [Sk _]]].
  rewrite Eq. unfold bind at 1. rewrite Ek. unfold bind.
  exists q', k'. repeat split; assumption.
Qed.

(** The call that creates the cache ([init_cache] on, no cache yet): if
    it returns, both buffers have the shape of the keys after
    [repeat_kv] and the cursor is 0. *)
Lemma attention_init_cache
  config dt p hidden_state fc am cm pos oa (B S Hin E P : nat) r :
  shape hidden_state = [B; S; Hin] ->
  shape pos = [B; S] ->
  shape fc = [E; P] ->
  hidden_size config / num_attention_heads config = 2 * P ->
  FlaxMistralAttention config dt p None hidden_state fc am cm pos true oa
  = Ok r ->
  exists c,
    fst r = Some c /\
    shape (cache_key c)
    = [B; S;
       num_key_value_heads config
       * (num_attention_heads config / num_key_value_heads config);
       2 * P] /\
    shape (cache_value c) = shape (cache_key c) /\
    cache_index c = 0%Z.
Proof.
  intros Hh Hp Hf Hd H. unfold FlaxMistralAttention in H.
  apply bind_Ok_inv in H. destruct H as [head_dim [Ehd H]].
  apply floordiv_Ok in Ehd. destruct Ehd as [Hnh Ehd].
  rewrite Hd in Ehd. subst head_dim.
  apply bind_Ok_inv in H. destruct H as [groups [Eg H]].
  apply floordiv_Ok in Eg. destruct Eg as [Hnkv Eg]. subst groups.
  rewrite Hh in H.
  apply bind_Ok_inv in H. destruct H as [q0 [Eq0 H]].
  apply bind_Ok_inv in H. destruct H as [k0 [Ek0 H]].
  apply bind_Ok_inv in H. destruct H as [v0 [Ev0 H]].
  apply dense_shape in Eq0, Ek0, Ev0. rewrite Hh in Eq0, Ek0, Ev0.
  change (removelast [B; S; Hin]) with [B; S] in Eq0, Ek0, Ev0.
  apply bind_Ok_inv in H. destruct H as [q1 [Eq1 H]].
  apply bind_Ok_inv in H. destruct H as [k1 [Ek1 H]].
  apply bind_Ok_inv in H. destruct H as [v1 [Ev1 H]].
  apply (reshape_infer_heads q0 q1 B S _ _ Eq0) in Eq1.
  apply (reshape_infer_heads k0 k1 B S _ _ Ek0) in Ek1.
  apply (reshape_infer_heads v0 v1 B S _ _ Ev0) in Ev1.
  destruct Eq1 as [Sq1 [PB [PS _]]].
  destruct Ek1 as [Sk1 _]. destruct Ev1 as [Sv1 _].
  apply bind_Ok_inv in H. destruct H as [qk [Eqk H]].
  destruct (rotary_embedding_returns fc pos q1 k1 B S
              (num_attention_heads config) (num_key_value_heads config)
              P E Hf Hp Sq1 Sk1 PB PS)
    as [q2 [k2 [Erot [Sq2 Sk2]]]]; try lia.
  rewrite Erot in Eqk. inversion Eqk; subst qk. clear Eqk. cbn [fst snd] in H.
  apply bind_Ok_inv in H. destruct H as [k3 [Ek3 H]].
  apply bind_Ok_inv in H. destruct H as [v3 [Ev3 H]].
  destruct (repeat_kv_data k2 B S (num_key_value_heads config) (2 * P)
              (num_attention_heads config / num_key_value_heads config) Sk2)
    as [k3' [Ek3' [Sk3 _]]].
  rewrite Ek3' in Ek3. inversion Ek3; subst k3'. clear Ek3.
  apply bind_Ok_inv in H. destruct H as [st [Est H]].
  unfold concatenate_to_cache_, bind in Est. inversion Est; subst st.
  clear Est. cbn [fst snd] in H.
  destruct (shape q2) as [|? [|? ?]]; try discriminate.
  destruct (shape k3) as [|? [|? ?]] eqn:Sk3'; try discriminate.
  apply bind_Ok_inv in H. destruct H as [cw [_ H]].
  apply bind_Ok_inv in H. destruct H as [mask [_ H]].
  apply bind_Ok_inv in H. destruct H as [w [_ H]].
  apply bind_Ok_inv in H. destruct H as [o1 [_ H]].
  apply bind_Ok_inv in H. destruct H as [o2 [_ H]].
  apply bind_Ok_inv in H. destruct H as [out [_ H]].
  inversion H; subst r. cbn [fst].
  eexists. split; [reflexivity|]. cbn [cache_key cache_value cache_index].
  cbn [full shape]. rewrite <- Sk3.
  repeat split; reflexivity.
Qed.

(** An append keeps the shape of both buffers and adds the number of
    new tokens to the cursor (in 32-bit arithmetic). *)
Lemma append_keeps_shape c q k v am c' out :
  concatenate_to_cache_ (Some c) q k v am = Ok (c', out) ->
  shape (cache_key c') = shape (cache_key c) /\
  shape (cache_value c') = shape (cache_value c) /\
  cache_index c'
  = int32_wrap (cache_index c + new_token_count (q, k, v, am)).
Proof.
  unfold concatenate_to_cache_. intros H.
  destruct (rev (shape (cache_key c))) as [|dph [|nh [|ml rev_bd]]];
    try discriminate.
  apply bind_Ok_inv in H. destruct H as [kb [Ek H]].
  apply bind_Ok_inv in H. destruct H as [vb [Ev H]].
  destruct (shape q) as [|q0 [|n rest]] eqn:Sq; try discriminate.
  apply bind_Ok_inv in H. destruct H as [pad [_ H]].
  apply bind_Ok_inv in H. destruct H as [m [_ H]].
  inversion H; subst. cbn [cache_key cache_value cache_index].
  unfold new_token_count. rewrite Sq. cbn [nth].
  unfold dynamic_update_slice in Ek, Ev.
  destruct (negb _) in Ek; [discriminate|].
  destruct (negb _) in Ek; [discriminate|].
  destruct (negb _) in Ev; [discriminate|].
  destruct (negb _) in Ev; [discriminate|].
  inversion Ek. inversion Ev. repeat split; reflexivity.
Qed.

Lemma run_appends_invariant (steps : list append_args) :
  forall c c',
    run_appends c steps = Ok c' ->
    (0 <= cache_index c)%Z ->
    (cache_index c + total_new_tokens steps < 2 ^ 31)%Z ->
    shape (cache_key c') = shape (cache_key c) /\
    shape (cache_value c') = shape (cache_value c) /\
    cache_index c' = (cache_index c + total_new_tokens steps)%Z.
Proof.
  induction steps as [|[[[q k] v] am] rest IH]; intros c c' H H0 Hlt.
  - simpl in *. inversion H. repeat split; lia.
  - cbn [run_appends] in H.
    apply bind_Ok_inv in H. destruct H as [[c1 out] [Happ H]].
    cbn [fst] in H.
    apply append_keeps_shape in Happ. destruct Happ as [S1 [S2 I1]].
    cbn [total_new_tokens fold_right] in Hlt.
    fold (total_new_tokens rest) in Hlt.
    assert (Hn : (0 <= new_token_count (q, k, v, am))%Z).
    { unfold new_token_count. lia. }
    assert (Ht : (0 <= total_new_tokens rest)%Z).
    { clear. induction rest as [|a rest IH]; simpl; [lia|].
      fold (total_new_tokens rest).
      assert (0 <= new_token_count a)%Z
        by (destruct a as [[[? ?] ?] ?]; unfold new_token_count; lia).
      lia. }
    rewrite int32_wrap_small in I1 by lia.
    destruct (IH c1 c' H) as [S1' [S2' I2]]; try lia.
    cbn [total_new_tokens fold_right]. fold (total_new_tokens rest).
    repeat split; try congruence. lia.
Qed.

(** C4 (amended): (1) the call that creates the cache of a layer gives
    both buffers the shape
    [batch, max_len, num_kv_heads * (num_heads // num_kv_heads), head_dim]
    (the keys after [repeat_kv], so the replicated head count) and the
    cursor 0; (2) through any sequence of appends both buffers keep
    their shape, and the cursor is the number of tokens appended so
    far, so it is never negative (as long as that number is below
    [2^31]); it is not bounded by [max_len]. *)
Theorem cache_shape_and_cursor :
  (forall config dt p hidden_state fc am cm pos oa (B S Hin E P : nat) r,
     shape hidden_state = [B; S; Hin] ->
     shape pos = [B; S] ->
     shape fc = [E; P] ->
     hidden_size config / num_attention_heads config = 2 * P ->
     FlaxMistralAttention config dt p None hidden_state fc am cm pos true oa
     = Ok r ->
     exists c,
       fst r = Some c /\
       shape (cache_key c)
       = [B; S;
          num_key_value_heads config
          * (num_attention_heads config / num_key_value_heads config);
          2 * P] /\
       shape (cache_value c) = shape (cache_key c) /\
       cache_index c = 0%Z) /\
  (forall c steps c',
     run_appends c steps = Ok c' ->
     (0 <= cache_index c)%Z ->
     (cache_index c + total_new_tokens steps < 2 ^ 31)%Z ->
     shape (cache_key c') = shape (cache_key c) /\
     shape (cache_value c') = shape (cache_value c) /\
     cache_index c' = (cache_index c + total_new_tokens steps)%Z /\
     (0 <= cache_index c')%Z).
Proof.
  split.
  - intros. eapply attention_init_cache; eassumption.
  - intros c steps c' H H0 Hlt.
    destruct (run_appends_invariant steps c c' H H0 Hlt) as [S1 [S2 I]].
    repeat split; try assumption.
    rewrite I.
    assert (Ht : (0 <= total_new_tokens steps)%Z).
    { clear. induction steps as [|a rest IH]; simpl; [lia|].
      fold (total_new_tokens rest).
      assert (0 <= new_token_count a)%Z
        by (destruct a as [[[? ?] ?] ?]; unfold new_token_count; lia).
      lia. }
    lia.
Qed.

Lemma cache_shape_and_cursor_witness :
  exists r c,
    FlaxMistralAttention tiny_config bfloat16 tiny_attention None
      prompt_hidden (freq_cis tiny_tables) prompt_mask (make_causal_mask 4)
      prompt_positions true false = Ok r /\
    fst r = Some c /\
    shape (cache_key c) = [1; 3; 2; 4] /\
    cache_index c = 0%Z.
Proof.
  destruct (is_ok_returns
              (FlaxMistralAttention tiny_config bfloat16 tiny_attention None
                 prompt_hidden (freq_cis tiny_tables) prompt_mask
                 (make_causal_mask 4) prompt_positions true false))
    as [r Hr].
  - vm_compute. reflexivity.
  - destruct (proj1 cache_shape_and_cursor tiny_config bfloat16
                tiny_attention prompt_hidden (freq_cis tiny_tables)
                prompt_mask (make_causal_mask 4) prompt_positions false
                1 3 8 8 2 r eq_refl eq_refl eq_refl eq_refl Hr)
      as [c [H1 [H2 [_ H4]]]].
    exists r, c. repeat split; assumption.
Defined.

(** C4, as stated, fails twice.  For two attention heads over one
    key/value head the buffers of the new cache have two heads, not
    one; and an append to a full cache of four positions moves the
    cursor to 5. *)
Lemma cache_invariant_counterexample :
  num_key_value_heads tiny_config = 1 /\
  cache_state_of
    (FlaxMistralAttention tiny_config bfloat16 tiny_attention None
       prompt_hidden (freq_cis tiny_tables) prompt_mask (make_causal_mask 4)
       prompt_positions true false)
  = Some ([1; 3; 2; 4], [1; 3; 2; 4], 0%Z) /\
  cache_state_of
    (r <- concatenate_to_cache_ (Some (small_cache 4 4)) (new_tokens 1)
            (new_tokens 1) (new_tokens 1) (ones_mask4 4) ;;
     Ok (Some (fst r), snd r))
  = Some ([1; 4; 1; 1], [1; 4; 1; 1], 5%Z).
Proof.
  split; [reflexivity|]. split; vm_compute; reflexivity.
Qed.

(* ================================================================== *)
(** ** Causal masking with a cache *)

(** The masks of a call with an active cache, before line 361 raises.
    A call that appends two tokens at cursor 0 to a cache of four
    positions cuts the causal window at the cursor it has already
    advanced (rows 2 and 3 of the causal mask), and the padding mask
    admits the keys 0 and 1: at query 0, key 1 both masks allow
    attention, although the key is the later token.  The call itself
    then raises at line 361, before any weight is computed. *)
Theorem cached_chunk_not_causal :
  mask_entries
    (cached_masks (small_cache 4 0) (new_tokens 2) (new_tokens 2)
       (new_tokens 2) (ones_mask4 4) (make_causal_mask 4))
    [0; 0; 0; 1]
  = Some (true, true) /\
  is_ok
    (r <- cached_masks (small_cache 4 0) (new_tokens 2) (new_tokens 2)
            (new_tokens 2) (ones_mask4 4) (make_causal_mask 4) ;;
     merge_masks 1 (fst r) (snd r))
  = false.
Proof.
  split; vm_compute; reflexivity.
Qed.

(** With single-token appends the same two masks are causal: the
    window row is the one after the new token, and the padding mask
    stops at the new token. *)
Example cached_single_token_masks :
  mask_entries
    (cached_masks (small_cache 4 1) (new_tokens 1) (new_tokens 1)
       (new_tokens 1) (ones_mask4 4) (make_causal_mask 4))
    [0; 0; 0; 1]
  = Some (true, true) /\
  mask_entries
    (cached_masks (small_cache 4 1) (new_tokens 1) (new_tokens 1)
       (new_tokens 1) (ones_mask4 4) (make_causal_mask 4))
    [0; 0; 0; 2]
  = Some (false, true) /\
  mask_entries
    (cached_masks (small_cache 4 1) (new_tokens 1) (new_tokens 1)
       (new_tokens 1) (ones_mask4 4) (make_causal_mask 4))
    [0; 0; 0; 3]
  = Some (false, false).
Proof.
  repeat split; vm_compute; reflexivity.
Qed.

(* ================================================================== *)
(** ** Causal masking without a cache *)

Lemma dims_compatible_refl (s : list nat) : dims_compatible s s = true.
Proof.
  induction s as [|d s IH]; [reflexivity|].
  simpl. rewrite Nat.eqb_refl, Bool.orb_true_r. exact IH.
Qed.

Lemma broadcast_to_same_rank {A : Type} (a : ndarray A) (target : list nat) :
  ndim a = List.length target ->
  dims_compatible (shape a) target = true ->
  broadcast_to a target
  = Ok (NDArray target (fun ix => data a (bcast_index (shape a) ix))).
Proof.
  intros Hr Hc. unfold broadcast_to. rewrite Hr, Nat.ltb_irrefl, Nat.sub_diag.
  cbn [skipn]. rewrite Hc. reflexivity.
Qed.

Lemma expand_dims_mask2 (am : ndarray bool) (B K : nat) :
  shape am = [B; K] ->
  expand_dims am [(-3)%Z; (-2)%Z]
  = Ok (NDArray [B; 1; 1; K]
          (fun ix => data am (squeeze_index [1; 2] 0 ix))).
Proof.
  intros Ham. unfold expand_dims, ndim. rewrite Ham. reflexivity.
Qed.

(** Without a cache, and with an attention mask of shape
    [batch, key_len], lines 358-362 return the mask whose entry at
    (query [i], key [j]) is the validity of the key [j] and [j <= i]. *)
Lemma cache_free_masks (am : ndarray bool) (B K q_l C : nat) :
  shape am = [B; K] -> q_l <= C -> K <= C ->
  exists cw m,
    causal_window None (make_causal_mask C) q_l K = Ok cw /\
    merge_masks B am cw = Ok m /\
    shape m = [B; 1; q_l; K] /\
    forall b i j, b < B -> i < q_l -> j < K ->
      data m [b; 0; i; j] = data am [b; j] && (j <=? i).
Proof.
  intros Ham Hq Hk.
  unfold causal_window, slice_prefix4. cbn [make_causal_mask shape].
  rewrite (Nat.min_l q_l C), (Nat.min_l K C) by assumption.
  eexists. eexists. split; [reflexivity|].
  unfold merge_masks. cbn [shape tl].
  rewrite broadcast_to_same_rank; [|reflexivity|].
  2: { cbn [shape]. simpl. rewrite !Nat.eqb_refl, !Bool.orb_true_r.
       reflexivity. }
  unfold bind at 1.
  rewrite (expand_dims_mask2 am B K Ham). unfold bind at 1. cbn [shape].
  rewrite broadcast_to_same_rank; [|reflexivity|].
  2: { cbn [shape]. simpl. rewrite !Nat.eqb_refl, !Bool.orb_true_r.
       reflexivity. }
  unfold bind.
  unfold combine_masks, ndim. cbn [shape List.length].
  change (4 =? 4) with true. cbv iota.
  unfold binop. cbn [shape]. unfold broadcast_shapes, pad_left.
  cbn [List.length Nat.max Nat.sub repeat app].
  rewrite bshape_same.
  split; [reflexivity|]. split; [reflexivity|].
  intros b i j Lb Li Lj. cbn [data]. unfold bcast_index.
  cbn [List.length Nat.sub skipn combine map fst snd].
  change (1 =? 1) with true. cbv iota.
  rewrite !(bcast_keep B b), !(bcast_keep q_l i), !(bcast_keep K j)
    by assumption.
  reflexivity.
Qed.

(** Without a cache every later key is masked: for [i < j] the bias at
    (query [i], key [j]) is the least finite value of the working
    precision. *)
Theorem cache_free_attention_is_causal
  (dt : dtype) (am : ndarray bool) (B K q_l C : nat) :
  shape am = [B; K] -> q_l <= C -> K <= C ->
  exists cw m,
    causal_window None (make_causal_mask C) q_l K = Ok cw /\
    merge_masks B am cw = Ok m /\
    forall b i j, b < B -> i < q_l -> j < K -> i < j ->
      data (attention_bias_of dt m) [b; 0; i; j] = Fin (finfo_min dt).
Proof.
  intros Ham Hq Hk.
  destruct (cache_free_masks am B K q_l C Ham Hq Hk)
    as [cw [m [E1 [E2 [_ Dm]]]]].
  exists cw, m. split; [exact E1|]. split; [exact E2|].
  intros b i j Lb Li Lj Lij. unfold attention_bias_of, amap. cbn [data].
  rewrite Dm by assumption.
  replace (j <=? i) with false by (symmetry; apply Nat.leb_gt; exact Lij).
  rewrite Bool.andb_false_r. reflexivity.
Qed.

Lemma cache_free_attention_is_causal_witness :
  exists cw m,
    causal_window None (make_causal_mask 4) 3 3 = Ok cw /\
    merge_masks 1 prompt_mask cw = Ok m /\
    data (attention_bias_of bfloat16 m) [0; 0; 0; 1]
    = Fin (finfo_min bfloat16).
Proof.
  destruct (cache_free_attention_is_causal bfloat16 prompt_mask 1 3 3 4)
    as [cw [m [E1 [E2 Hb]]]].
  - reflexivity.
  - lia.
  - lia.
  - exists cw, m. split; [exact E1|]. split; [exact E2|].
    apply Hb; lia.
Defined.

(* ================================================================== *)
(** ** Further properties *)

(** [repeat_kv] tiles the heads: head [h] of the result is head
    [h mod n_kv_heads] of the argument. *)
Theorem repeat_kv_tiles_heads {A : Type} (x : ndarray A)
  (B S NKV D n : nat) :
  shape x = [B; S; NKV; D] ->
  exists x',
    repeat_kv x n = Ok x' /\
    shape x' = [B; S; NKV * n; D] /\
    forall b s h d, b < B -> s < S -> h < NKV * n -> d < D ->
      data x' [b; s; h; d] = data x [b; s; h mod NKV; d].
Proof. apply repeat_kv_data. Qed.

Lemma repeat_kv_tiles_heads_witness :
  exists x',
    repeat_kv (NDArray [1; 1; 2; 1]
                 (fun ix => match ix with
                            | [_; _; h; _] => h
                            | _ => 0
                            end)) 2 = Ok x' /\
    data x' [0; 0; 0; 0] = 0 /\ data x' [0; 0; 1; 0] = 1 /\
    data x' [0; 0; 2; 0] = 0 /\ data x' [0; 0; 3; 0] = 1.
Proof.
  destruct (repeat_kv_tiles_heads
              (NDArray [1; 1; 2; 1]
                 (fun ix => match ix with
                            | [_; _; h; _] => h
                            | _ => 0
                            end)) 1 1 2 1 2 eq_refl)
    as [x' [E [_ Hd]]].
  exists x'. split; [exact E|].
  repeat split.
  - apply (Hd 0 0 0 0); lia.
  - apply (Hd 0 0 1 0); lia.
  - apply (Hd 0 0 2 0); lia.
  - apply (Hd 0 0 3 0); lia.
Defined.

(** [precompute_freq_cis] raises [ValueError] for a scaling method that
    is neither [None], ["linear"] nor ["dynamic"]. *)
Theorem precompute_freq_cis_unknown_method
  (m : string) (dim end_ : nat) (theta scaling_factor : R) :
  m <> "linear"%string -> m <> "dynamic"%string ->
  precompute_freq_cis (Some m) dim end_ theta scaling_factor
  = Raise ValueError.
Proof.
  intros H1 H2. unfold precompute_freq_cis.
  apply String.eqb_neq in H1. apply String.eqb_neq in H2.
  rewrite H1, H2. reflexivity.
Qed.

Lemma precompute_freq_cis_unknown_method_witness :
  precompute_freq_cis (Some "yarn"%string) 4 8 default_theta
    default_scaling_factor
  = Raise ValueError.
Proof.
  apply precompute_freq_cis_unknown_method; discriminate.
Defined.

(** With [output_hidden_states] on, the loop appends to
    [all_hidden_states] the hidden state that each layer is called
    with, and nothing else. *)
Lemma collection_loop_hidden_states (layers : list layer_fn) :
  forall caches fc am cm pos init_cache st items cs st',
    ls_all_hidden_states st = PyTuple items ->
    ls_output_attentions st = PyBool false ->
    collection_loop layers caches fc am cm pos init_cache true st
    = Ok (cs, st') ->
    exists inputs,
      ls_all_hidden_states st' = PyTuple (items ++ map PyArray inputs) /\
      ls_output_attentions st' = PyBool false /\
      layer_chain layers caches fc am cm pos init_cache
        (ls_hidden_state st) inputs (ls_hidden_state st').
Proof.
  induction layers as [|layer rest IH];
    intros caches fc am cm pos ic st items cs st' Hhs Hoa H.
  - simpl in H. inversion H; subst. exists []. cbn [map].
    rewrite app_nil_r. split; [exact Hhs|]. split; [exact Hoa|].
    reflexivity.
  - cbn [collection_loop] in H.
    apply bind_Ok_inv in H. destruct H as [[c1 st1] [Hstep H]].
    apply bind_Ok_inv in H. destruct H as [[cs2 st2] [Hloop H]].
    inversion H; subst. cbn [snd] in *.
    unfold collection_step in Hstep. rewrite Hhs, Hoa in Hstep.
    cbn [py_add truthy bind] in Hstep.
    apply bind_Ok_inv in Hstep. destruct Hstep as [[c' out] [Hlayer Hstep]].
    apply bind_Ok_inv in Hstep. destruct Hstep as [h1 [Hget Hstep]].
    cbn [bind] in Hstep. inversion Hstep; subst.
    apply (IH _ _ _ _ _ _ _ (items ++ [PyArray (ls_hidden_state st)]))
      in Hloop; [|reflexivity|reflexivity].
    cbn [ls_hidden_state] in Hloop.
    destruct Hloop as [inputs [E [O Hchain]]].
    exists (ls_hidden_state st :: inputs).
    split; [rewrite E, <- app_assoc; reflexivity|].
    split; [exact O|].
    cbn [layer_chain]. split; [reflexivity|].
    exists c1, out, h1.
    split; [exact Hlayer|]. split; [exact Hget | exact Hchain].
Qed.

Lemma layer_chain_length (layers : list layer_fn) :
  forall caches fc am cm pos init_cache h inputs final,
    layer_chain layers caches fc am cm pos init_cache h inputs final ->
    List.length inputs = List.length layers.
Proof.
  induction layers as [|layer rest IH];
    intros caches fc am cm pos ic h inputs final H;
    destruct inputs as [|x inputs']; cbn [layer_chain] in H;
    try contradiction; [reflexivity|].
  destruct H as [_ [c [out [next [_ [_ H]]]]]].
  cbn [List.length]. f_equal. exact (IH _ _ _ _ _ _ _ _ _ H).
Qed.

(** A call of the layer collection that asks for the hidden states
    only, when it returns, returns in [all_hidden_states] exactly the
    hidden states that the layers were called with, in order: the
    input of the call first, then [output[0]] of each layer but the
    last.  The output of the last layer is the first component of the
    result and is not appended; the attentions are [None]. *)
Theorem collection_collects_hidden_states
  layers caches hidden_state fc am cm pos init_cache cs h' hs atts :
  FlaxMistralDecoratorCollection layers caches hidden_state fc am cm pos
    init_cache false true = Ok (cs, (h', hs, atts)) ->
  exists inputs,
    hs = PyTuple (map PyArray inputs) /\
    List.length inputs = List.length layers /\
    atts = PyNone /\
    layer_chain layers caches fc am cm pos init_cache hidden_state
      inputs h'.
Proof.
  unfold FlaxMistralDecoratorCollection. intros H.
  apply bind_Ok_inv in H. destruct H as [[cs1 st1] [Hloop H]].
  inversion H; subst.
  apply (collection_loop_hidden_states layers _ _ _ _ _ _ _ [])
    in Hloop; [|reflexivity|reflexivity].
  destruct Hloop as [inputs [E [_ Hchain]]].
  exists inputs. cbn [fst snd ls_hidden_state] in *.
  split; [exact E|].
  split; [exact (layer_chain_length _ _ _ _ _ _ _ _ _ _ Hchain)|].
  split; [reflexivity | exact Hchain].
Qed.

Lemma collection_collects_hidden_states_witness :
  exists cs final inputs,
    FlaxMistralDecoratorCollection tiny_layers [None] prompt_hidden
      (freq_cis tiny_tables) prompt_mask (make_causal_mask 4)
      prompt_positions false false true
    = Ok (cs, (final, PyTuple (map PyArray inputs), PyNone)) /\
    List.length inputs = 1 /\
    layer_chain tiny_layers [None] (freq_cis tiny_tables) prompt_mask
      (make_causal_mask 4) prompt_positions false prompt_hidden
      inputs final.
Proof.
  assert (Hret : is_ok (FlaxMistralDecoratorCollection tiny_layers [None]
                          prompt_hidden (freq_cis tiny_tables) prompt_mask
                          (make_causal_mask 4) prompt_positions
                          false false true) = true)
    by (vm_compute; reflexivity).
  destruct (FlaxMistralDecoratorCollection tiny_layers [None]
              prompt_hidden (freq_cis tiny_tables) prompt_mask
              (make_causal_mask 4) prompt_positions false false true)
    as [[cs [[h' hs] atts]]|e] eqn:E; [|discriminate Hret].
  destruct (collection_collects_hidden_states _ _ _ _ _ _ _ _ _ _ _ _ E)
    as [inputs [Ehs [L [Eatts Hchain]]]].
  exists cs, h', inputs. subst hs atts.
  split; [reflexivity|]. split; [exact L | exact Hchain].
Defined.

(* ================================================================== *)
(** ** The frequency table under rope scaling *)

Lemma Rpower_one_base (y : R) : Rpower 1 y = 1%R.
Proof. unfold Rpower. rewrite ln_1, Rmult_0_r. apply exp_0. Qed.

(** The ["dynamic"] method leaves the table as it is without scaling,
    whatever the scaling factor: its base is
    [theta * (factor * end / end - (factor - 1)) ** (dim / (dim - 2))],
    and the second factor is 1. *)
Theorem dynamic_scaling_has_no_effect
  (dim end_ : nat) (theta scaling_factor scaling_factor' : R) :
  end_ <> 0 -> dim <> 2 -> Nat.even dim = true ->
  precompute_freq_cis (Some "dynamic"%string) dim end_ theta scaling_factor
  = precompute_freq_cis None dim end_ theta scaling_factor'.
Proof.
  intros He Hd Hev. unfold precompute_freq_cis.
  change (String.eqb "dynamic" "linear") with false.
  change (String.eqb "dynamic" "dynamic") with true. cbv iota.
  apply Nat.eqb_neq in He. apply Nat.eqb_neq in Hd as Hd'.
  rewrite He, Hd'. cbn [orb].
  apply Nat.even_spec in Hev. destruct Hev as [k Hk].
  assert (Hcols : (dim + 1) / 2 = dim / 2).
  { subst dim. rewrite (Nat.mul_comm 2 k), Nat.div_mul by lia.
    symmetry. apply (Nat.div_unique _ 2 k 1); lia. }
  rewrite Hcols.
  assert (Hbase : (theta *
                   Rpower (scaling_factor * INR end_ / INR end_
                           - (scaling_factor - 1))
                          (INR dim / (INR dim - 2)))%R = theta).
  { assert (Hne : INR end_ <> 0%R).
    { apply not_0_INR. apply Nat.eqb_neq. exact He. }
    replace (scaling_factor * INR end_ / INR end_
             - (scaling_factor - 1))%R with 1%R by (field; exact Hne).
    rewrite Rpower_one_base. ring. }
  rewrite Hbase. reflexivity.
Qed.

Lemma dynamic_scaling_has_no_effect_witness :
  precompute_freq_cis (Some "dynamic"%string) 4 8 default_theta
    default_scaling_factor
  = precompute_freq_cis None 4 8 default_theta 1.
Proof.
  apply dynamic_scaling_has_no_effect.
  - discriminate.
  - discriminate.
  - reflexivity.
Defined.

(** The ["linear"] method with the whole factor [k] stretches the
    table: its row [k * p] is row [p] of the table without scaling. *)
Theorem linear_scaling_stretches_positions
  (dim end_ k p j : nat) (theta scaling_factor' : R)
  (lin plain : ndarray complex) :
  k <> 0 ->
  precompute_freq_cis (Some "linear"%string) dim end_ theta (INR k) = Ok lin ->
  precompute_freq_cis None dim end_ theta scaling_factor' = Ok plain ->
  shape lin = shape plain /\
  data lin [k * p; j] = data plain [p; j].
Proof.
  intros Hk Hl Hp. unfold precompute_freq_cis in Hl, Hp.
  change (String.eqb "linear" "linear") with true in Hl. cbv iota in Hl.
  inversion Hl; subst lin. inversion Hp; subst plain. clear Hl Hp.
  split; [reflexivity|].
  cbn [freq_table data].
  assert (Ht : fdiv (of_nat (k * p)) (Fin (INR k)) = of_nat p).
  { unfold fdiv, of_nat.
    destruct (Req_dec_T (INR k) 0) as [Hz|Hnz].
    - exfalso. revert Hz. apply not_0_INR. exact Hk.
    - f_equal. rewrite mult_INR. field. exact Hnz. }
  unfold fdiv, of_nat in Ht. rewrite Ht. reflexivity.
Qed.

Lemma linear_scaling_stretches_positions_witness :
  exists lin plain,
    precompute_freq_cis (Some "linear"%string) 4 8 default_theta (INR 2)
    = Ok lin /\
    precompute_freq_cis None 4 8 default_theta 1 = Ok plain /\
    data lin [2 * 3; 1] = data plain [3; 1].
Proof.
  eexists. eexists. split; [reflexivity|]. split; [reflexivity|].
  apply (linear_scaling_stretches_positions 4 8 2 3 1 default_theta 1).
  - discriminate.
  - reflexivity.
  - reflexivity.
Defined.

(** For a positive base and a scaling factor other than 0 every entry
    of the table lies on the unit circle, under each of the three
    methods, and row 0 holds [1 + 0j]. *)
Theorem freq_cis_on_unit_circle
  (method : option string) (dim end_ : nat) (theta scaling_factor : R)
  (table : ndarray complex) :
  dim <> 0 -> (0 < theta)%R -> scaling_factor <> 0%R ->
  precompute_freq_cis method dim end_ theta scaling_factor = Ok table ->
  (forall p j, exists c s,
     data table [p; j] = {| re := Fin c; im := Fin s |} /\
     (c * c + s * s = 1)%R) /\
  (forall j, data table [0; j] = {| re := Fin 1; im := Fin 0 |}).
Proof.
  intros Hd _ Hs H.
  assert (Hshape : exists (t : nat -> fval) (base : R) (n : nat),
             table = freq_table end_ n t (inv_freq base dim) /\
             (forall p, exists r, t p = Fin r) /\ t 0 = Fin 0).
  { unfold precompute_freq_cis in H. destruct method as [m|].
    - destruct (String.eqb m "linear").
      + inversion H. eexists. eexists. eexists. split; [reflexivity|].
        split.
        * intros p. unfold fdiv, of_nat.
          destruct (Req_dec_T scaling_factor 0); [contradiction|].
          eexists. reflexivity.
        * unfold fdiv, of_nat.
          destruct (Req_dec_T scaling_factor 0); [contradiction|].
          f_equal. simpl. field. assumption.
      + destruct (String.eqb m "dynamic"); [|discriminate].
        destruct ((end_ =? 0) || (dim =? 2)); [discriminate|].
        inversion H. eexists. eexists. eexists. split; [reflexivity|].
        split; [intros p; eexists; reflexivity | reflexivity].
    - inversion H. eexists. eexists. eexists. split; [reflexivity|].
      split; [intros p; eexists; reflexivity | reflexivity]. }
  destruct Hshape as [t [base [n [-> [Ht Ht0]]]]].
  split.
  - intros p j. destruct (Ht p) as [r Hr].
    destruct (inv_freq_finite base dim j Hd) as [f Hf].
    exists (cos (r * f)), (sin (r * f)). split.
    + cbn [freq_table data]. rewrite Hr, Hf. reflexivity.
    + pose proof (sin2_cos2 (r * f)) as E. unfold Rsqr in E. lra.
  - intros j. destruct (inv_freq_finite base dim j Hd) as [f Hf].
    cbn [freq_table data]. rewrite Ht0, Hf.
    unfold fmul, fcos, fsin, flift1, flift2.
    rewrite Rmult_0_l, cos_0, sin_0. reflexivity.
Qed.

Lemma freq_cis_on_unit_circle_witness :
  exists c s,
    data (freq_cis tiny_tables) [3; 1] = {| re := Fin c; im := Fin s |} /\
    (c * c + s * s = 1)%R.
Proof.
  assert (Hne : (1 <> 0)%R) by lra.
  assert (Hpos : (0 < default_theta)%R) by (unfold default_theta; lra).
  destruct (freq_cis_on_unit_circle None 4 8 default_theta 1
              (freq_cis tiny_tables)) as [H _].
  - discriminate.
  - exact Hpos.
  - exact Hne.
  - reflexivity.
  - exact (H 3 1).
Defined.

(* ================================================================== *)
(** ** Rotary embedding: positions *)

Lemma take0_row_from_start (table rows : ndarray complex) (pos : ndarray Z)
  (B S E P b s j : nat) :
  shape table = [E; P] ->
  shape pos = [B; S] ->
  (0 <= data pos [b; s] < Z.of_nat E)%Z ->
  take0 cnan table pos = Ok rows ->
  data rows [b; s; j] = data table [Z.to_nat (data pos [b; s]); j].
Proof.
  intros Ht Hp Hr H. unfold take0 in H. rewrite Ht in H.
  inversion H; subst rows. clear H.
  unfold ndim. cbn [data]. rewrite Hp. cbn [List.length firstn skipn].
  replace ((data pos [b; s] <? 0)%Z) with false
    by (symmetry; apply Z.ltb_ge; lia).
  replace ((0 <=? data pos [b; s])%Z) with true
    by (symmetry; apply Z.leb_le; lia).
  replace ((data pos [b; s] <? Z.of_nat E)%Z) with true
    by (symmetry; apply Z.ltb_lt; lia).
  reflexivity.
Qed.

(** The entries of one rotated operand, for positions that are row
    numbers of the table. *)
Lemma rotate_at_positions (theta : R) (tbl rows fc : ndarray complex)
  (pos : ndarray Z) (x : ndarray fval) (B S H P E : nat) :
  0 < P ->
  tbl = freq_table E P of_nat (inv_freq theta (2 * P)) ->
  shape pos = [B; S] ->
  take0 cnan tbl pos = Ok rows ->
  reshape rows [B; S; 1; P] = Ok fc ->
  shape x = [B; S; H; 2 * P] ->
  0 < B -> 0 < S -> 0 < H ->
  positions_from_start E pos ->
  exists x',
    rotate x fc = Ok x' /\
    shape x' = [B; S; H; 2 * P] /\
    forall b s h p, b < B -> s < S -> h < H -> p < P ->
      let a := rope_angle theta (2 * P) (data pos [b; s]) p in
      data x' [b; s; h; 2 * p]
      = fsub (fmul (data x [b; s; h; 2 * p]) (Fin (cos a)))
             (fmul (data x [b; s; h; 2 * p + 1]) (Fin (sin a))) /\
      data x' [b; s; h; 2 * p + 1]
      = fadd (fmul (data x [b; s; h; 2 * p]) (Fin (sin a)))
             (fmul (data x [b; s; h; 2 * p + 1]) (Fin (cos a))).
Proof.
  intros PP Etbl Hp Erows Efc Hx PB PS PH Hpos.
  assert (St : shape tbl = [E; P]) by (subst tbl; reflexivity).
  assert (Sr : shape rows = [B; S; P]).
  { unfold take0 in Erows. rewrite St in Erows. inversion Erows.
    cbn [shape]. rewrite Hp. reflexivity. }
  pose proof (reshape_shape _ _ _ Efc) as Sfc.
  destruct (rotate_data x fc B S H P Hx Sfc PB PS PH) as [x' [Ex [Sx Dx]]].
  exists x'. split; [exact Ex|]. split; [exact Sx|].
  intros b s h p Lb Ls Lh Lp a.
  assert (Hfc : data fc [b; s; 0; p]
                = {| re := Fin (cos a); im := Fin (sin a) |}).
  { assert (Hin : (0 <= data pos [b; s] < Z.of_nat E)%Z).
    { apply Hpos. rewrite Hp. simpl.
      repeat (apply Bool.andb_true_iff; split); try reflexivity;
        apply Nat.ltb_lt; assumption. }
    transitivity (data rows [b; s; p]).
    - apply (reshape_data rows fc _ _ _ Efc).
      + rewrite Sr. simpl.
        repeat (apply Bool.andb_true_iff; split); try reflexivity;
          apply Nat.ltb_lt; assumption.
      + rewrite Sr. simpl. ring.
    - rewrite (take0_row_from_start tbl rows pos B S E P b s p St Hp Hin Erows).
      rewrite Etbl. cbn [freq_table data].
      rewrite (inv_freq_value theta (2 * P) p) by lia.
      reflexivity. }
  destruct (Dx b s h p Lb Ls Lh Lp) as [D0 D1].
  cbv zeta in D0, D1. rewrite Hfc in D0, D1.
  split; [exact D0 | exact D1].
Qed.

(** Both operands of [rotary_embedding], for positions that are row
    numbers of the table that [precompute_freq_cis] builds. *)
Lemma rotary_embedding_at_positions
  (table : ndarray complex) (pos : ndarray Z) (q k : ndarray fval)
  (B S H Hk P E : nat) (theta scaling_factor : R) :
  0 < P ->
  precompute_freq_cis None (2 * P) E theta scaling_factor = Ok table ->
  shape pos = [B; S] ->
  shape q = [B; S; H; 2 * P] ->
  shape k = [B; S; Hk; 2 * P] ->
  0 < B -> 0 < S -> 0 < H -> 0 < Hk ->
  positions_from_start E pos ->
  exists q' k',
    rotary_embedding table pos q k = Ok (q', k') /\
    shape q' = [B; S; H; 2 * P] /\ shape k' = [B; S; Hk; 2 * P] /\
    (forall b s h p, b < B -> s < S -> h < H -> p < P ->
       let a := rope_angle theta (2 * P) (data pos [b; s]) p in
       data q' [b; s; h; 2 * p]
       = fsub (fmul (data q [b; s; h; 2 * p]) (Fin (cos a)))
              (fmul (data q [b; s; h; 2 * p + 1]) (Fin (sin a))) /\
       data q' [b; s; h; 2 * p + 1]
       = fadd (fmul (data q [b; s; h; 2 * p]) (Fin (sin a)))
              (fmul (data q [b; s; h; 2 * p + 1]) (Fin (cos a)))) /\
    (forall b s h p, b < B -> s < S -> h < Hk -> p < P ->
       let a := rope_angle theta (2 * P) (data pos [b; s]) p in
       data k' [b; s; h; 2 * p]
       = fsub (fmul (data k [b; s; h; 2 * p]) (Fin (cos a)))
              (fmul (data k [b; s; h; 2 * p + 1]) (Fin (sin a))) /\
       data k' [b; s; h; 2 * p + 1]
       = fadd (fmul (data k [b; s; h; 2 * p]) (Fin (sin a)))
              (fmul (data k [b; s; h; 2 * p + 1]) (Fin (cos a)))).
Proof.
  intros PP Ht Hp Hq Hk' PB PS PH PHk Hpos.
  assert (Etbl : table = freq_table E P of_nat (inv_freq theta (2 * P))).
  { unfold precompute_freq_cis in Ht.
    replace (2 * P / 2) with P in Ht
      by (rewrite Nat.mul_comm, Nat.div_mul; lia).
    congruence. }
  clear Ht.
  assert (St : shape table = [E; P]) by (subst table; reflexivity).
  unfold rotary_embedding.
  destruct (take0 cnan table pos) as [rows|e] eqn:Erows.
  2: { unfold take0 in Erows. rewrite St in Erows. discriminate. }
  assert (Sr : shape rows = [B; S; P]).
  { unfold take0 in Erows. rewrite St in Erows. inversion Erows.
    cbn [shape]. rewrite Hp. reflexivity. }
  unfold bind at 1. unfold apply_rotary_emb. rewrite Sr.
  change (firstn 2 [B; S; P] ++ [1] ++ skipn 2 [B; S; P])
    with [B; S; 1; P].
  destruct (reshape_ok rows [B; S; 1; P]) as [fc Efc].
  { rewrite Sr. unfold size_of. simpl. ring. }
  rewrite Efc. unfold bind at 1.
  destruct (rotate_at_positions theta table rows fc pos q B S H P E
              PP Etbl Hp Erows Efc Hq PB PS PH Hpos) as [q' [Eq [Sq Dq]]].
  destruct (rotate_at_positions theta table rows fc pos k B S Hk P E
              PP Etbl Hp Erows Efc Hk' PB PS PHk Hpos) as [k' [Ek [Sk Dk]]].
  rewrite Eq. unfold bind at 1. rewrite Ek. unfold bind.
  exists q', k'. repeat split; try assumption.
  - apply Dq; assumption.
  - apply Dq; assumption.
  - apply Dk; assumption.
  - apply Dk; assumption.
Qed.

Lemma fadd_0_r (x : fval) : fadd x fzero = x.
Proof.
  destruct x as [r|]; [|reflexivity].
  unfold fadd, fzero, flift2. f_equal. ring.
Qed.

Lemma fadd_assoc (x y z : fval) : fadd x (fadd y z) = fadd (fadd x y) z.
Proof.
  destruct x, y, z; try reflexivity.
  unfold fadd, flift2. f_equal. ring.
Qed.

Lemma fsum_app (l1 l2 : list fval) :
  fsum (l1 ++ l2) = fadd (fsum l1) (fsum l2).
Proof.
  induction l1 as [|x l1 IH].
  - simpl. destruct (fsum l2) as [r|]; [|reflexivity].
    unfold fadd, fzero, flift2. f_equal. ring.
  - simpl. change (fold_right fadd fzero (l1 ++ l2)) with (fsum (l1 ++ l2)).
    rewrite IH. apply fadd_assoc.
Qed.

(** A sum over [2 * P] channels, taken pair by pair. *)
Lemma fsum_pairs (g : nat -> fval) (P : nat) :
  fsum (map g (seq 0 (2 * P)))
  = fsum (map (fun p => fadd (g (2 * p)) (g (2 * p + 1))) (seq 0 P)).
Proof.
  induction P as [|P IH]; [reflexivity|].
  replace (2 * S P) with (S (S (2 * P))) by lia.
  rewrite (seq_S (S (2 * P))), (seq_S (2 * P)), (seq_S P).
  rewrite !map_app, !fsum_app, IH. cbn [map fsum fold_right Nat.add].
  rewrite !fadd_0_r, <- fadd_assoc.
  replace (2 * P + 1) with (S (2 * P)) by lia. reflexivity.
Qed.

Lemma rotation_dot (x0 x1 y0 y1 s a b : R) :
  s <> 0%R ->
  ((x0 * cos a - x1 * sin a) / s * (y0 * cos b - y1 * sin b)
   + (x0 * sin a + x1 * cos a) / s * (y0 * sin b + y1 * cos b)
   = ((x0 * y0 + x1 * y1) * cos (a - b)
      + (x0 * y1 - x1 * y0) * sin (a - b)) / s)%R.
Proof.
  intros Hs. rewrite cos_minus, sin_minus. field. exact Hs.
Qed.

(** The contribution of one channel pair to the score of a rotated
    query against a rotated key depends on the two angles through
    their difference. *)
Lemma rotated_pair_dot (x0 x1 y0 y1 sd : fval) (a1 b1 a2 b2 : R) :
  (a1 - b1 = a2 - b2)%R ->
  fadd
    (fmul (fdiv (fsub (fmul x0 (Fin (cos a1))) (fmul x1 (Fin (sin a1)))) sd)
          (fsub (fmul y0 (Fin (cos b1))) (fmul y1 (Fin (sin b1)))))
    (fmul (fdiv (fadd (fmul x0 (Fin (sin a1))) (fmul x1 (Fin (cos a1)))) sd)
          (fadd (fmul y0 (Fin (sin b1))) (fmul y1 (Fin (cos b1)))))
  = fadd
      (fmul (fdiv (fsub (fmul x0 (Fin (cos a2))) (fmul x1 (Fin (sin a2)))) sd)
            (fsub (fmul y0 (Fin (cos b2))) (fmul y1 (Fin (sin b2)))))
      (fmul (fdiv (fadd (fmul x0 (Fin (sin a2))) (fmul x1 (Fin (cos a2)))) sd)
            (fadd (fmul y0 (Fin (sin b2))) (fmul y1 (Fin (cos b2))))).
Proof.
  intros Hd.
  destruct x0 as [x0|], x1 as [x1|], y0 as [y0|], y1 as [y1|], sd as [s|];
    try reflexivity;
    unfold fadd, fsub, fmul, fdiv, flift2;
    try (destruct (Req_dec_T s 0)); try reflexivity.
  f_equal. rewrite !rotation_dot by assumption. rewrite Hd. reflexivity.
Qed.

Lemma rope_angle_from_start (theta : R) (dim : nat) (z : Z) (p : nat) :
  (0 <= z)%Z ->
  rope_angle theta dim z p
  = (IZR z * (1 / Rpower theta (INR (2 * p) / INR dim)))%R.
Proof.
  intros Hz. unfold rope_angle.
  rewrite INR_IZR_INZ, Z2Nat.id by assumption. reflexivity.
Qed.

Lemma rope_angle_difference (theta : R) (dim : nat) (m n m' n' : Z)
  (p : nat) :
  (0 <= m)%Z -> (0 <= n)%Z -> (0 <= m')%Z -> (0 <= n')%Z ->
  (m - n = m' - n')%Z ->
  (rope_angle theta dim m p - rope_angle theta dim n p
   = rope_angle theta dim m' p - rope_angle theta dim n' p)%R.
Proof.
  intros Hm Hn Hm' Hn' Hd.
  rewrite !rope_angle_from_start by assumption.
  rewrite <- !Rmult_minus_distr_r, <- !minus_IZR, Hd. reflexivity.
Qed.

Lemma in_bounds2_from_start (pos : ndarray Z) (B S E b s : nat) :
  shape pos = [B; S] -> positions_from_start E pos ->
  b < B -> s < S -> (0 <= data pos [b; s] < Z.of_nat E)%Z.
Proof.
  intros Hp Hpos Lb Ls. apply Hpos. rewrite Hp. simpl.
  repeat (apply Bool.andb_true_iff; split); try reflexivity;
    apply Nat.ltb_lt; assumption.
Qed.

(** The score of a rotated query against a rotated key depends on
    their positions only through the difference: two assignments of
    positions that keep the distance between the query token [i] and
    the key token [j] give the same score. *)
Theorem rotary_score_is_relative
  (table : ndarray complex) (pos1 pos2 : ndarray Z) (q k : ndarray fval)
  (B S H Hk P E : nat) (theta scaling_factor : R) (b h i j : nat) :
  0 < P ->
  precompute_freq_cis None (2 * P) E theta scaling_factor = Ok table ->
  shape pos1 = [B; S] -> shape pos2 = [B; S] ->
  shape q = [B; S; H; 2 * P] ->
  shape k = [B; S; Hk; 2 * P] ->
  positions_from_start E pos1 -> positions_from_start E pos2 ->
  b < B -> i < S -> j < S -> h < H -> h < Hk ->
  (data pos1 [b; i] - data pos1 [b; j]
   = data pos2 [b; i] - data pos2 [b; j])%Z ->
  exists q1 k1 q2 k2,
    rotary_embedding table pos1 q k = Ok (q1, k1) /\
    rotary_embedding table pos2 q k = Ok (q2, k2) /\
    attention_score q1 k1 (2 * P) b h i j
    = attention_score q2 k2 (2 * P) b h i j.
Proof.
  intros PP Ht Hp1 Hp2 Hq Hk' Hpos1 Hpos2 Lb Li Lj Lh Lhk Hrel.
  destruct (rotary_embedding_at_positions table pos1 q k B S H Hk P E theta
              scaling_factor PP Ht Hp1 Hq Hk')
    as [q1 [k1 [E1 [_ [_ [Dq1 Dk1]]]]]]; try lia; try assumption.
  destruct (rotary_embedding_at_positions table pos2 q k B S H Hk P E theta
              scaling_factor PP Ht Hp2 Hq Hk')
    as [q2 [k2 [E2 [_ [_ [Dq2 Dk2]]]]]]; try lia; try assumption.
  exists q1, k1, q2, k2. split; [exact E1|]. split; [exact E2|].
  unfold attention_score. rewrite !fsum_pairs.
  f_equal. apply map_ext_in. intros p Hin.
  apply in_seq in Hin. assert (Lp : p < P) by lia.
  destruct (Dq1 b i h p Lb Li Lh Lp) as [A0 A1].
  destruct (Dk1 b j h p Lb Lj Lhk Lp) as [B0 B1].
  destruct (Dq2 b i h p Lb Li Lh Lp) as [C0 C1].
  destruct (Dk2 b j h p Lb Lj Lhk Lp) as [D0 D1].
  cbv zeta in A0, A1, B0, B1, C0, C1, D0, D1.
  rewrite A0, A1, B0, B1, C0, C1, D0, D1.
  apply rotated_pair_dot.
  pose proof (in_bounds2_from_start pos1 B S E b i Hp1 Hpos1 Lb Li).
  pose proof (in_bounds2_from_start pos1 B S E b j Hp1 Hpos1 Lb Lj).
  pose proof (in_bounds2_from_start pos2 B S E b i Hp2 Hpos2 Lb Li).
  pose proof (in_bounds2_from_start pos2 B S E b j Hp2 Hpos2 Lb Lj).
  apply rope_angle_difference; lia.
Qed.

Lemma in_bounds2_inv (B S : nat) (ix : list nat) :
  in_bounds [B; S] ix = true -> exists b s, ix = [b; s] /\ b < B /\ s < S.
Proof.
  destruct ix as [|b [|s [|x rest]]]; simpl; intros H.
  - discriminate.
  - rewrite Bool.andb_false_r in H. discriminate.
  - rewrite Bool.andb_true_r in H.
    apply Bool.andb_true_iff in H. destruct H as [Hb Hs].
    apply Nat.ltb_lt in Hb, Hs. exists b, s. repeat split; assumption.
  - rewrite !Bool.andb_false_r in H. discriminate.
Qed.

Lemma rotary_score_is_relative_witness :
  exists q1 k1 q2 k2,
    rotary_embedding (freq_cis tiny_tables) prompt_positions
      (full [1; 3; 2; 4] fone) (full [1; 3; 1; 4] fone) = Ok (q1, k1) /\
    rotary_embedding (freq_cis tiny_tables)
      (amap (fun z => (z + 2)%Z) prompt_positions)
      (full [1; 3; 2; 4] fone) (full [1; 3; 1; 4] fone) = Ok (q2, k2) /\
    attention_score q1 k1 (2 * 2) 0 0 2 0
    = attention_score q2 k2 (2 * 2) 0 0 2 0.
Proof.
  apply (rotary_score_is_relative (freq_cis tiny_tables) prompt_positions
           (amap (fun z => (z + 2)%Z) prompt_positions)
           (full [1; 3; 2; 4] fone) (full [1; 3; 1; 4] fone)
           1 3 2 1 2 8 default_theta 1 0 0 2 0).
  - lia.
  - reflexivity.
  - reflexivity.
  - reflexivity.
  - reflexivity.
  - reflexivity.
  - intros ix Hb. apply in_bounds2_inv in Hb.
    destruct Hb as [b [s [-> [_ Hs]]]]. simpl. lia.
  - intros ix Hb. apply in_bounds2_inv in Hb.
    destruct Hb as [b [s [-> [_ Hs]]]]. simpl. lia.
  - lia.
  - lia.
  - lia.
  - lia.
  - lia.
  - reflexivity.
Defined.

Lemma in_bounds4_inv (B S H D : nat) (ix : list nat) :
  in_bounds [B; S; H; D] ix = true ->
  exists b s h e, ix = [b; s; h; e] /\ b < B /\ s < S /\ h < H /\ e < D.
Proof.
  destruct ix as [|b [|s [|h [|e [|x rest]]]]]; simpl; intros Hb;
    try (rewrite ?Bool.andb_false_r in Hb; discriminate).
  rewrite Bool.andb_true_r in Hb.
  apply Bool.andb_true_iff in Hb. destruct Hb as [Lb Hb].
  apply Bool.andb_true_iff in Hb. destruct Hb as [Ls Hb].
  apply Bool.andb_true_iff in Hb. destruct Hb as [Lh Le].
  apply Nat.ltb_lt in Lb, Ls, Lh, Le.
  exists b, s, h, e. repeat split; assumption.
Qed.

(** A rotation by the angle 0 leaves a pair of real channels as it
    is. *)
Lemma unrotated_entries (x x' : ndarray fval) (B S H P : nat) :
  shape x = [B; S; H; 2 * P] ->
  shape x' = [B; S; H; 2 * P] ->
  all_finite x ->
  (forall b s h p, b < B -> s < S -> h < H -> p < P ->
     data x' [b; s; h; 2 * p]
     = fsub (fmul (data x [b; s; h; 2 * p]) (Fin (cos 0)))
            (fmul (data x [b; s; h; 2 * p + 1]) (Fin (sin 0))) /\
     data x' [b; s; h; 2 * p + 1]
     = fadd (fmul (data x [b; s; h; 2 * p]) (Fin (sin 0)))
            (fmul (data x [b; s; h; 2 * p + 1]) (Fin (cos 0)))) ->
  array_eq x' x.
Proof.
  intros Hx Hx' Hfin Hd. split; [congruence|].
  intros ix Hb. rewrite Hx' in Hb.
  destruct (in_bounds4_inv _ _ _ _ _ Hb) as [b [s [h [e [-> [Lb [Ls [Lh Le]]]]]]]].
  assert (Lp : e / 2 < P) by (apply Nat.Div0.div_lt_upper_bound; lia).
  destruct (Hd b s h (e / 2) Lb Ls Lh Lp) as [D0 D1].
  destruct (Hfin [b; s; h; 2 * (e / 2)]) as [r0 E0].
  { rewrite Hx. apply in_bounds4; lia. }
  destruct (Hfin [b; s; h; 2 * (e / 2) + 1]) as [r1 E1].
  { rewrite Hx. apply in_bounds4; lia. }
  rewrite E0, E1 in D0, D1.
  unfold fsub, fadd, fmul, flift2 in D0, D1.
  rewrite cos_0, sin_0 in D0, D1.
  pose proof (Nat.div_mod_eq e 2) as Hdm.
  assert (Hm : e mod 2 = 0 \/ e mod 2 = 1).
  { pose proof (Nat.mod_upper_bound e 2). lia. }
  destruct Hm as [Hm|Hm].
  - replace e with (2 * (e / 2)) at 1 2 by lia.
    rewrite D0, E0. f_equal. ring.
  - replace e with (2 * (e / 2) + 1) at 1 2 by lia.
    rewrite D1, E1. f_equal. ring.
Qed.

(** At position 0 the rotary embedding leaves real queries and keys as
    they are. *)
Theorem rotary_at_position_zero
  (table : ndarray complex) (pos : ndarray Z) (q k : ndarray fval)
  (B S H Hk P E : nat) (theta scaling_factor : R) :
  0 < P -> 0 < E ->
  precompute_freq_cis None (2 * P) E theta scaling_factor = Ok table ->
  shape pos = [B; S] ->
  shape q = [B; S; H; 2 * P] ->
  shape k = [B; S; Hk; 2 * P] ->
  0 < B -> 0 < S -> 0 < H -> 0 < Hk ->
  (forall ix, in_bounds (shape pos) ix = true -> data pos ix = 0%Z) ->
  all_finite q -> all_finite k ->
  exists q' k',
    rotary_embedding table pos q k = Ok (q', k') /\
    array_eq q' q /\ array_eq k' k.
Proof.
  intros PP PE Ht Hp Hq Hk' PB PS PH PHk Hzero Fq Fk.
  assert (Hpos : positions_from_start E pos).
  { intros ix Hb. rewrite (Hzero ix Hb). lia. }
  destruct (rotary_embedding_at_positions table pos q k B S H Hk P E theta
              scaling_factor PP Ht Hp Hq Hk' PB PS PH PHk Hpos)
    as [q' [k' [Er [Sq [Sk [Dq Dk]]]]]].
  assert (Hangle : forall b s p, b < B -> s < S ->
            rope_angle theta (2 * P) (data pos [b; s]) p = 0%R).
  { intros b s p Lb Ls. rewrite Hzero.
    - unfold rope_angle. simpl. ring.
    - rewrite Hp. simpl.
      repeat (apply Bool.andb_true_iff; split); try reflexivity;
        apply Nat.ltb_lt; assumption. }
  exists q', k'. split; [exact Er|]. split.
  - apply (unrotated_entries q q' B S H P Hq Sq Fq).
    intros b s h p Lb Ls Lh Lp.
    destruct (Dq b s h p Lb Ls Lh Lp) as [D0 D1]. cbv zeta in D0, D1.
    rewrite (Hangle b s p Lb Ls) in D0, D1. split; assumption.
  - apply (unrotated_entries k k' B S Hk P Hk' Sk Fk).
    intros b s h p Lb Ls Lh Lp.
    destruct (Dk b s h p Lb Ls Lh Lp) as [D0 D1]. cbv zeta in D0, D1.
    rewrite (Hangle b s p Lb Ls) in D0, D1. split; assumption.
Qed.

Lemma rotary_at_position_zero_witness :
  exists q' k',
    rotary_embedding (freq_cis tiny_tables) (full [1; 3] 0%Z)
      (full [1; 3; 2; 4] fone) (full [1; 3; 1; 4] fone) = Ok (q', k') /\
    array_eq q' (full [1; 3; 2; 4] fone) /\
    array_eq k' (full [1; 3; 1; 4] fone).
Proof.
  apply (rotary_at_position_zero (freq_cis tiny_tables) (full [1; 3] 0%Z)
           (full [1; 3; 2; 4] fone) (full [1; 3; 1; 4] fone)
           1 3 2 1 2 8 default_theta 1).
  - lia.
  - lia.
  - reflexivity.
  - reflexivity.
  - reflexivity.
  - reflexivity.
  - lia.
  - lia.
  - lia.
  - lia.
  - intros ix _. reflexivity.
  - intros ix _. exists 1%R. reflexivity.
  - intros ix _. exists 1%R. reflexivity.
Defined.

(** ** Rotary embedding: an odd head dimension *)

Lemma reshape_pairs_odd_raises {A : Type} (x : ndarray A) :
  Nat.odd (last (shape x) 0) = true ->
  raises (reshape_infer x
            (map Some (removelast (shape x)) ++ [None; Some 2])).
Proof.
  intros Hodd. unfold reshape_infer.
  apply raises_bind_l. unfold infer_shape.
  change [None; Some 2] with ([None] ++ [@Some nat 2]).
  rewrite app_assoc.
  rewrite !count_unknown_app, count_unknown_Some. cbn [count_unknown filter List.length Nat.add].
  rewrite !known_size_app, known_size_Some.
  cbn [known_size fold_right].
  destruct (shape x) as [|d rest] eqn:Hs; [discriminate|].
  destruct (@exists_last _ (d :: rest)) as [l [d0 El]]; [discriminate|].
  rewrite El in *. clear El.
  rewrite last_last in Hodd. rewrite removelast_last.
  rewrite size_of_app. cbn [size_of fold_right].
  set (R := size_of l).
  destruct (R * 1 * (2 * 1) =? 0) eqn:Ez; [apply raises_Raise|].
  cbn [orb negb].
  replace (R * (d0 * 1)) with (R * d0) by lia.
  replace (R * 1 * (2 * 1)) with (R * 2) by lia.
  rewrite Nat.Div0.mul_mod_distr_l.
  apply Nat.odd_spec in Hodd. destruct Hodd as [m Hm].
  replace (d0 mod 2) with 1.
  2: { subst d0. rewrite Nat.add_comm, Nat.mul_comm, Nat.Div0.mod_add.
       reflexivity. }
  apply Nat.eqb_neq in Ez.
  replace (R * 1 =? 0) with false by (symmetry; apply Nat.eqb_neq; lia).
  apply raises_Raise.
Qed.

Lemma reshape_infer_last {A : Type} (x y : ndarray A) (B S D : nat) :
  reshape_infer x [Some B; Some S; None; Some D] = Ok y ->
  last (shape y) 0 = D.
Proof.
  intros H. unfold reshape_infer in H.
  apply bind_Ok_inv in H. destruct H as [news [Hn H]].
  apply reshape_shape in H. rewrite H. clear H.
  unfold infer_shape in Hn. cbn [count_unknown filter List.length] in Hn.
  destruct (_ || _) in Hn; [discriminate|].
  inversion Hn. reflexivity.
Qed.

(** An attention module whose head dimension
    [hidden_size // num_attention_heads] is odd raises on every call:
    the channels of a head cannot be paired for the rotation. *)
Theorem attention_odd_head_dim_raises
  config dt p cache hidden_state fc am cm pos init_cache oa :
  Nat.odd (hidden_size config / num_attention_heads config) = true ->
  raises (FlaxMistralAttention config dt p cache hidden_state fc am cm pos
            init_cache oa).
Proof.
  intros Hodd. unfold FlaxMistralAttention.
  apply raises_bind_r. intros head_dim Ehd.
  apply floordiv_Ok in Ehd. destruct Ehd as [_ ->].
  apply raises_bind_r. intros groups _.
  destruct (shape hidden_state) as [|B [|S rest]]; try apply raises_Raise.
  apply raises_bind_r. intros q0 _.
  apply raises_bind_r. intros k0 _.
  apply raises_bind_r. intros v0 _.
  apply raises_bind_r. intros q1 Eq1.
  apply raises_bind_r. intros k1 _.
  apply raises_bind_r. intros v1 _.
  apply raises_bind_l. unfold rotary_embedding.
  apply raises_bind_r. intros rows _. unfold apply_rotary_emb.
  apply raises_bind_r. intros fc' _.
  apply raises_bind_l. unfold rotate.
  apply raises_bind_l. apply reshape_pairs_odd_raises.
  rewrite (reshape_infer_last _ _ _ _ _ Eq1). exact Hodd.
Qed.

Lemma attention_odd_head_dim_raises_witness :
  raises (FlaxMistralAttention
            {| vocab_size := 16; hidden_size := 6; intermediate_size := 16;
               num_hidden_layers := 1; num_attention_heads := 2;
               num_key_value_heads := 1; max_position_embeddings := 4;
               rms_norm_eps := (/ 1000000)%R; tie_word_embeddings := false;
               rope_theta := 10000%R; sliding_window := 4096;
               gradient_checkpointing := "nothing_saveable";
               use_pjit_attention_force := true; attn_pdrop := 0%R;
               c_max_position_embeddings := 4 |}
            bfloat16
            {| q_proj := full [6; 6] fone; k_proj := full [6; 3] fone;
               v_proj := full [6; 3] fone; o_proj := full [6; 6] fone |}
            None (full [1; 3; 6] fone) (freq_cis tiny_tables) prompt_mask
            (make_causal_mask 4) prompt_positions false false).
Proof.
  apply attention_odd_head_dim_raises. reflexivity.
Defined.

(* ================================================================== *)
(** ** MistralRMSNorm *)

Lemma bshape_row (B S N : nat) :
  broadcast_shapes [B; S; N] [N] = Some [B; S; N].
Proof.
  unfold broadcast_shapes, pad_left. simpl.
  rewrite !Nat.eqb_refl.
  destruct (S =? 1) eqn:ES; destruct (B =? 1) eqn:EB; reflexivity.
Qed.

(** The entries of the normalised hidden states. *)
Lemma rmsnorm_data (eps : R) (weight x : ndarray fval) (B S N : nat) :
  shape x = [B; S; N] ->
  shape weight = [N] ->
  exists y,
    MistralRMSNorm eps weight x = Ok y /\
    shape y = [B; S; N] /\
    forall b s j, b < B -> s < S -> j < N ->
      data y [b; s; j]
      = fmul (fmul (data x [b; s; j])
                   (fdiv fone
                      (fsqrt (fadd (mean_square_last x [b; s]) (Fin eps)))))
             (data weight [j]).
Proof.
  intros Hx Hw. unfold MistralRMSNorm. rewrite Hx.
  cbn [rev app]. unfold binop. cbn [shape]. rewrite Hw, bshape_row.
  eexists. split; [reflexivity|]. split; [reflexivity|].
  intros b s j Lb Ls Lj. cbn [data].
  unfold bcast_index. cbn [List.length Nat.sub skipn combine map fst snd].
  rewrite (bcast_keep B b), (bcast_keep S s), !(bcast_keep N j)
    by assumption.
  unfold mean_square_last, sqnorm_last. rewrite Hx.
  cbn [removelast last app]. reflexivity.
Qed.

Lemma rsum_scale (c : R) (g : nat -> R) (n : nat) :
  rsum (fun j => (c * g j)%R) n = (c * rsum g n)%R.
Proof.
  induction n as [|n IH]; simpl; [ring|]. rewrite IH. ring.
Qed.

Lemma rsum_squares_nonneg (f : nat -> R) (n : nat) :
  (0 <= rsum (fun j => f j * f j) n)%R.
Proof.
  induction n as [|n IH]; simpl; [lra|]. nra.
Qed.

(** Over the real numbers, that is without the rounding to float32 and
    to the working precision and without the overflow of the squares
    that the arrays of the code are subject to: with the weight of the
    initialisation (all ones) a row of real numbers of mean square
    [ms] is mapped to a row of mean square [ms / (ms + eps)], which is
    1 when [eps] is 0 and below 1 when [eps] is positive. *)
Theorem rmsnorm_mean_square
  (eps : R) (weight x : ndarray fval) (B S N b s : nat) (f : nat -> R) :
  shape x = [B; S; N] ->
  shape weight = [N] ->
  b < B -> s < S -> 0 < N ->
  (forall j, j < N -> data weight [j] = Fin 1) ->
  (forall j, j < N -> data x [b; s; j] = Fin (f j)) ->
  let ms := (rsum (fun j => f j * f j) N / INR N)%R in
  (0 < ms + eps)%R ->
  exists y,
    MistralRMSNorm eps weight x = Ok y /\
    shape y = shape x /\
    mean_square_last x [b; s] = Fin ms /\
    mean_square_last y [b; s] = Fin (ms / (ms + eps)).
Proof.
  intros Hx Hw Lb Ls PN Hone Hf ms Hpos.
  destruct (rmsnorm_data eps weight x B S N Hx Hw) as [y [Ey [Sy Dy]]].
  exists y. split; [exact Ey|]. split; [congruence|].
  assert (HN : INR N <> 0%R) by (apply not_0_INR; lia).
  assert (Hms : mean_square_last x [b; s] = Fin ms).
  { unfold mean_square_last, sqnorm_last. rewrite Hx. cbn [last app].
    rewrite (fsum_Fin _ (fun j => (f j * f j)%R)).
    - unfold fdiv, of_nat. destruct (Req_dec_T (INR N) 0); [contradiction|].
      reflexivity.
    - intros e Le. rewrite Hf by assumption. reflexivity. }
  split; [exact Hms|].
  assert (Hsq : sqrt (ms + eps) <> 0%R).
  { apply Rgt_not_eq. apply sqrt_lt_R0. exact Hpos. }
  set (c := (1 / sqrt (ms + eps))%R).
  assert (Hy : forall j, j < N -> data y [b; s; j] = Fin (f j * c * 1)).
  { intros j Lj. rewrite (Dy b s j Lb Ls Lj), Hms, Hf, Hone by assumption.
    unfold fadd, fsqrt, fdiv, fmul, fone, flift1, flift2.
    destruct (Req_dec_T (sqrt (ms + eps)) 0); [contradiction|].
    reflexivity. }
  unfold mean_square_last, sqnorm_last. rewrite Sy. cbn [last app].
  rewrite (fsum_Fin _ (fun j => (c * c * (f j * f j))%R)).
  - unfold fdiv, of_nat. destruct (Req_dec_T (INR N) 0); [contradiction|].
    f_equal. rewrite rsum_scale.
    assert (Hcc : (c * c = 1 / (ms + eps))%R).
    { unfold c.
      replace (1 / sqrt (ms + eps) * (1 / sqrt (ms + eps)))%R
        with (1 / (sqrt (ms + eps) * sqrt (ms + eps)))%R
        by (field; exact Hsq).
      rewrite sqrt_sqrt by lra. reflexivity. }
    rewrite Hcc. unfold ms. field. split; [exact HN|].
    replace (rsum (fun j => f j * f j) N + eps * INR N)%R
      with (INR N * (ms + eps))%R by (unfold ms; field; exact HN).
    apply Rgt_not_eq. apply Rmult_lt_0_compat; [|exact Hpos].
    apply lt_0_INR. exact PN.
  - intros e Le. rewrite Hy by assumption.
    unfold fmul, flift2. f_equal. ring.
Qed.

Lemma rmsnorm_mean_square_witness :
  exists y,
    MistralRMSNorm (/ 1000000) (full [8] fone) prompt_hidden = Ok y /\
    mean_square_last y [0; 1]
    = Fin (rsum (fun _ => (1 * 1)%R) 8 / INR 8
           / (rsum (fun _ => (1 * 1)%R) 8 / INR 8 + / 1000000)).
Proof.
  destruct (rmsnorm_mean_square (/ 1000000) (full [8] fone) prompt_hidden
              1 3 8 0 1 (fun _ => 1%R)) as [y [E [_ [_ M]]]].
  - reflexivity.
  - reflexivity.
  - lia.
  - lia.
  - lia.
  - intros j _. reflexivity.
  - intros j _. reflexivity.
  - replace (INR 8) with 8%R by (simpl; lra).
    replace (rsum (fun _ => (1 * 1)%R) 8) with 8%R by (simpl; lra).
    lra.
  - exists y. split; [exact E | exact M].
Defined.

(** A row of zeros is mapped to zeros when [eps] is positive, and to
    NaN when [eps] is 0 (the reciprocal root of 0 is not finite). *)
Theorem rmsnorm_zero_row
  (eps : R) (weight x : ndarray fval) (B S N b s : nat) :
  shape x = [B; S; N] ->
  shape weight = [N] ->
  b < B -> s < S ->
  (forall j, j < N -> exists w, data weight [j] = Fin w) ->
  (forall j, j < N -> data x [b; s; j] = Fin 0) ->
  exists y,
    MistralRMSNorm eps weight x = Ok y /\
    ((0 < eps)%R -> forall j, j < N -> data y [b; s; j] = Fin 0) /\
    (eps = 0%R -> forall j, j < N -> data y [b; s; j] = NaN).
Proof.
  intros Hx Hw Lb Ls Hfin Hzero.
  destruct (rmsnorm_data eps weight x B S N Hx Hw) as [y [Ey [Sy Dy]]].
  exists y. split; [exact Ey|].
  assert (Hms : 0 < N -> mean_square_last x [b; s] = Fin 0).
  { intros PN. unfold mean_square_last, sqnorm_last. rewrite Hx.
    cbn [last app].
    rewrite (fsum_Fin _ (fun _ => (0 * 0)%R)).
    - unfold fdiv, of_nat.
      destruct (Req_dec_T (INR N) 0) as [Hz|Hnz].
      + exfalso. revert Hz. apply not_0_INR. lia.
      + f_equal. rewrite (rsum_scale 0 (fun _ => 0%R)). field. exact Hnz.
    - intros e Le. rewrite Hzero by assumption. reflexivity. }
  split.
  - intros He j Lj. rewrite (Dy b s j Lb Ls Lj), Hms by lia.
    destruct (Hfin j Lj) as [w Hwj]. rewrite Hwj, Hzero by assumption.
    unfold fadd, fsqrt, fdiv, fmul, fone, flift1, flift2.
    assert (Hsq : sqrt (0 + eps) <> 0%R).
    { apply Rgt_not_eq. apply sqrt_lt_R0. lra. }
    destruct (Req_dec_T (sqrt (0 + eps)) 0); [contradiction|].
    f_equal. field. exact Hsq.
  - intros He j Lj. rewrite (Dy b s j Lb Ls Lj), Hms by lia.
    subst eps.
    unfold fadd, fsqrt, fdiv, fmul, fone, flift1, flift2.
    replace (0 + 0)%R with 0%R by ring. rewrite sqrt_0.
    destruct (Req_dec_T 0 0) as [_|Hne]; [|contradiction].
    rewrite Hzero by assumption. reflexivity.
Qed.

Lemma rmsnorm_zero_row_witness :
  exists y,
    MistralRMSNorm (/ 1000000) (full [8] fone) (full [1; 3; 8] fzero)
    = Ok y /\
    data y [0; 1; 5] = Fin 0.
Proof.
  assert (Heps : (0 < / 1000000)%R) by lra.
  destruct (rmsnorm_zero_row (/ 1000000) (full [8] fone)
              (full [1; 3; 8] fzero) 1 3 8 0 1) as [y [E [Z _]]].
  - reflexivity.
  - reflexivity.
  - lia.
  - lia.
  - intros j _. exists 1%R. reflexivity.
  - intros j _. reflexivity.
  - exists y. split; [exact E|]. apply (Z Heps). lia.
Defined.

(* ================================================================== *)
(** ** The masks of a call with a cache *)

(** What an append returns, with the entries of the returned mask: the
    key position [j] is admitted for every new query alike, when [j]
    lies below the advanced cursor and the incoming mask admits it. *)
Lemma concatenate_mask_entries
  (c : kv_cache) (q k v : ndarray fval) (am : ndarray bool)
  (B ML NH D n QH QD : nat) :
  shape (cache_key c) = [B; ML; NH; D] ->
  shape (cache_value c) = [B; ML; NH; D] ->
  shape q = [B; n; QH; QD] ->
  shape k = [B; n; NH; D] ->
  shape v = [B; n; NH; D] ->
  shape am = [B; 1; 1; ML] ->
  (0 <= cache_index c)%Z ->
  (cache_index c + Z.of_nat n < 2 ^ 31)%Z ->
  n <= ML ->
  exists c' am',
    concatenate_to_cache_ (Some c) q k v am
    = Ok (c', (q, cache_key c', cache_value c', am')) /\
    cache_index c' = (cache_index c + Z.of_nat n)%Z /\
    shape (cache_key c') = [B; ML; NH; D] /\
    shape am' = [B; 1; n; ML] /\
    forall b i j, b < B -> i < n -> j < ML ->
      data am' [b; 0; i; j]
      = (Z.of_nat j <? cache_index c + Z.of_nat n)%Z && data am [b; 0; 0; j].
Proof.
  intros Hk Hv Hq Hk' Hv' Ham H0 H31 Hn.
  destruct (dynamic_update_slice_cache _ _ _ _ _ _ _ _ Hk Hk' H0 Hn)
    as [kb [Ek [Sk Dk]]].
  destruct (dynamic_update_slice_cache _ _ _ _ _ _ _ _ Hv Hv' H0 Hn)
    as [vb [Ev [Sv Dv]]].
  unfold concatenate_to_cache_. rewrite Hk.
  cbn [rev app repeat List.length]. rewrite Ek, Ev. simpl bind. rewrite Hq.
  rewrite int32_wrap_small by lia.
  unfold broadcast_to, ndim. simpl.
  rewrite Nat.eqb_refl, Bool.orb_true_r. simpl.
  unfold combine_masks, ndim. simpl. rewrite Ham. simpl.
  unfold binop. simpl shape. rewrite Ham, bshape_pad_mask. simpl.
  exists {| cache_key := kb; cache_value := vb;
            cache_index := (cache_index c + Z.of_nat n)%Z |}.
  eexists. split; [reflexivity|]. simpl.
  split; [reflexivity|]. split; [exact Sk|]. split; [reflexivity|].
  intros b i j Lb Li Lj.
  unfold bcast_index. simpl.
  rewrite !(bcast_keep B b), !(bcast_keep ML j) by assumption.
  reflexivity.
Qed.

(** The window that a call with a cache cuts from the causal mask: [n]
    rows that start at the advanced cursor (or at the last start at
    which [n] rows fit). *)
Lemma causal_window_cached_entries
  (c : kv_cache) (B ML NH D n C : nat) :
  shape (cache_key c) = [B; ML; NH; D] ->
  (0 <= cache_index c)%Z ->
  n <= C -> ML <= C ->
  exists cw,
    causal_window (Some c) (make_causal_mask C) n ML = Ok cw /\
    shape cw = [1; 1; n; ML] /\
    forall i j,
      data cw [0; 0; i; j]
      = (j <=? Nat.min (Z.to_nat (cache_index c)) (C - n) + i).
Proof.
  intros Hk H0 Hn Hml. unfold causal_window. rewrite Hk.
  unfold dynamic_slice, ndim. cbn [make_causal_mask shape List.length].
  cbn [Nat.eqb negb all_le].
  replace (n <=? C) with true by (symmetry; apply Nat.leb_le; lia).
  replace (ML <=? C) with true by (symmetry; apply Nat.leb_le; lia).
  cbn [Nat.leb andb negb].
  eexists. split; [reflexivity|]. split; [reflexivity|].
  intros i j. cbn [data clamp_starts].
  rewrite !clamp_start_0 by lia.
  rewrite clamp_start_nonneg by lia.
  unfold add_index. cbn [combine map fst snd Nat.add]. reflexivity.
Qed.

(** With a cache of cursor [c] that [n] tokens are appended to, both
    masks of the call admit the same key positions for each of the [n]
    queries: the positions below [c + n] that the incoming mask admits.
    A query of the chunk is not kept from the tokens of the chunk that
    follow it: the window of the causal mask starts at the advanced
    cursor [c + n], not at [c]. *)
Theorem cached_masks_are_not_causal
  (c : kv_cache) (q k v : ndarray fval) (am : ndarray bool)
  (B ML NH D n QH QD C : nat) :
  shape (cache_key c) = [B; ML; NH; D] ->
  shape (cache_value c) = [B; ML; NH; D] ->
  shape q = [B; n; QH; QD] ->
  shape k = [B; n; NH; D] ->
  shape v = [B; n; NH; D] ->
  shape am = [B; 1; 1; ML] ->
  (0 <= cache_index c)%Z ->
  (cache_index c + Z.of_nat n < 2 ^ 31)%Z ->
  n <= ML -> ML <= C ->
  (cache_index c + Z.of_nat n + Z.of_nat n <= Z.of_nat C)%Z ->
  exists am' cw,
    cached_masks c q k v am (make_causal_mask C) = Ok (am', cw) /\
    forall b i j, b < B -> i < n -> j < ML ->
      data am' [b; 0; i; j]
      = (Z.of_nat j <? cache_index c + Z.of_nat n)%Z && data am [b; 0; 0; j]
      /\
      ((Z.of_nat j < cache_index c + Z.of_nat n)%Z ->
       data cw [0; 0; i; j] = true).
Proof.
  intros Hk Hv Hq Hk' Hv' Ham H0 H31 Hn Hml Hfit.
  destruct (concatenate_mask_entries c q k v am B ML NH D n QH QD
              Hk Hv Hq Hk' Hv' Ham H0 H31 Hn)
    as [c' [am' [Ec [Ic [Sk Dam]]]]].
  destruct Dam as [Sam Dam].
  destruct (causal_window_cached_entries c' B ML NH D n C Sk)
    as [cw [Ew [Sw Dw]]]; try lia.
  unfold cached_masks. rewrite Ec. unfold bind at 1. cbv beta iota zeta.
  rewrite Hq, Sk. rewrite Ew. unfold bind.
  exists am', cw. split; [reflexivity|].
  intros b i j Lb Li Lj. split; [apply Dam; assumption|].
  intros Hj. rewrite Dw, Ic. apply Nat.leb_le. lia.
Qed.

Lemma cached_masks_are_not_causal_witness :
  exists am' cw,
    cached_masks (small_cache 4 0) (new_tokens 2) (new_tokens 2)
      (new_tokens 2) (ones_mask4 4) (make_causal_mask 4) = Ok (am', cw) /\
    data am' [0; 0; 0; 1] = true /\
    data cw [0; 0; 0; 1] = true.
Proof.
  destruct (cached_masks_are_not_causal (small_cache 4 0) (new_tokens 2)
              (new_tokens 2) (new_tokens 2) (ones_mask4 4)
              1 4 1 1 2 1 1 4) as [am' [cw [E D]]].
  - reflexivity.
  - reflexivity.
  - reflexivity.
  - reflexivity.
  - reflexivity.
  - reflexivity.
  - simpl. lia.
  - simpl. lia.
  - lia.
  - lia.
  - simpl. lia.
  - exists am', cw. split; [exact E|].
    destruct (D 0 0 1) as [D1 D2]; try lia.
    split; [rewrite D1; reflexivity | apply D2; simpl; lia].
Defined.

(* ================================================================== *)
(** ** Calls that leave the attention mask out *)

(** A model with a decoder layer raises on a mask of rank 2: the module
    makes it a mask of rank 4, and the attention call adds two more
    axes. *)
Lemma causal_lm_rank2_mask_raises
  config dt act_fn p lp lps tables caches input_ids am pos input_embeds
  init_cache oa ohs return_dict :
  FlaxMistralModule_setup config = Ok tables ->
  ndim am = 2 ->
  raises (FlaxMistralForCausalLMModule config p
            (map (FlaxMistralDecoderLayer config dt act_fn) (lp :: lps))
            tables caches input_ids am pos input_embeds init_cache oa
            ohs return_dict).
Proof.
  intros Hsetup Ham.
  apply setup_causal_mask_rank in Hsetup.
  unfold ndim in Ham.
  destruct (shape am) as [|B [|S [|? ?]]] eqn:Sam; try discriminate.
  unfold FlaxMistralForCausalLMModule.
  destruct (shape input_ids) as [|b [|s [|? ?]]]; try apply raises_Raise.
  apply raises_bind_l. unfold FlaxMistralModule.
  apply raises_bind_r; intros embeds _.
  rewrite Sam.
  apply raises_bind_r; intros am' Ham'.
  apply (module_mask_rank am am' B S Sam) in Ham'.
  apply raises_bind_l. unfold FlaxMistralDecoratorCollection.
  apply raises_bind_l. cbn [map collection_loop].
  apply raises_bind_l. unfold collection_step.
  apply raises_bind_r; intros ahs _.
  apply raises_bind_r; intros t _.
  apply raises_bind_l. cbn [ls_hidden_state].
  apply decoder_layer_raises; [lia | exact Hsetup].
Qed.

(** A model without decoder layers leaves no cache behind. *)
Lemma causal_lm_no_layers_no_cache
  config p tables caches input_ids am pos input_embeds init_cache oa ohs
  return_dict r :
  FlaxMistralForCausalLMModule config p [] tables caches input_ids am pos
    input_embeds init_cache oa ohs return_dict = Ok r ->
  fst r = [].
Proof.
  unfold FlaxMistralForCausalLMModule. intros H.
  destruct (shape input_ids) as [|b [|s [|? ?]]]; try discriminate.
  apply bind_Ok_inv in H. destruct H as [[caches' outputs] [Hm H]].
  assert (Hc : caches' = []).
  { unfold FlaxMistralModule in Hm.
    apply bind_Ok_inv in Hm. destruct Hm as [embeds [_ Hm]].
    apply bind_Ok_inv in Hm. destruct Hm as [am' [_ Hm]].
    apply bind_Ok_inv in Hm. destruct Hm as [[cs [[o0 o1] o2]] [Hcol Hm]].
    unfold FlaxMistralDecoratorCollection in Hcol.
    cbn [collection_loop bind fst snd] in Hcol. inversion Hcol; subst.
    apply bind_Ok_inv in Hm. destruct Hm as [hs [_ Hm]].
    apply bind_Ok_inv in Hm. destruct Hm as [outs [_ Hm]].
    destruct (negb return_dict).
    - inversion Hm. reflexivity.
    - apply bind_Ok_inv in Hm. destruct Hm as [o [_ Hm]].
      inversion Hm. reflexivity. }
  subst caches'.
  apply bind_Ok_inv in H. destruct H as [first [_ H]].
  apply bind_Ok_inv in H. destruct H as [hidden [_ H]].
  apply bind_Ok_inv in H. destruct H as [logits [_ H]].
  destruct (negb return_dict).
  - inversion H. reflexivity.
  - destruct outputs; inversion H. reflexivity.
Qed.

Lemma init_cache_always_raises
  config dt act_fn p lps tables batch_size max_length :
  FlaxMistralModule_setup config = Ok tables ->
  raises (init_cache config p
            (map (FlaxMistralDecoderLayer config dt act_fn) lps) tables
            batch_size max_length).
Proof.
  intros Hsetup. unfold init_cache.
  apply raises_bind_r; intros pos _.
  destruct lps as [|lp lps].
  - apply raises_bind_r; intros r Hr.
    apply causal_lm_no_layers_no_cache in Hr. rewrite Hr.
    apply raises_Raise.
  - apply raises_bind_l.
    apply causal_lm_rank2_mask_raises; [exact Hsetup | reflexivity].
Qed.

(** No generation can be prepared: [init_cache] raises for every model
    (the call that should create the cache passes a mask of rank 2, and
    a model without layers creates no cache), and so does
    [prepare_inputs_for_generation], which calls it first. *)
Theorem generation_cannot_be_prepared
  config dt act_fn p lps tables batch_size max_length input_ids
  attention_mask :
  FlaxMistralModule_setup config = Ok tables ->
  raises (init_cache config p
            (map (FlaxMistralDecoderLayer config dt act_fn) lps) tables
            batch_size max_length) /\
  raises (prepare_inputs_for_generation
            (init_cache config p
               (map (FlaxMistralDecoderLayer config dt act_fn) lps) tables)
            input_ids max_length attention_mask).
Proof.
  intros Hsetup. split.
  - apply init_cache_always_raises. exact Hsetup.
  - unfold prepare_inputs_for_generation.
    destruct (shape input_ids) as [|b [|s [|? ?]]]; try apply raises_Raise.
    apply raises_bind_l. apply init_cache_always_raises. exact Hsetup.
Qed.

Lemma generation_cannot_be_prepared_witness :
  raises (init_cache tiny_config tiny_lm_params tiny_layers tiny_tables 1 4)
  /\
  raises (prepare_inputs_for_generation
            (init_cache tiny_config tiny_lm_params tiny_layers tiny_tables)
            prompt_ids 4 None).
Proof.
  apply (generation_cannot_be_prepared tiny_config bfloat16 (fun x => x)
           tiny_lm_params [tiny_layer] tiny_tables 1 4 prompt_ids None).
  reflexivity.
Defined.

(** A call of [FlaxMistralForCausalLMModule] that leaves the attention
    mask out, or passes one of rank 2, raises when the model has a
    decoder layer: the mask of ones that stands in has the rank of
    [input_ids]. *)
Theorem causal_lm_default_mask_raises
  config dt act_fn p lp lps tables caches input_ids attention_mask
  position_ids input_embeds init_cache oa ohs return_dict :
  FlaxMistralModule_setup config = Ok tables ->
  (forall am, attention_mask = Some am -> ndim am = 2) ->
  raises (FlaxMistralForCausalLMModule_call config p
            (map (FlaxMistralDecoderLayer config dt act_fn) (lp :: lps))
            tables caches input_ids attention_mask position_ids
            input_embeds init_cache oa ohs return_dict).
Proof.
  intros Hsetup Ham. unfold FlaxMistralForCausalLMModule_call.
  destruct (shape input_ids) as [|b [|s [|? ?]]] eqn:Sids;
    try apply raises_Raise.
  apply raises_bind_r; intros pos _.
  apply causal_lm_rank2_mask_raises; [exact Hsetup|].
  destruct attention_mask as [am|].
  - unfold mask_of_int, amap, ndim. cbn [shape]. apply (Ham am eq_refl).
  - reflexivity.
Qed.

Lemma causal_lm_default_mask_raises_witness :
  raises (FlaxMistralForCausalLMModule_call tiny_config tiny_lm_params
            tiny_layers tiny_tables [None] prompt_ids None None None
            false false false true).
Proof.
  apply (causal_lm_default_mask_raises tiny_config bfloat16 (fun x => x)
           tiny_lm_params tiny_layer [] tiny_tables).
  - reflexivity.
  - intros am H. discriminate.
Defined.

(* ================================================================== *)
(** ** Generation: positions *)

Lemma last_cons {A : Type} (l : list A) :
  forall a d, last (a :: l) d = last l a.
Proof.
  induction l as [|x l IH]; intros a d; [reflexivity|].
  change (last (a :: x :: l) d) with (last (x :: l) d).
  rewrite !IH. reflexivity.
Qed.

Lemma update_step {C : Type} (o : C) (kw : generation_inputs C) (B S : nat) :
  shape (gi_position_ids kw) = [B; S] -> 0 < S ->
  exists kw',
    update_inputs_for_generation o kw = Ok kw' /\
    gi_past_key_values kw' = o /\
    gi_attention_mask kw' = gi_attention_mask kw /\
    shape (gi_position_ids kw') = [B; 1] /\
    forall b,
      data (gi_position_ids kw') [b; 0]
      = int32_wrap (data (gi_position_ids kw) [b; (S - 1)%nat] + 1).
Proof.
  intros Hp HS. unfold update_inputs_for_generation, last_column.
  rewrite Hp. unfold bind.
  eexists. split; [reflexivity|].
  cbn [gi_past_key_values gi_attention_mask gi_position_ids amap shape data].
  split; [reflexivity|]. split; [reflexivity|].
  split; [f_equal; f_equal; lia|].
  intros b. rewrite Nat.add_0_r. reflexivity.
Qed.

(** A generation loop advances the position by one per step: after
    [k] calls of [update_inputs_for_generation] the position ids hold
    one column, the last position of the prompt plus [k]; the mask is
    the one the loop started from and the cache the one of the last
    model call. *)
Theorem update_inputs_advance_positions {C : Type} (outputs : list C) :
  forall (o : C) (kw : generation_inputs C) (B S : nat),
    shape (gi_position_ids kw) = [B; S] -> 0 < S ->
    (forall b, b < B ->
       (- 2 ^ 31 <= data (gi_position_ids kw) [b; (S - 1)%nat])%Z /\
       (data (gi_position_ids kw) [b; (S - 1)%nat]
        + Z.of_nat (Datatypes.S (List.length outputs)) < 2 ^ 31)%Z) ->
    exists kw',
      run_updates (o :: outputs) kw = Ok kw' /\
      gi_past_key_values kw' = last outputs o /\
      gi_attention_mask kw' = gi_attention_mask kw /\
      shape (gi_position_ids kw') = [B; 1] /\
      forall b, b < B ->
        data (gi_position_ids kw') [b; 0]
        = (data (gi_position_ids kw) [b; (S - 1)%nat]
           + Z.of_nat (Datatypes.S (List.length outputs)))%Z.
Proof.
  induction outputs as [|o2 outputs IH]; intros o kw B S Hp HS Hb.
  - destruct (update_step o kw B S Hp HS) as [kw' [E [P [M [Sp D]]]]].
    exists kw'. cbn [run_updates]. rewrite E. unfold bind.
    repeat split; try assumption.
    intros b Lb. rewrite D. destruct (Hb b Lb) as [H1 H2].
    cbn [List.length] in H2. rewrite int32_wrap_small by lia.
    cbn [List.length]. lia.
  - destruct (update_step o kw B S Hp HS) as [kw1 [E [P [M [Sp D]]]]].
    assert (Hb1 : forall b, b < B ->
              (- 2 ^ 31 <= data (gi_position_ids kw1) [b; (1 - 1)%nat])%Z /\
              (data (gi_position_ids kw1) [b; (1 - 1)%nat]
               + Z.of_nat (Datatypes.S (List.length outputs)) < 2 ^ 31)%Z).
    { intros b Lb. destruct (Hb b Lb) as [H1 H2].
      cbn [List.length] in H2. cbn [Nat.sub]. rewrite D.
      rewrite int32_wrap_small by lia. lia. }
    destruct (IH o2 kw1 B 1 Sp Nat.lt_0_1 Hb1)
      as [kw' [E' [P' [M' [Sp' D']]]]].
    exists kw'. change (run_updates (o :: o2 :: outputs) kw)
      with (kw0 <- update_inputs_for_generation o kw ;;
            run_updates (o2 :: outputs) kw0).
    rewrite E. unfold bind at 1. split; [exact E'|].
    split; [rewrite last_cons; exact P'|]. split; [congruence|].
    split; [exact Sp'|].
    intros b Lb. rewrite (D' b Lb). cbn [Nat.sub]. rewrite D.
    destruct (Hb b Lb) as [H1 H2]. cbn [List.length] in H2.
    rewrite int32_wrap_small by lia. cbn [List.length]. lia.
Qed.

Lemma update_inputs_advance_positions_witness :
  exists kw',
    run_updates [[Some (small_cache 4 3)]; [Some (small_cache 4 4)]]
      {| gi_past_key_values := [Some (small_cache 4 0)];
         gi_attention_mask := full [1; 4] 1%Z;
         gi_position_ids := prompt_positions |} = Ok kw' /\
    gi_past_key_values kw' = [Some (small_cache 4 4)] /\
    shape (gi_position_ids kw') = [1; 1] /\
    data (gi_position_ids kw') [0; 0] = 4%Z.
Proof.
  destruct (update_inputs_advance_positions [[Some (small_cache 4 4)]]
              [Some (small_cache 4 3)]
              {| gi_past_key_values := [Some (small_cache 4 0)];
                 gi_attention_mask := full [1; 4] 1%Z;
                 gi_position_ids := prompt_positions |} 1 3)
    as [kw' [E [P [_ [Sp D]]]]].
  - reflexivity.
  - lia.
  - intros b _. simpl. lia.
  - exists kw'. split; [exact E|]. split; [exact P|]. split; [exact Sp|].
    rewrite D by lia. reflexivity.
Defined.

(* ================================================================== *)
(** ** A forward pass that returns *)

Lemma dense_returns (features : nat) (kernel x : ndarray fval)
  (B S n_in : nat) :
  shape kernel = [n_in; features] ->
  shape x = [B; S; n_in] ->
  exists y, dense features kernel x = Ok y /\ shape y = [B; S; features].
Proof.
  intros Hk Hx. unfold dense. rewrite Hk, Hx. cbn [rev app].
  rewrite !Nat.eqb_refl. cbn [andb].
  eexists. split; reflexivity.
Qed.

Lemma reshape_infer_heads_returns {A : Type} (x : ndarray A)
  (B S N D : nat) :
  shape x = [B; S; N * D] -> 0 < B -> 0 < S -> 0 < D ->
  exists y,
    reshape_infer x [Some B; Some S; None; Some D] = Ok y /\
    shape y = [B; S; N; D].
Proof.
  intros Hx PB PS PD. unfold reshape_infer. rewrite Hx.
  change [Some B; Some S; None; Some D]
    with (map Some [B; S] ++ [None] ++ map Some [D]).
  rewrite (infer_shape_one _ N [B; S] [D]).
  - unfold bind.
    destruct (reshape_ok x ([B; S] ++ [N] ++ [D])) as [y Ey].
    + rewrite Hx. unfold size_of. simpl. ring.
    + exists y. split; [exact Ey|]. apply (reshape_shape _ _ _ Ey).
  - unfold size_of. simpl. ring.
  - unfold size_of. simpl. nia.
Qed.

Lemma binop_same_shape {A B C : Type} (f : A -> B -> C)
  (a : ndarray A) (b : ndarray B) :
  shape a = shape b ->
  exists c, binop f a b = Ok c /\ shape c = shape a.
Proof.
  intros H. unfold binop, broadcast_shapes, pad_left. rewrite <- H.
  rewrite Nat.max_id, Nat.sub_diag. cbn [repeat app].
  rewrite bshape_same. eexists. split; reflexivity.
Qed.

Lemma mlp_returns (config : MistralConfig) (act_fn : fval -> fval)
  (p : mlp_params) (x : ndarray fval) (B S : nat) :
  mlp_shaped config p ->
  shape x = [B; S; hidden_size config] ->
  exists y,
    FlaxMistralMLP config act_fn p x = Ok y /\
    shape y = [B; S; hidden_size config].
Proof.
  intros [Hg [Hu Hd]] Hx. unfold FlaxMistralMLP.
  destruct (dense_returns _ _ x B S _ Hg Hx) as [g [Eg Sg]].
  destruct (dense_returns _ _ x B S _ Hu Hx) as [u [Eu Su]].
  rewrite Eg. unfold bind at 1. rewrite Eu. unfold bind at 1.
  destruct (binop_same_shape fmul (amap act_fn g) u) as [h [Eh Sh]].
  { cbn [amap shape]. congruence. }
  rewrite Eh. unfold bind. cbn [amap shape] in Sh. rewrite Sg in Sh.
  apply (dense_returns _ _ h B S _ Hd Sh).
Qed.

Lemma rmsnorm_returns (eps : R) (weight x : ndarray fval) (B S N : nat) :
  shape x = [B; S; N] -> shape weight = [N] ->
  exists y, MistralRMSNorm eps weight x = Ok y /\ shape y = [B; S; N].
Proof.
  intros Hx Hw.
  destruct (rmsnorm_data eps weight x B S N Hx Hw) as [y [Ey [Sy _]]].
  exists y. split; assumption.
Qed.

(** A mask of rank 2, [batch, seq], merges with the causal mask. *)
Lemma masks_merge_rank2 (am : ndarray bool) (B S C : nat) :
  shape am = [B; S] -> S <= C -> masks_merge B S am (make_causal_mask C).
Proof.
  intros Ham HS.
  destruct (cache_free_masks am B S S C Ham HS HS) as [cw [m [E1 [E2 [Sm _]]]]].
  exists cw, m. repeat split; assumption.
Qed.

(** The attention call without a cache returns a tensor of the shape
    of its input when the kernels fit the configuration and the masks
    can be merged. *)
Lemma attention_returns
  (config : MistralConfig) (dt : dtype) (p : attention_params)
  (hidden_state : ndarray fval) (fc : ndarray complex)
  (am cm : ndarray bool) (pos : ndarray Z) (B S E P : nat) :
  heads_divide config P ->
  attention_shaped config P p ->
  shape hidden_state = [B; S; hidden_size config] ->
  0 < B -> 0 < S ->
  shape fc = [E; P] ->
  shape pos = [B; S] ->
  masks_merge B S am cm ->
  forall oa,
  exists out attn_output,
    FlaxMistralAttention config dt p None hidden_state fc am cm pos
      false oa = Ok (None, if oa then [out; attn_output] else [out]) /\
    shape out = [B; S; hidden_size config] /\
    shape attn_output = [B; S; hidden_size config].
Proof.
  intros [PP [PNH [PNKV [Hhid Hgrp]]]] [Hq [Hk [Hv Ho]]] Hh PB PS Hfc Hpos
    [cw [m [Ecw [Em Sm]]]] oa.
  set (NH := num_attention_heads config) in *.
  set (NKV := num_key_value_heads config) in *.
  set (HS := hidden_size config) in *.
  unfold FlaxMistralAttention. fold NH NKV HS.
  assert (Ehd : floordiv HS NH = Ok (2 * P)).
  { unfold floordiv.
    replace (NH =? 0) with false by (symmetry; apply Nat.eqb_neq; lia).
    rewrite Hhid, Nat.mul_comm, Nat.div_mul by lia. reflexivity. }
  assert (Eg : floordiv NH NKV = Ok (NH / NKV)).
  { unfold floordiv.
    replace (NKV =? 0) with false by (symmetry; apply Nat.eqb_neq; lia).
    reflexivity. }
  rewrite Ehd. unfold bind at 1. rewrite Eg. unfold bind at 1.
  rewrite Hh.
  destruct (dense_returns _ _ hidden_state B S _ Hq Hh) as [q0 [Eq0 Sq0]].
  destruct (dense_returns _ _ hidden_state B S _ Hk Hh) as [k0 [Ek0 Sk0]].
  destruct (dense_returns _ _ hidden_state B S _ Hv Hh) as [v0 [Ev0 Sv0]].
  rewrite Eq0. unfold bind at 1. rewrite Ek0. unfold bind at 1.
  rewrite Ev0. unfold bind at 1.
  destruct (reshape_infer_heads_returns q0 B S NH (2 * P) Sq0)
    as [q1 [Eq1 Sq1]]; try lia.
  destruct (reshape_infer_heads_returns k0 B S NKV (2 * P) Sk0)
    as [k1 [Ek1 Sk1]]; try lia.
  destruct (reshape_infer_heads_returns v0 B S NKV (2 * P) Sv0)
    as [v1 [Ev1 Sv1]]; try lia.
  rewrite Eq1. unfold bind at 1. rewrite Ek1. unfold bind at 1.
  rewrite Ev1. unfold bind at 1.
  destruct (rotary_embedding_returns fc pos q1 k1 B S NH NKV P E
              Hfc Hpos Sq1 Sk1 PB PS PNH PNKV)
    as [q2 [k2 [Erot [Sq2 Sk2]]]].
  rewrite Erot. unfold bind at 1. cbn [fst snd].
  destruct (repeat_kv_data k2 B S NKV (2 * P) (NH / NKV) Sk2)
    as [k3 [Ek3 [Sk3 _]]].
  destruct (repeat_kv_data v1 B S NKV (2 * P) (NH / NKV) Sv1)
    as [v3 [Ev3 [Sv3 _]]].
  rewrite <- Hgrp in Sk3, Sv3.
  rewrite Ek3. unfold bind at 1. rewrite Ev3. unfold bind at 1.
  unfold bind at 1. cbv beta iota zeta.
  rewrite Sq2, Sk3. rewrite Ecw. unfold bind at 1.
  rewrite Em. unfold bind at 1.
  destruct (attention_weights_data q2 k3 (attention_bias_of dt m)
              B S S NH (2 * P) Sq2 Sk3) as [w [Ew [Sw _]]].
  { cbn [attention_bias_of amap shape]. exact Sm. }
  rewrite Ew. unfold bind at 1.
  destruct (weighted_values_data w v3 B S S NH (2 * P) Sw Sv3)
    as [o1 [Eo1 [So1 _]]].
  rewrite Eo1. unfold bind at 1. rewrite So1.
  change (firstn 2 [B; S; NH; 2 * P] ++ [HS]) with [B; S; HS].
  destruct (reshape_ok o1 [B; S; HS]) as [o2 Eo2].
  { rewrite So1, Hhid. unfold size_of. simpl. ring. }
  rewrite Eo2. unfold bind at 1.
  pose proof (reshape_shape _ _ _ Eo2) as So2.
  destruct (dense_returns _ _ o2 B S _ Ho So2) as [out [Eout Sout]].
  rewrite Eout. unfold bind.
  exists out, o2. split; [reflexivity|]. split; assumption.
Qed.

Lemma decoder_layer_returns
  (config : MistralConfig) (dt : dtype) (act_fn : fval -> fval)
  (lp : layer_params) (hidden_state : ndarray fval) (fc : ndarray complex)
  (am cm : ndarray bool) (pos : ndarray Z) (B S E P : nat) :
  heads_divide config P ->
  layer_shaped config P lp ->
  shape hidden_state = [B; S; hidden_size config] ->
  0 < B -> 0 < S ->
  shape fc = [E; P] ->
  shape pos = [B; S] ->
  masks_merge B S am cm ->
  exists h',
    FlaxMistralDecoderLayer config dt act_fn lp None hidden_state fc am cm
      pos false false = Ok (None, [h']) /\
    shape h' = [B; S; hidden_size config].
Proof.
  intros Hcfg [Hatt [Hmlp [Hn1 Hn2]]] Hh PB PS Hfc Hpos Hmask.
  unfold FlaxMistralDecoderLayer.
  destruct (rmsnorm_returns (rms_norm_eps config) (input_layernorm lp)
              hidden_state B S _ Hh Hn1) as [n1 [En1 Sn1]].
  rewrite En1. unfold bind at 1.
  destruct (attention_returns config dt (self_attn lp) n1 fc am cm pos
              B S E P Hcfg Hatt Sn1 PB PS Hfc Hpos Hmask false)
    as [a0 [a1 [Ea [Sa _]]]].
  rewrite Ea. unfold bind at 1. cbv beta iota zeta.
  unfold getitem at 1. cbn [nth_error]. unfold bind at 1.
  destruct (binop_same_shape fadd a0 hidden_state) as [h1 [Eh1 Sh1]];
    [congruence|].
  rewrite Eh1. unfold bind at 1. rewrite Sa in Sh1.
  destruct (rmsnorm_returns (rms_norm_eps config)
              (post_attention_layernorm lp) h1 B S _ Sh1 Hn2)
    as [n2 [En2 Sn2]].
  rewrite En2. unfold bind at 1.
  destruct (mlp_returns config act_fn (mlp lp) n2 B S Hmlp Sn2)
    as [m [Em Sm]].
  rewrite Em. unfold bind at 1.
  destruct (binop_same_shape fadd m h1) as [h2 [Eh2 Sh2]]; [congruence|].
  rewrite Eh2. unfold bind at 1. cbn [as_array_tuple arrays_of bind].
  exists h2. split; [reflexivity | congruence].
Qed.

Lemma collection_loop_returns
  (config : MistralConfig) (dt : dtype) (act_fn : fval -> fval)
  (fc : ndarray complex) (am cm : ndarray bool) (pos : ndarray Z)
  (B S E P : nat) (lps : list layer_params) :
  heads_divide config P ->
  Forall (layer_shaped config P) lps ->
  0 < B -> 0 < S ->
  shape fc = [E; P] ->
  shape pos = [B; S] ->
  masks_merge B S am cm ->
  forall caches st,
    Forall (eq None) caches ->
    shape (ls_hidden_state st) = [B; S; hidden_size config] ->
    ls_output_attentions st = PyBool false ->
    exists h',
      collection_loop (map (FlaxMistralDecoderLayer config dt act_fn) lps)
        caches fc am cm pos false false st
      = Ok (repeat None (List.length lps),
            {| ls_hidden_state := h';
               ls_all_hidden_states := ls_all_hidden_states st;
               ls_output_attentions := PyBool false |}) /\
      shape h' = [B; S; hidden_size config].
Proof.
  intros Hcfg Hlps PB PS Hfc Hpos Hmask.
  induction Hlps as [|lp lps Hlp Hlps IH]; intros caches st Hc Hh Hoa.
  - exists (ls_hidden_state st). split; [|exact Hh].
    destruct st as [h hs oa]. cbn in Hoa. subst oa. reflexivity.
  - cbn [map collection_loop List.length repeat].
    assert (Hhd : hd None caches = None).
    { destruct Hc as [|c cs Hc0 _]; [reflexivity | symmetry; exact Hc0]. }
    assert (Htl : Forall (eq None) (tl caches)).
    { destruct Hc as [|c cs _ Hc']; [constructor | exact Hc']. }
    rewrite Hhd. unfold collection_step at 1. cbn [bind].
    rewrite Hoa. cbn [truthy bind].
    destruct (decoder_layer_returns config dt act_fn lp (ls_hidden_state st)
                fc am cm pos B S E P Hcfg Hlp Hh PB PS Hfc Hpos Hmask)
      as [h1 [E1 S1]].
    rewrite E1. cbn [bind getitem nth_error fst snd].
    match goal with
    | |- context [collection_loop _ _ _ _ _ _ _ _ ?st1] =>
        destruct (IH (tl caches) st1 Htl S1 eq_refl) as [h' [E' S']]
    end.
    rewrite E'. cbn [bind fst snd ls_all_hidden_states].
    exists h'. split; [reflexivity | exact S'].
Qed.

(** Called with a mask of rank 2, [batch, seq], the stack of decoder
    layers returns: hidden states of the shape of its input, no cache,
    and [None] for both diagnostics.  The layers were written for the
    mask of rank 2 that [FlaxMistralModule] turns into one of rank 4
    before it calls them. *)
Theorem decoder_stack_returns
  (config : MistralConfig) (dt : dtype) (act_fn : fval -> fval)
  (lps : list layer_params) (hidden_state : ndarray fval)
  (fc : ndarray complex) (am : ndarray bool) (pos : ndarray Z)
  (B S E P C : nat) :
  heads_divide config P ->
  Forall (layer_shaped config P) lps ->
  shape hidden_state = [B; S; hidden_size config] ->
  0 < B -> 0 < S -> S <= C ->
  shape fc = [E; P] ->
  shape pos = [B; S] ->
  shape am = [B; S] ->
  exists h',
    FlaxMistralDecoratorCollection
      (map (FlaxMistralDecoderLayer config dt act_fn) lps)
      (repeat None (List.length lps)) hidden_state fc am
      (make_causal_mask C) pos false false false
    = Ok (repeat None (List.length lps), (h', PyNone, PyNone)) /\
    shape h' = shape hidden_state.
Proof.
  intros Hcfg Hlps Hh PB PS HC Hfc Hpos Ham.
  unfold FlaxMistralDecoratorCollection.
  destruct (collection_loop_returns config dt act_fn fc am
              (make_causal_mask C) pos B S E P lps Hcfg Hlps PB PS Hfc Hpos
              (masks_merge_rank2 am B S C Ham HC)
              (repeat None (List.length lps))
              {| ls_hidden_state := hidden_state;
                 ls_all_hidden_states := PyNone;
                 ls_output_attentions := PyBool false |})
    as [h' [E' S']].
  - clear. induction (List.length lps); constructor; auto.
  - exact Hh.
  - reflexivity.
  - rewrite E'. cbn [bind fst snd ls_hidden_state ls_all_hidden_states].
    exists h'. split; [reflexivity | congruence].
Qed.

Lemma decoder_stack_returns_witness :
  exists h',
    FlaxMistralDecoratorCollection tiny_layers [None] prompt_hidden
      (freq_cis tiny_tables) prompt_mask (make_causal_mask 4)
      prompt_positions false false false
    = Ok ([None], (h', PyNone, PyNone)) /\
    shape h' = [1; 3; 8].
Proof.
  apply (decoder_stack_returns tiny_config bfloat16 (fun x => x)
           [tiny_layer] prompt_hidden (freq_cis tiny_tables) prompt_mask
           prompt_positions 1 3 8 2 4).
  - unfold heads_divide. simpl. lia.
  - constructor; [|constructor].
    unfold layer_shaped, attention_shaped, mlp_shaped. simpl.
    repeat split; reflexivity.
  - reflexivity.
  - lia.
  - lia.
  - lia.
  - reflexivity.
  - reflexivity.
  - reflexivity.
Defined.

(** A mask of rank 1, [seq], merges with the causal mask as well: the
    two axes that line 361 inserts make it a mask of rank 3. *)
Lemma masks_merge_rank1 (am : ndarray bool) (B S C : nat) :
  shape am = [S] -> S <= C -> masks_merge B S am (make_causal_mask C).
Proof.
  intros Ham HS. unfold masks_merge.
  unfold causal_window, slice_prefix4. cbn [make_causal_mask shape].
  rewrite (Nat.min_l S C) by assumption.
  eexists. eexists. split; [reflexivity|].
  unfold merge_masks. cbn [shape tl].
  rewrite broadcast_to_same_rank; [|reflexivity|].
  2: { cbn [shape]. simpl. rewrite !Nat.eqb_refl, !Bool.orb_true_r.
       reflexivity. }
  unfold bind at 1.
  assert (Eexp : expand_dims am [(-3)%Z; (-2)%Z]
                 = Ok (NDArray [1; 1; S]
                         (fun ix => data am (squeeze_index [0; 1] 0 ix)))).
  { unfold expand_dims, ndim. rewrite Ham. reflexivity. }
  rewrite Eexp. unfold bind at 1. cbn [shape].
  unfold broadcast_to, ndim. cbn [shape List.length Nat.ltb Nat.leb Nat.sub
    skipn dims_compatible].
  rewrite !Nat.eqb_refl, !Bool.orb_true_r. cbn [orb andb bind].
  unfold combine_masks, ndim. cbn [shape List.length].
  change (4 =? 4) with true. cbv iota.
  unfold binop. cbn [shape]. unfold broadcast_shapes, pad_left.
  cbn [List.length Nat.max Nat.sub repeat app].
  rewrite bshape_same.
  split; reflexivity.
Qed.

Lemma setup_tables (config : MistralConfig) (tables : module_tables)
  (P : nat) :
  heads_divide config P ->
  FlaxMistralModule_setup config = Ok tables ->
  shape (freq_cis tables) = [max_position_embeddings config * 2; P] /\
  causal_mask tables = make_causal_mask (c_max_position_embeddings config).
Proof.
  intros [PP [PNH [_ [Hhid _]]]] H. unfold FlaxMistralModule_setup in H.
  apply bind_Ok_inv in H. destruct H as [dim [Ed H]].
  apply floordiv_Ok in Ed. destruct Ed as [_ ->].
  rewrite Hhid, (Nat.mul_comm (num_attention_heads config)), Nat.div_mul in H
    by lia.
  unfold precompute_freq_cis, bind in H.
  replace (2 * P / 2) with P in H
    by (rewrite Nat.mul_comm, Nat.div_mul; lia).
  injection H as Ht. rewrite <- Ht.
  split; reflexivity.
Qed.

(** The whole model returns logits of shape [batch, seq, vocab] when
    it is called with an attention mask of rank 1, [seq]:
    [FlaxMistralModule] passes such a mask on as it is, and the two
    axes that the attention call inserts make it fit the causal
    mask. *)
Theorem causal_lm_returns_for_rank1_mask
  (config : MistralConfig) (dt : dtype) (act_fn : fval -> fval)
  (p : lm_params) (lps : list layer_params) (tables : module_tables)
  (input_ids : ndarray Z) (am : ndarray bool) (pos : ndarray Z)
  (return_dict : bool) (B S P : nat) :
  heads_divide config P ->
  Forall (layer_shaped config P) lps ->
  FlaxMistralModule_setup config = Ok tables ->
  tie_word_embeddings config = false ->
  shape (embed_tokens (model p)) = [vocab_size config; hidden_size config] ->
  shape (norm (model p)) = [hidden_size config] ->
  shape (lm_head p) = [hidden_size config; vocab_size config] ->
  shape input_ids = [B; S] ->
  shape pos = [B; S] ->
  shape am = [S] ->
  0 < B -> 0 < S -> S <= c_max_position_embeddings config ->
  exists logits,
    FlaxMistralForCausalLMModule config p
      (map (FlaxMistralDecoderLayer config dt act_fn) lps) tables
      (repeat None (List.length lps)) input_ids am pos None
      false false false return_dict
    = Ok (repeat None (List.length lps),
          if return_dict then CausalLMOutput logits PyNone PyNone
          else LMTuple [PyArray logits]) /\
    shape logits = [B; S; vocab_size config].
Proof.
  intros Hcfg Hlps Hsetup Htie Hemb Hnorm Hhead Hids Hpos Ham PB PS HC.
  destruct (setup_tables config tables P Hcfg Hsetup) as [Hfc Hcm].
  unfold FlaxMistralForCausalLMModule. rewrite Hids.
  unfold FlaxMistralModule.
  assert (Eemb : exists e,
            embed (embed_tokens (model p)) input_ids = Ok e /\
            shape e = [B; S; hidden_size config]).
  { unfold embed, take0. rewrite Hemb. eexists. split; [reflexivity|].
    cbn [shape]. rewrite Hids. reflexivity. }
  destruct Eemb as [e [Ee Se]].
  rewrite Ee. unfold bind at 2. rewrite Ham. unfold bind at 2.
  unfold FlaxMistralDecoratorCollection.
  destruct (collection_loop_returns config dt act_fn (freq_cis tables) am
              (causal_mask tables) pos B S _ P lps Hcfg Hlps PB PS Hfc Hpos)
    with (caches := repeat (@None kv_cache) (List.length lps))
         (st := {| ls_hidden_state := e;
                   ls_all_hidden_states := PyNone;
                   ls_output_attentions := PyBool false |})
    as [h' [E' S']].
  - rewrite Hcm. apply masks_merge_rank1; assumption.
  - clear. induction (List.length lps); constructor; auto.
  - exact Se.
  - reflexivity.
  - rewrite E'. cbn [bind fst snd ls_hidden_state ls_all_hidden_states].
    destruct (rmsnorm_returns (rms_norm_eps config) (norm (model p)) h'
                B S _ S' Hnorm) as [hs [Ehs Shs]].
    rewrite Ehs.
    destruct (dense_returns _ _ hs B S _ Hhead Shs) as [logits [El Sl]].
    exists logits. split; [|exact Sl].
    destruct return_dict;
      cbn [bind negb filter is_not_none output_items getitem nth_error
           as_array tl last];
      rewrite Htie, El; reflexivity.
Qed.

Lemma causal_lm_returns_for_rank1_mask_witness :
  exists logits,
    FlaxMistralForCausalLMModule tiny_config tiny_lm_params tiny_layers
      tiny_tables [None] prompt_ids (full [3] true) prompt_positions None
      false false false false
    = Ok ([None], LMTuple [PyArray logits]) /\
    shape logits = [1; 3; 16].
Proof.
  apply (causal_lm_returns_for_rank1_mask tiny_config bfloat16 (fun x => x)
           tiny_lm_params [tiny_layer] tiny_tables prompt_ids
           (full [3] true) prompt_positions false 1 3 2).
  - unfold heads_divide. simpl. lia.
  - constructor; [|constructor].
    unfold layer_shaped, attention_shaped, mlp_shaped. simpl.
    repeat split; reflexivity.
  - reflexivity.
  - reflexivity.
  - reflexivity.
  - reflexivity.
  - reflexivity.
  - reflexivity.
  - reflexivity.
  - reflexivity.
  - lia.
  - lia.
  - simpl. lia.
Defined.

(** With [output_attentions] on, the second output of the attention
    call is the tensor of weighted values in its [batch, seq, hidden]
    form (the input of [o_proj]), not the attention weights of shape
    [batch, heads, query, key]. *)
Theorem attention_second_output_is_context
  (config : MistralConfig) (dt : dtype) (p : attention_params)
  (hidden_state : ndarray fval) (fc : ndarray complex)
  (am : ndarray bool) (pos : ndarray Z) (B S E P C : nat) :
  heads_divide config P ->
  attention_shaped config P p ->
  shape hidden_state = [B; S; hidden_size config] ->
  0 < B -> 0 < S -> S <= C ->
  shape fc = [E; P] ->
  shape pos = [B; S] ->
  shape am = [B; S] ->
  exists out attn_output,
    FlaxMistralAttention config dt p None hidden_state fc am
      (make_causal_mask C) pos false true
    = Ok (None, [out; attn_output]) /\
    shape out = [B; S; hidden_size config] /\
    shape attn_output = [B; S; hidden_size config] /\
    dense (hidden_size config) (o_proj p) attn_output = Ok out.
Proof.
  intros Hcfg Hatt Hh PB PS HC Hfc Hpos Ham.
  destruct (attention_returns config dt p hidden_state fc am
              (make_causal_mask C) pos B S E P Hcfg Hatt Hh PB PS Hfc Hpos
              (masks_merge_rank2 am B S C Ham HC) true)
    as [out [a [E1 [So Sa]]]].
  exists out, a. split; [exact E1|]. split; [exact So|]. split; [exact Sa|].
  unfold FlaxMistralAttention in E1.
  repeat (apply bind_Ok_inv in E1; destruct E1 as [? [_ E1]]).
  destruct (shape hidden_state) as [|? [|? ?]]; try discriminate.
  repeat (apply bind_Ok_inv in E1; destruct E1 as [? [_ E1]]).
  match type of E1 with
  | (let '(_, _) := ?st in _) = _ => destruct st as [c' [[[q' k'] v'] am']]
  end.
  destruct (shape q') as [|? [|? ?]]; try discriminate.
  destruct (shape k') as [|? [|? ?]]; try discriminate.
  repeat (apply bind_Ok_inv in E1; destruct E1 as [? [? E1]]).
  inversion E1; subst. assumption.
Qed.

Lemma attention_second_output_is_context_witness :
  exists out attn_output,
    FlaxMistralAttention tiny_config bfloat16 tiny_attention None
      prompt_hidden (freq_cis tiny_tables) prompt_mask (make_causal_mask 4)
      prompt_positions false true
    = Ok (None, [out; attn_output]) /\
    shape attn_output = [1; 3; 8].
Proof.
  destruct (attention_second_output_is_context tiny_config bfloat16
              tiny_attention prompt_hidden (freq_cis tiny_tables)
              prompt_mask prompt_positions 1 3 8 2 4)
    as [out [a [E [_ [Sa _]]]]].
  - unfold heads_divide. simpl. lia.
  - unfold attention_shaped. simpl. repeat split; reflexivity.
  - reflexivity.
  - lia.
  - lia.
  - lia.
  - reflexivity.
  - reflexivity.
  - reflexivity.
  - exists out, a. split; [exact E | exact Sa].
Defined.

(* ================================================================== *)
(** ** The key/value cache: a chunk longer than the buffers *)

(** The one append that fails: more new tokens than the buffers have
    positions.  [jax.lax.dynamic_update_slice] rejects an update that
    is larger than its operand. *)
Theorem cache_append_longer_than_buffer_raises
  (c : kv_cache) (q k v : ndarray fval) (am : ndarray bool)
  (B ML NH D n : nat) :
  shape (cache_key c) = [B; ML; NH; D] ->
  shape k = [B; n; NH; D] ->
  ML < n ->
  concatenate_to_cache_ (Some c) q k v am = Raise TypeError.
Proof.
  intros Hc Hk Hn. unfold concatenate_to_cache_. rewrite Hc.
  cbn [rev app repeat List.length].
  rewrite (dynamic_update_slice_too_long (cache_key c) k B ML NH D n
             (cache_index c) Hc Hk Hn).
  reflexivity.
Qed.

Lemma cache_append_longer_than_buffer_raises_witness :
  concatenate_to_cache_ (Some (small_cache 4 0)) (new_tokens 5)
    (new_tokens 5) (new_tokens 5) (ones_mask4 4) = Raise TypeError.
Proof.
  apply (cache_append_longer_than_buffer_raises (small_cache 4 0)
           (new_tokens 5) (new_tokens 5) (new_tokens 5) (ones_mask4 4)
           1 4 1 1 5).
  - reflexivity.
  - reflexivity.
  - lia.
Defined.

(* ================================================================== *)
(** ** FlaxMistralMLP *)

Lemma dense_data (features : nat) (kernel x : ndarray fval)
  (B S n_in : nat) :
  shape kernel = [n_in; features] ->
  shape x = [B; S; n_in] ->
  exists y,
    dense features kernel x = Ok y /\
    shape y = [B; S; features] /\
    forall b s o,
      data y [b; s; o]
      = fsum (map (fun i => fmul (data x [b; s; i]) (data kernel [i; o]))
                (seq 0 n_in)).
Proof.
  intros Hk Hx. unfold dense. rewrite Hk, Hx. cbn [rev app].
  rewrite !Nat.eqb_refl. cbn [andb].
  eexists. split; [reflexivity|]. split; [reflexivity|].
  intros b s o. reflexivity.
Qed.

Lemma binop_data3 {A B C : Type} (f : A -> B -> C)
  (a : ndarray A) (b : ndarray B) (D0 D1 D2 : nat) :
  shape a = [D0; D1; D2] -> shape b = [D0; D1; D2] ->
  exists c,
    binop f a b = Ok c /\
    shape c = [D0; D1; D2] /\
    forall i j k, i < D0 -> j < D1 -> k < D2 ->
      data c [i; j; k] = f (data a [i; j; k]) (data b [i; j; k]).
Proof.
  intros Ha Hb. unfold binop, broadcast_shapes, pad_left.
  rewrite Ha, Hb. cbn [List.length Nat.max Nat.sub repeat app].
  rewrite bshape_same.
  eexists. split; [reflexivity|]. split; [reflexivity|].
  intros i j k Li Lj Lk. cbn [data]. unfold bcast_index.
  cbn [List.length Nat.sub skipn combine map fst snd].
  rewrite !(bcast_keep D0 i), !(bcast_keep D1 j), !(bcast_keep D2 k)
    by assumption.
  reflexivity.
Qed.

(** The MLP works on each token by itself: the output at a position
    [b, s] is determined by the input at that position. *)
Theorem mlp_is_position_wise
  (config : MistralConfig) (act_fn : fval -> fval) (p : mlp_params)
  (x1 x2 : ndarray fval) (B S b s : nat) :
  mlp_shaped config p ->
  shape x1 = [B; S; hidden_size config] ->
  shape x2 = [B; S; hidden_size config] ->
  b < B -> s < S ->
  (forall j, j < hidden_size config -> data x1 [b; s; j] = data x2 [b; s; j]) ->
  exists y1 y2,
    FlaxMistralMLP config act_fn p x1 = Ok y1 /\
    FlaxMistralMLP config act_fn p x2 = Ok y2 /\
    forall j, data y1 [b; s; j] = data y2 [b; s; j].
Proof.
  intros [Hg [Hu Hd]] H1 H2 Lb Ls Hrow.
  assert (Hone : forall x, shape x = [B; S; hidden_size config] ->
            exists y,
              FlaxMistralMLP config act_fn p x = Ok y /\
              forall j,
                data y [b; s; j]
                = fsum (map (fun i =>
                     fmul (fmul (act_fn
                             (fsum (map (fun e => fmul (data x [b; s; e])
                                                  (data (gate_proj p) [e; i]))
                                      (seq 0 (hidden_size config)))))
                             (fsum (map (fun e => fmul (data x [b; s; e])
                                                  (data (up_proj p) [e; i]))
                                      (seq 0 (hidden_size config)))))
                          (data (down_proj p) [i; j]))
                    (seq 0 (intermediate_size config)))).
  { intros x Hx. unfold FlaxMistralMLP.
    destruct (dense_data _ _ x B S _ Hg Hx) as [g [Eg [Sg Dg]]].
    destruct (dense_data _ _ x B S _ Hu Hx) as [u [Eu [Su Du]]].
    rewrite Eg. unfold bind at 1. rewrite Eu. unfold bind at 1.
    destruct (binop_data3 fmul (amap act_fn g) u B S
                (intermediate_size config)) as [h [Eh [Sh Dh]]];
      [exact Sg | exact Su |].
    rewrite Eh. unfold bind.
    destruct (dense_data _ _ h B S _ Hd Sh) as [y [Ey [Sy Dy]]].
    exists y. split; [exact Ey|].
    intros j. rewrite Dy. f_equal. apply map_ext_in. intros i Hi.
    apply in_seq in Hi. rewrite Dh by lia.
    cbn [amap data]. rewrite Dg, Du. reflexivity. }
  destruct (Hone x1 H1) as [y1 [E1 D1]].
  destruct (Hone x2 H2) as [y2 [E2 D2]].
  exists y1, y2. split; [exact E1|]. split; [exact E2|].
  intros j. rewrite D1, D2. f_equal. apply map_ext_in. intros i _.
  assert (Hsum : forall kern : ndarray fval,
            fsum (map (fun e => fmul (data x1 [b; s; e]) (data kern [e; i]))
                    (seq 0 (hidden_size config)))
            = fsum (map (fun e => fmul (data x2 [b; s; e]) (data kern [e; i]))
                      (seq 0 (hidden_size config)))).
  { intros kern. f_equal. apply map_ext_in. intros e He.
    apply in_seq in He. rewrite Hrow by lia. reflexivity. }
  rewrite !Hsum. reflexivity.
Qed.

Lemma mlp_is_position_wise_witness :
  exists y1 y2,
    FlaxMistralMLP tiny_config (fun x => x) (mlp tiny_layer) prompt_hidden
    = Ok y1 /\
    FlaxMistralMLP tiny_config (fun x => x) (mlp tiny_layer)
      (NDArray [1; 3; 8] (fun ix => match ix with
                                    | [_; 1; _] => fone
                                    | _ => fzero
                                    end)) = Ok y2 /\
    forall j, data y1 [0; 1; j] = data y2 [0; 1; j].
Proof.
  apply (mlp_is_position_wise tiny_config (fun x => x) (mlp tiny_layer)
           prompt_hidden
           (NDArray [1; 3; 8] (fun ix => match ix with
                                         | [_; 1; _] => fone
                                         | _ => fzero
                                         end)) 1 3 0 1).
  - unfold mlp_shaped. simpl. repeat split; reflexivity.
  - reflexivity.
  - reflexivity.
  - lia.
  - lia.
  - intros j _. reflexivity.
Defined.

(* ================================================================== *)
(** ** The sliding window of the configuration *)

(** The attention call applies no sliding window: without a cache a
    query [i] is allowed every valid key [j <= i], also a key that
    lies [sliding_window] positions or more before it. *)
Theorem sliding_window_is_not_applied
  (config : MistralConfig) (dt : dtype) (am : ndarray bool)
  (B S C b i j : nat) :
  shape am = [B; S] -> S <= C ->
  b < B -> i < S -> j <= i ->
  sliding_window config <= i - j ->
  data am [b; j] = true ->
  exists cw m,
    causal_window None (make_causal_mask C) S S = Ok cw /\
    merge_masks B am cw = Ok m /\
    data (attention_bias_of dt m) [b; 0; i; j] = Fin 0.
Proof.
  intros Ham HS Lb Li Lj _ Hv.
  destruct (cache_free_masks am B S S C Ham HS HS)
    as [cw [m [E1 [E2 [_ D]]]]].
  exists cw, m. split; [exact E1|]. split; [exact E2|].
  unfold attention_bias_of. cbn [amap data].
  rewrite (D b i j) by lia. rewrite Hv.
  replace (j <=? i) with true by (symmetry; apply Nat.leb_le; lia).
  reflexivity.
Qed.

Lemma sliding_window_is_not_applied_witness :
  exists cw m,
    causal_window None (make_causal_mask 4) 3 3 = Ok cw /\
    merge_masks 1 prompt_mask cw = Ok m /\
    data (attention_bias_of bfloat16 m) [0; 0; 2; 0] = Fin 0.
Proof.
  apply (sliding_window_is_not_applied
           {| vocab_size := 16; hidden_size := 8; intermediate_size := 16;
              num_hidden_layers := 1; num_attention_heads := 2;
              num_key_value_heads := 1; max_position_embeddings := 4;
              rms_norm_eps := (/ 1000000)%R; tie_word_embeddings := false;
              rope_theta := 10000%R; sliding_window := 2;
              gradient_checkpointing := "nothing_saveable";
              use_pjit_attention_force := true; attn_pdrop := 0%R;
              c_max_position_embeddings := 4 |}
           bfloat16 prompt_mask 1 3 4 0 2 0).
  - reflexivity.
  - lia.
  - lia.
  - lia.
  - lia.
  - simpl. lia.
  - reflexivity.
Defined.

(* ================================================================== *)
(** ** Causal masking: the calls that return *)






